(** * RLpbr: a shallow embedding of the batched render/bake orchestration

    The development follows the C++ sources of the Vulkan backend
    ([src/vulkan/render.cpp]), of the type-erased backend handles
    ([src/rlpbr_core/common.cpp]) and of the scene conversion tool
    ([bin/preprocess.cpp]).

    Conventions.
    - Fixed-width integers are [Z] with the wrap-around written out
      ([u32], [u64]).
    - Bytes are [Init.Byte.byte]; little-endian scalars use coqutil's
      [le_split]/[le_combine].
    - Commands recorded into a Vulkan command buffer, and the calls made on
      the device, are kept as an explicit trace ([list Cmd]).
    - Finite maps (descriptor sets, host-mapped tables) are stdpp [gmap]s.
    - Anything produced by the GPU (rendered images, adaptive statistics) is
      a section variable: the theorems hold whatever the device answers. *)

From Stdlib Require Import ZArith QArith Lia List String.
From Stdlib Require Import Init.Byte.
From coqutil Require Import Byte Word.LittleEndianList.
From stdpp Require Import base option list gmap strings.

Local Open Scope Z_scope.

(** ** Machine integers *)

Definition u32 (x : Z) : Z := x mod 2 ^ 32.
Definition u64 (x : Z) : Z := x mod 2 ^ 64.

(** [(int)x] for a [uint32_t] [x]. *)
Definition to_int (x : Z) : Z := if x <? 2 ^ 31 then x else x - 2 ^ 32.

Lemma u64_small x : 0 <= x < 2 ^ 64 -> u64 x = x.
Proof. intros H. unfold u64. now apply Z.mod_small. Qed.

Lemma u64_range x : 0 <= u64 x < 2 ^ 64.
Proof. unfold u64. apply Z.mod_pos_bound. lia. Qed.

(** ** Parameter-buffer layout ([getParamBufferConfig], render.cpp:44-75) *)

Module ParamBuffer.

(** The offsets and sizes are [VkDeviceSize] values, unsigned 64-bit. *)
Record ParamBufferConfig := {
  totalTransformBytes : Z;
  materialIndicesOffset : Z;
  totalMaterialIndexBytes : Z;
  lightsOffset : Z;
  totalLightParamBytes : Z;
  envOffset : Z;
  totalEnvParamBytes : Z;
  totalParamBytes : Z
}.

(** Rounding [x] up to a multiple of [a], on unbounded integers. *)
Definition round_up (a x : Z) : Z := (x + a - 1) / a * a.

Section Layout.

(** The device's [minStorageBufferOffsetAlignment], held by the allocator. *)
Variable storageBufferAlignment : Z.
(** [sizeof] of the structures shared with the shaders (shader_common.h is
    not part of the sources) and the capacities of [VulkanConfig]. *)
Variables sizeof_InstanceTransform sizeof_PackedLight sizeof_PackedEnv : Z.
Variables max_instances max_lights : Z.

(** Modelled from the spec: [MemoryAllocator::alignStorageBufferOffset]
    (memory.cpp is not part of the sources) rounds a [VkDeviceSize] offset up
    to the device's minimum storage-buffer alignment. *)
Definition alignStorageBufferOffset (offset : Z) : Z :=
  u64 (round_up storageBufferAlignment offset).

Definition sizeof_uint32_t : Z := 4.

Definition getParamBufferConfig (batch_size : Z) : ParamBufferConfig :=
  let totalTransformBytes := u64 (sizeof_InstanceTransform * max_instances) in
  let cur_offset := totalTransformBytes in
  let materialIndicesOffset := alignStorageBufferOffset cur_offset in
  let totalMaterialIndexBytes := u64 (sizeof_uint32_t * max_instances) in
  let cur_offset := u64 (materialIndicesOffset + totalMaterialIndexBytes) in
  let lightsOffset := alignStorageBufferOffset cur_offset in
  let totalLightParamBytes := u64 (sizeof_PackedLight * max_lights) in
  let cur_offset := u64 (lightsOffset + totalLightParamBytes) in
  let envOffset := alignStorageBufferOffset cur_offset in
  let totalEnvParamBytes := u64 (sizeof_PackedEnv * batch_size) in
  let cur_offset := u64 (envOffset + totalEnvParamBytes) in
  (* Ensure that full block is aligned to maximum requirement *)
  let totalParamBytes := alignStorageBufferOffset cur_offset in
  {| totalTransformBytes := totalTransformBytes;
     materialIndicesOffset := materialIndicesOffset;
     totalMaterialIndexBytes := totalMaterialIndexBytes;
     lightsOffset := lightsOffset;
     totalLightParamBytes := totalLightParamBytes;
     envOffset := envOffset;
     totalEnvParamBytes := totalEnvParamBytes;
     totalParamBytes := totalParamBytes |}.

(** The sum of the four sub-region sizes, without any padding. *)
Definition sum_of_region_sizes (cfg : ParamBufferConfig) : Z :=
  totalTransformBytes cfg + totalMaterialIndexBytes cfg +
  totalLightParamBytes cfg + totalEnvParamBytes cfg.

(** The values the parameters can take: a positive alignment that fits 32
    bits, structure sizes below 2^20 bytes, 32-bit capacities. *)
Definition params_in_range : Prop :=
  0 < storageBufferAlignment < 2 ^ 32 /\
  0 < sizeof_InstanceTransform < 2 ^ 20 /\
  0 < sizeof_PackedLight < 2 ^ 20 /\
  0 < sizeof_PackedEnv < 2 ^ 20 /\
  0 < max_instances < 2 ^ 32 /\
  0 < max_lights < 2 ^ 32.

End Layout.

(** *** Rounding up *)

Lemma round_up_ge a x : 0 < a -> x <= round_up a x.
Proof.
  intros Ha. unfold round_up.
  pose proof (Z.div_mod (x + a - 1) a ltac:(lia)) as Hdm.
  pose proof (Z.mod_pos_bound (x + a - 1) a Ha) as Hm.
  lia.
Qed.

Lemma round_up_lt a x : 0 < a -> round_up a x < x + a.
Proof.
  intros Ha. unfold round_up.
  pose proof (Z.div_mod (x + a - 1) a ltac:(lia)) as Hdm.
  pose proof (Z.mod_pos_bound (x + a - 1) a Ha) as Hm.
  lia.
Qed.

Lemma round_up_divide a x : (a | round_up a x).
Proof. unfold round_up. exists ((x + a - 1) / a). reflexivity. Qed.

Lemma round_up_multiple a x : 0 < a -> (a | x) -> round_up a x = x.
Proof.
  intros Ha [k ->]. unfold round_up.
  replace (k * a + a - 1) with ((a - 1) + k * a) by lia.
  rewrite Z.div_add by lia.
  rewrite (Z.div_small (a - 1) a) by lia. lia.
Qed.

Lemma align_no_wrap a x :
  0 < a < 2 ^ 32 -> 0 <= x < 2 ^ 60 ->
  alignStorageBufferOffset a x = round_up a x.
Proof.
  intros Ha Hx. unfold alignStorageBufferOffset.
  apply u64_small.
  pose proof (round_up_ge a x ltac:(lia)).
  pose proof (round_up_lt a x ltac:(lia)).
  lia.
Qed.

(** Within the parameters' ranges no 64-bit operation of
    [getParamBufferConfig] wraps. *)
Lemma getParamBufferConfig_exact a sT sL sE mI mL batch_size :
  params_in_range a sT sL sE mI mL -> 0 <= batch_size < 2 ^ 32 ->
  let T := sT * mI in
  let M := sizeof_uint32_t * mI in
  let L := sL * mL in
  let E := sE * batch_size in
  let matOff := round_up a T in
  let lightsOff := round_up a (matOff + M) in
  let envOff := round_up a (lightsOff + L) in
  getParamBufferConfig a sT sL sE mI mL batch_size =
  {| totalTransformBytes := T;
     materialIndicesOffset := matOff;
     totalMaterialIndexBytes := M;
     lightsOffset := lightsOff;
     totalLightParamBytes := L;
     envOffset := envOff;
     totalEnvParamBytes := E;
     totalParamBytes := round_up a (envOff + E) |}.
Proof.
  intros (Ha & HsT & HsL & HsE & HmI & HmL) Hb T M L E matOff lightsOff envOff.
  assert (HT : 0 <= T < 2 ^ 52) by (subst T; nia).
  assert (HM : 0 <= M < 2 ^ 52) by (subst M; unfold sizeof_uint32_t; lia).
  assert (HL : 0 <= L < 2 ^ 52) by (subst L; nia).
  assert (HE : 0 <= E < 2 ^ 52) by (subst E; nia).
  assert (H1 : T <= matOff < T + a)
    by (subst matOff; split; [apply round_up_ge | apply round_up_lt]; lia).
  assert (H2 : matOff + M <= lightsOff < matOff + M + a)
    by (subst lightsOff; split; [apply round_up_ge | apply round_up_lt]; lia).
  assert (H3 : lightsOff + L <= envOff < lightsOff + L + a)
    by (subst envOff; split; [apply round_up_ge | apply round_up_lt]; lia).
  unfold getParamBufferConfig.
  fold T M L E.
  rewrite (u64_small T) by lia.
  rewrite (u64_small M) by lia.
  rewrite (u64_small L) by lia.
  rewrite (u64_small E) by lia.
  rewrite (align_no_wrap a T) by lia. fold matOff.
  rewrite (u64_small (matOff + M)) by lia.
  rewrite (align_no_wrap a (matOff + M)) by lia. fold lightsOff.
  rewrite (u64_small (lightsOff + L)) by lia.
  rewrite (align_no_wrap a (lightsOff + L)) by lia. fold envOff.
  rewrite (u64_small (envOff + E)) by lia.
  rewrite (align_no_wrap a (envOff + E)) by lia.
  reflexivity.
Qed.

(** C4 (as amended): for every batch size the four sub-regions (instance
    transforms at offset 0, material indices, lights, per-environment
    records) start at strictly increasing offsets, do not overlap, and every
    offset and the total size are multiples of the storage-buffer alignment;
    the total size is the end of the last sub-region rounded up to the
    alignment, so it counts the padding inserted between sub-regions, and it
    is the rounded-up sum of the sub-region sizes when the first three sizes
    are multiples of the alignment. *)
Theorem getParamBufferConfig_layout a sT sL sE mI mL batch_size :
  params_in_range a sT sL sE mI mL -> 0 <= batch_size < 2 ^ 32 ->
  let cfg := getParamBufferConfig a sT sL sE mI mL batch_size in
  (* increasing offsets *)
  (0 < materialIndicesOffset cfg < lightsOffset cfg /\
   lightsOffset cfg < envOffset cfg <= totalParamBytes cfg) /\
  (* each sub-region ends before the next one starts *)
  (0 + totalTransformBytes cfg <= materialIndicesOffset cfg /\
   materialIndicesOffset cfg + totalMaterialIndexBytes cfg <= lightsOffset cfg /\
   lightsOffset cfg + totalLightParamBytes cfg <= envOffset cfg /\
   envOffset cfg + totalEnvParamBytes cfg <= totalParamBytes cfg) /\
  (* alignment *)
  ((a | 0) /\ (a | materialIndicesOffset cfg) /\ (a | lightsOffset cfg) /\
   (a | envOffset cfg) /\ (a | totalParamBytes cfg)) /\
  (* total size *)
  totalParamBytes cfg = round_up a (envOffset cfg + totalEnvParamBytes cfg) /\
  ((a | totalTransformBytes cfg) -> (a | totalMaterialIndexBytes cfg) ->
   (a | totalLightParamBytes cfg) ->
   totalParamBytes cfg = round_up a (sum_of_region_sizes cfg)).
Proof.
  intros Hr Hb cfg. subst cfg.
  rewrite (getParamBufferConfig_exact _ _ _ _ _ _ _ Hr Hb).
  destruct Hr as (Ha & HsT & HsL & HsE & HmI & HmL).
  cbn [totalTransformBytes materialIndicesOffset totalMaterialIndexBytes
       lightsOffset totalLightParamBytes envOffset totalEnvParamBytes
       totalParamBytes sum_of_region_sizes].
  set (T := sT * mI). set (M := sizeof_uint32_t * mI).
  set (L := sL * mL). set (E := sE * batch_size).
  set (matOff := round_up a T).
  set (lightsOff := round_up a (matOff + M)).
  set (envOff := round_up a (lightsOff + L)).
  assert (HT : 0 < T) by (subst T; nia).
  assert (HM : 0 < M) by (subst M; unfold sizeof_uint32_t; lia).
  assert (HL : 0 < L) by (subst L; nia).
  assert (HE : 0 <= E) by (subst E; nia).
  assert (H1 : T <= matOff) by (apply round_up_ge; lia).
  assert (H2 : matOff + M <= lightsOff) by (apply round_up_ge; lia).
  assert (H3 : lightsOff + L <= envOff) by (apply round_up_ge; lia).
  assert (H4 : envOff + E <= round_up a (envOff + E)) by (apply round_up_ge; lia).
  repeat split; try lia; try apply round_up_divide.
  - exists 0. lia.
  - intros DT DM DL.
    subst envOff lightsOff matOff.
    rewrite (round_up_multiple a T) by (lia || assumption).
    rewrite (round_up_multiple a (T + M)) by (lia || now apply Z.divide_add_r).
    rewrite (round_up_multiple a (T + M + L))
      by (lia || (apply Z.divide_add_r; [now apply Z.divide_add_r | assumption])).
    reflexivity.
Qed.

(** A configuration on which every hypothesis of
    [getParamBufferConfig_layout] holds: alignment 64, 64-byte transforms,
    32-byte lights, 144-byte environment records, 1024 instances and
    lights, a batch of 4. *)
Lemma getParamBufferConfig_layout_witness :
  let cfg := getParamBufferConfig 64 64 32 144 1024 1024 4 in
  (0 < materialIndicesOffset cfg < lightsOffset cfg /\
   lightsOffset cfg < envOffset cfg <= totalParamBytes cfg) /\
  (0 + totalTransformBytes cfg <= materialIndicesOffset cfg /\
   materialIndicesOffset cfg + totalMaterialIndexBytes cfg <= lightsOffset cfg /\
   lightsOffset cfg + totalLightParamBytes cfg <= envOffset cfg /\
   envOffset cfg + totalEnvParamBytes cfg <= totalParamBytes cfg) /\
  ((64 | 0) /\ (64 | materialIndicesOffset cfg) /\ (64 | lightsOffset cfg) /\
   (64 | envOffset cfg) /\ (64 | totalParamBytes cfg)) /\
  totalParamBytes cfg = round_up 64 (envOffset cfg + totalEnvParamBytes cfg) /\
  ((64 | totalTransformBytes cfg) -> (64 | totalMaterialIndexBytes cfg) ->
   (64 | totalLightParamBytes cfg) ->
   totalParamBytes cfg = round_up 64 (sum_of_region_sizes cfg)).
Proof.
  apply (getParamBufferConfig_layout 64 64 32 144 1024 1024 4).
  - unfold params_in_range. lia.
  - lia.
Defined.

(** C4 (as stated) fails: with alignment 256, 48-byte transforms and 1000
    instances, padding is inserted after the transforms and after the
    material indices, and the total (84480) is not the sum of the sub-region
    sizes (84144) rounded up to the alignment (84224). *)
Lemma total_is_not_rounded_sum_of_sizes :
  let cfg := getParamBufferConfig 256 48 32 144 1000 1000 1 in
  totalParamBytes cfg = 84480 /\
  sum_of_region_sizes cfg = 84144 /\
  round_up 256 (sum_of_region_sizes cfg) = 84224 /\
  totalParamBytes cfg <> round_up 256 (sum_of_region_sizes cfg).
Proof. vm_compute. repeat split; congruence. Qed.

End ParamBuffer.

(** ** Type-erased backend handles (rlpbr_core/common.cpp, backend.hpp)

    A handle stores one function pointer per operation and an opaque pointer
    to the backend object.  Pointers are addresses; [nullptr] is 0.  The
    effect of a destructor or of an assignment on the backend is the list of
    [invoke(destroy_ptr_, state_)] calls it makes. *)

Module Handles.

Definition ptr : Type := Z.
Definition nullptr : ptr := 0.

(** [if (state_)]: a pointer converts to [true] when it is not null. *)
Definition is_set (p : ptr) : bool := negb (p =? nullptr).

(** One call [invoke(destroy_ptr_, state_)]. *)
Record DestroyCall := { destroy_fn : ptr; destroyed_state : ptr }.

Module EnvironmentImpl.

Record t := {
  destroy_ptr_ : ptr;
  add_light_ptr_ : ptr;
  remove_light_ptr_ : ptr;
  state_ : ptr
}.

(** [EnvironmentImpl(EnvironmentImpl &&o)]: the new object and [o] after the
    call. *)
Definition move_ctor (o : t) : t * t :=
  ({| destroy_ptr_ := destroy_ptr_ o;
      add_light_ptr_ := add_light_ptr_ o;
      remove_light_ptr_ := remove_light_ptr_ o;
      state_ := state_ o |},
   {| destroy_ptr_ := destroy_ptr_ o;
      add_light_ptr_ := add_light_ptr_ o;
      remove_light_ptr_ := remove_light_ptr_ o;
      state_ := nullptr |}).

(** [~EnvironmentImpl()]. *)
Definition dtor (this : t) : list DestroyCall :=
  if is_set (state_ this)
  then [ {| destroy_fn := destroy_ptr_ this; destroyed_state := state_ this |} ]
  else [].

(** [operator=(EnvironmentImpl &&o)]: [*this] and [o] after the call, and the
    destroy calls made. *)
Definition move_assign (this o : t) : t * t * list DestroyCall :=
  let calls :=
    if is_set (state_ this)
    then [ {| destroy_fn := destroy_ptr_ this; destroyed_state := state_ this |} ]
    else [] in
  ({| destroy_ptr_ := destroy_ptr_ o;
      add_light_ptr_ := add_light_ptr_ o;
      remove_light_ptr_ := remove_light_ptr_ o;
      state_ := state_ o |},
   {| destroy_ptr_ := destroy_ptr_ o;
      add_light_ptr_ := add_light_ptr_ o;
      remove_light_ptr_ := remove_light_ptr_ o;
      state_ := nullptr |},
   calls).

End EnvironmentImpl.

Module LoaderImpl.

Record t := {
  destroy_ptr_ : ptr;
  load_scene_ptr_ : ptr;
  load_env_maps_ptr_ : ptr;
  state_ : ptr
}.

Definition move_ctor (o : t) : t * t :=
  ({| destroy_ptr_ := destroy_ptr_ o;
      load_scene_ptr_ := load_scene_ptr_ o;
      load_env_maps_ptr_ := load_env_maps_ptr_ o;
      state_ := state_ o |},
   {| destroy_ptr_ := destroy_ptr_ o;
      load_scene_ptr_ := load_scene_ptr_ o;
      load_env_maps_ptr_ := load_env_maps_ptr_ o;
      state_ := nullptr |}).

Definition dtor (this : t) : list DestroyCall :=
  if is_set (state_ this)
  then [ {| destroy_fn := destroy_ptr_ this; destroyed_state := state_ this |} ]
  else [].

(** [operator=(LoaderImpl &&o)] assigns [destroy_ptr_], [load_scene_ptr_] and
    [state_]; [load_env_maps_ptr_] keeps the value [*this] had. *)
Definition move_assign (this o : t) : t * t * list DestroyCall :=
  let calls :=
    if is_set (state_ this)
    then [ {| destroy_fn := destroy_ptr_ this; destroyed_state := state_ this |} ]
    else [] in
  ({| destroy_ptr_ := destroy_ptr_ o;
      load_scene_ptr_ := load_scene_ptr_ o;
      load_env_maps_ptr_ := load_env_maps_ptr_ this;
      state_ := state_ o |},
   {| destroy_ptr_ := destroy_ptr_ o;
      load_scene_ptr_ := load_scene_ptr_ o;
      load_env_maps_ptr_ := load_env_maps_ptr_ o;
      state_ := nullptr |},
   calls).

(** The member a call of [loadEnvironmentMaps] goes through:
    [(state_->*load_env_maps_ptr_)(paths, num_maps)]. *)
Definition loadEnvironmentMaps_target (h : t) : ptr * ptr :=
  (load_env_maps_ptr_ h, state_ h).

End LoaderImpl.

Module RendererImpl.

Record t := {
  destroy_ptr_ : ptr;
  make_baker_ptr_ : ptr;
  make_loader_ptr_ : ptr;
  make_env_ptr_ : ptr;
  set_env_maps_ptr_ : ptr;
  make_batch_ptr_ : ptr;
  render_ptr_ : ptr;
  bake_ptr_ : ptr;
  wait_ptr_ : ptr;
  get_output_ptr_ : ptr;
  get_bake_output_ptr_ : ptr;
  get_aux_ptr_ : ptr;
  state_ : ptr
}.

(** [RendererImpl(RendererImpl &&o)].  The member initializer list names
    neither [make_baker_ptr_] nor [make_batch_ptr_]: these members are left
    with whatever the storage of the new object held, given here as [raw]. *)
Definition move_ctor (raw o : t) : t * t :=
  ({| destroy_ptr_ := destroy_ptr_ o;
      make_baker_ptr_ := make_baker_ptr_ raw;
      make_loader_ptr_ := make_loader_ptr_ o;
      make_env_ptr_ := make_env_ptr_ o;
      set_env_maps_ptr_ := set_env_maps_ptr_ o;
      make_batch_ptr_ := make_batch_ptr_ raw;
      render_ptr_ := render_ptr_ o;
      bake_ptr_ := bake_ptr_ o;
      wait_ptr_ := wait_ptr_ o;
      get_output_ptr_ := get_output_ptr_ o;
      get_bake_output_ptr_ := get_bake_output_ptr_ o;
      get_aux_ptr_ := get_aux_ptr_ o;
      state_ := state_ o |},
   {| destroy_ptr_ := destroy_ptr_ o;
      make_baker_ptr_ := make_baker_ptr_ o;
      make_loader_ptr_ := make_loader_ptr_ o;
      make_env_ptr_ := make_env_ptr_ o;
      set_env_maps_ptr_ := set_env_maps_ptr_ o;
      make_batch_ptr_ := make_batch_ptr_ o;
      render_ptr_ := render_ptr_ o;
      bake_ptr_ := bake_ptr_ o;
      wait_ptr_ := wait_ptr_ o;
      get_output_ptr_ := get_output_ptr_ o;
      get_bake_output_ptr_ := get_bake_output_ptr_ o;
      get_aux_ptr_ := get_aux_ptr_ o;
      state_ := nullptr |}).

Definition dtor (this : t) : list DestroyCall :=
  if is_set (state_ this)
  then [ {| destroy_fn := destroy_ptr_ this; destroyed_state := state_ this |} ]
  else [].

(** [operator=(RendererImpl &&o)] assigns [destroy_ptr_], [make_loader_ptr_],
    [make_env_ptr_], [render_ptr_], [wait_ptr_], [get_output_ptr_],
    [get_aux_ptr_] and [state_]; the other five members keep the value
    [*this] had. *)
Definition move_assign (this o : t) : t * t * list DestroyCall :=
  let calls :=
    if is_set (state_ this)
    then [ {| destroy_fn := destroy_ptr_ this; destroyed_state := state_ this |} ]
    else [] in
  ({| destroy_ptr_ := destroy_ptr_ o;
      make_baker_ptr_ := make_baker_ptr_ this;
      make_loader_ptr_ := make_loader_ptr_ o;
      make_env_ptr_ := make_env_ptr_ o;
      set_env_maps_ptr_ := set_env_maps_ptr_ this;
      make_batch_ptr_ := make_batch_ptr_ this;
      render_ptr_ := render_ptr_ o;
      bake_ptr_ := bake_ptr_ this;
      wait_ptr_ := wait_ptr_ o;
      get_output_ptr_ := get_output_ptr_ o;
      get_bake_output_ptr_ := get_bake_output_ptr_ this;
      get_aux_ptr_ := get_aux_ptr_ o;
      state_ := state_ o |},
   {| destroy_ptr_ := destroy_ptr_ o;
      make_baker_ptr_ := make_baker_ptr_ o;
      make_loader_ptr_ := make_loader_ptr_ o;
      make_env_ptr_ := make_env_ptr_ o;
      set_env_maps_ptr_ := set_env_maps_ptr_ o;
      make_batch_ptr_ := make_batch_ptr_ o;
      render_ptr_ := render_ptr_ o;
      bake_ptr_ := bake_ptr_ o;
      wait_ptr_ := wait_ptr_ o;
      get_output_ptr_ := get_output_ptr_ o;
      get_bake_output_ptr_ := get_bake_output_ptr_ o;
      get_aux_ptr_ := get_aux_ptr_ o;
      state_ := nullptr |},
   calls).

(** Every operation pointer of [d] is the one [o] holds. *)
Definition same_operations (d o : t) : Prop :=
  destroy_ptr_ d = destroy_ptr_ o /\
  make_baker_ptr_ d = make_baker_ptr_ o /\
  make_loader_ptr_ d = make_loader_ptr_ o /\
  make_env_ptr_ d = make_env_ptr_ o /\
  set_env_maps_ptr_ d = set_env_maps_ptr_ o /\
  make_batch_ptr_ d = make_batch_ptr_ o /\
  render_ptr_ d = render_ptr_ o /\
  bake_ptr_ d = bake_ptr_ o /\
  wait_ptr_ d = wait_ptr_ o /\
  get_output_ptr_ d = get_output_ptr_ o /\
  get_bake_output_ptr_ d = get_bake_output_ptr_ o /\
  get_aux_ptr_ d = get_aux_ptr_ o.

End RendererImpl.

(** *** What the moves lose *)

(** C10 (evaluation at the failing inputs).  A [LoaderImpl] holding the
    operations of one backend (pointers 1, 2, 3; state 100) is move-assigned
    a handle of another backend (pointers 11, 12, 13; state 200): the
    destination then calls [loadEnvironmentMaps] through pointer 3, the
    operation of the backend it held before, on the new state 200.  The
    [RendererImpl] moves lose operation pointers in the same way. *)
Theorem move_assign_keeps_stale_operations :
  let old_loader := {| LoaderImpl.destroy_ptr_ := 1;
                       LoaderImpl.load_scene_ptr_ := 2;
                       LoaderImpl.load_env_maps_ptr_ := 3;
                       LoaderImpl.state_ := 100 |} in
  let new_loader := {| LoaderImpl.destroy_ptr_ := 11;
                       LoaderImpl.load_scene_ptr_ := 12;
                       LoaderImpl.load_env_maps_ptr_ := 13;
                       LoaderImpl.state_ := 200 |} in
  let mk k s := {| RendererImpl.destroy_ptr_ := k + 1;
                   RendererImpl.make_baker_ptr_ := k + 2;
                   RendererImpl.make_loader_ptr_ := k + 3;
                   RendererImpl.make_env_ptr_ := k + 4;
                   RendererImpl.set_env_maps_ptr_ := k + 5;
                   RendererImpl.make_batch_ptr_ := k + 6;
                   RendererImpl.render_ptr_ := k + 7;
                   RendererImpl.bake_ptr_ := k + 8;
                   RendererImpl.wait_ptr_ := k + 9;
                   RendererImpl.get_output_ptr_ := k + 10;
                   RendererImpl.get_bake_output_ptr_ := k + 11;
                   RendererImpl.get_aux_ptr_ := k + 12;
                   RendererImpl.state_ := s |} in
  (* LoaderImpl::operator= *)
  LoaderImpl.loadEnvironmentMaps_target
    (fst (fst (LoaderImpl.move_assign old_loader new_loader))) = (3, 200) /\
  LoaderImpl.loadEnvironmentMaps_target new_loader = (13, 200) /\
  (* RendererImpl::operator= *)
  ~ RendererImpl.same_operations
      (fst (fst (RendererImpl.move_assign (mk 0 100) (mk 20 200)))) (mk 20 200) /\
  RendererImpl.bake_ptr_
    (fst (fst (RendererImpl.move_assign (mk 0 100) (mk 20 200)))) = 8 /\
  (* RendererImpl(RendererImpl &&) *)
  ~ RendererImpl.same_operations
      (fst (RendererImpl.move_ctor (mk 0 100) (mk 20 200))) (mk 20 200) /\
  RendererImpl.make_batch_ptr_
    (fst (RendererImpl.move_ctor (mk 0 100) (mk 20 200))) = 6.
Proof.
  cbn. repeat split; try reflexivity.
  - intros (_ & H & _). discriminate H.
  - intros (_ & H & _). discriminate H.
Qed.

End Handles.

(** ** The scene conversion tool ([main], bin/preprocess.cpp) *)

Module Preprocess.

Local Open Scope string_scope.

(** [glm::vec4] and [glm::mat4] (column major: [m[i]] is column [i]).  The
    only component values the tool writes are -1, 0 and 1. *)
Record vec4 := { vx : Z; vy : Z; vz : Z; vw : Z }.
Record mat4 := { col0 : vec4; col1 : vec4; col2 : vec4; col3 : vec4 }.

Definition mk_vec4 (x y z w : Z) : vec4 := {| vx := x; vy := y; vz := z; vw := w |}.

(** [glm::mat4 base_txfm(1.f)] *)
Definition mat4_identity : mat4 :=
  {| col0 := mk_vec4 1 0 0 0; col1 := mk_vec4 0 1 0 0;
     col2 := mk_vec4 0 0 1 0; col3 := mk_vec4 0 0 0 1 |}.

(** What the process does that can be observed from outside. *)
Inductive Event :=
| Cerr (msg : string)
    (* cerr << ... *)
| CoutTransform (base_txfm : mat4)
    (* cout << "Transform:\n" << glm::to_string(base_txfm) << endl *)
| Dump (src : string) (base_txfm : mat4) (dst : string).
    (* ScenePreprocessor dumper(src, base_txfm); dumper.dump(dst) *)

Inductive Status :=
| Exited (code : Z)      (* exit(code) *)
| Returned (code : Z).   (* return code from main *)

Definition EXIT_FAILURE : Z := 1.

Definition dquote : string := String (Ascii.ascii_of_nat 34) EmptyString.
Definition endl : string := String (Ascii.ascii_of_nat 10) EmptyString.

Definition arg (argv : list string) (i : nat) : string := nth i argv "".

(** The lambda [convertArg]: a column, or the message written to [cerr]
    before [exit(EXIT_FAILURE)]. *)
Definition convertArg (argv : list string) (desc : string) : vec4 + string :=
  if String.eqb desc "up" then inl (mk_vec4 0 1 0 0)
  else if String.eqb desc "down" then inl (mk_vec4 0 (-1) 0 0)
  else if String.eqb desc "right" then inl (mk_vec4 1 0 0 0)
  else if String.eqb desc "left" then inl (mk_vec4 (-1) 0 0 0)
  else if String.eqb desc "forward" then inl (mk_vec4 0 0 1 0)
  else if String.eqb desc "backward" then inl (mk_vec4 0 0 (-1) 0)
  else inr (arg argv 0 +:+ ": Invalid axes argument " +:+ dquote +:+ desc
            +:+ dquote +:+ endl).

Definition main (argv : list string) : list Event * Status :=
  let argc := Z.of_nat (length argv) in
  if (argc <? 3)%Z then
    ([Cerr (arg argv 0 +:+ " SRC DST [X_AXIS Y_AXIS Z_AXIS]" +:+ endl)],
     Exited EXIT_FAILURE)
  else
    let base_txfm := mat4_identity in
    let axes : mat4 + string :=
      if (3 <? argc)%Z then
        if negb (argc =? 6)%Z then
          inr (arg argv 0 +:+ ": Need to specify zero or all source axes" +:+ endl)
        else
          let x := arg argv 3 in
          let y := arg argv 4 in
          let z := arg argv 5 in
          match convertArg argv x with
          | inr msg => inr msg
          | inl cx =>
            match convertArg argv y with
            | inr msg => inr msg
            | inl cy =>
              match convertArg argv z with
              | inr msg => inr msg
              | inl cz =>
                inl {| col0 := cx; col1 := cy; col2 := cz;
                       col3 := col3 base_txfm |}
              end
            end
          end
      else inl base_txfm in
    match axes with
    | inr msg => ([Cerr msg], Exited EXIT_FAILURE)
    | inl base_txfm =>
      ([CoutTransform base_txfm; Dump (arg argv 1) base_txfm (arg argv 2)],
       Returned 0)
    end.

(** The six direction keywords and the signed unit axis each one names. *)
Definition keywords : list string :=
  ["up"; "down"; "left"; "right"; "forward"; "backward"].

Definition axis_of_keyword (k : string) : option vec4 :=
  if String.eqb k "up" then Some (mk_vec4 0 1 0 0)
  else if String.eqb k "down" then Some (mk_vec4 0 (-1) 0 0)
  else if String.eqb k "left" then Some (mk_vec4 (-1) 0 0 0)
  else if String.eqb k "right" then Some (mk_vec4 1 0 0 0)
  else if String.eqb k "forward" then Some (mk_vec4 0 0 1 0)
  else if String.eqb k "backward" then Some (mk_vec4 0 0 (-1) 0)
  else None.

Definition is_cerr (e : Event) : Prop := exists msg, e = Cerr msg.

(** The run ends in [exit(EXIT_FAILURE)] having written to [cerr] only:
    nothing went to [cout] and no scene was dumped. *)
Definition fails_without_output (r : list Event * Status) : Prop :=
  snd r = Exited EXIT_FAILURE /\ Forall is_cerr (fst r).

(** The run dumps [src] to [dst] under [m] and returns 0. *)
Definition converts_with (m : mat4) (src dst : string)
    (r : list Event * Status) : Prop :=
  r = ([CoutTransform m; Dump src m dst], Returned 0).

Lemma convertArg_keyword argv k :
  In k keywords ->
  exists v, convertArg argv k = inl v /\ axis_of_keyword k = Some v.
Proof.
  intros Hk. unfold keywords in Hk. cbn [In] in Hk.
  destruct Hk as [<- | [<- | [<- | [<- | [<- | [<- | []]]]]]];
    eexists; split; reflexivity.
Qed.

Lemma convertArg_not_keyword argv k :
  ~ In k keywords -> exists msg, convertArg argv k = inr msg.
Proof.
  intros Hk. unfold convertArg.
  repeat match goal with
  | |- context [String.eqb k ?s] =>
      destruct (String.eqb_spec k s) as [-> | _];
      [ exfalso; apply Hk; unfold keywords; cbn [In]; tauto | ]
  end.
  eexists. reflexivity.
Qed.

Lemma convertArg_cases argv k :
  (In k keywords /\ exists v, convertArg argv k = inl v) \/
  (~ In k keywords /\ exists msg, convertArg argv k = inr msg).
Proof.
  destruct (in_dec String.string_dec k keywords) as [Hin | Hout].
  - left. split; [assumption |].
    destruct (convertArg_keyword argv k Hin) as (v & Hv & _). eauto.
  - right. split; [assumption |]. now apply convertArg_not_keyword.
Qed.

(** C9: the tool exits with failure status, having produced no output, when
    it gets fewer than two positional arguments, a number of axis arguments
    other than zero or three, or an axis argument that is not a direction
    keyword; with no axis argument it converts under the identity transform;
    with three keywords it converts under the transform whose first three
    columns are the signed unit axes the keywords name. *)
Theorem main_checks_its_arguments :
  (forall argv, (length argv < 3)%nat -> fails_without_output (main argv)) /\
  (forall argv, (3 < length argv)%nat -> length argv <> 6%nat ->
     fails_without_output (main argv)) /\
  (forall prog src dst x y z,
     ~ (In x keywords /\ In y keywords /\ In z keywords) ->
     fails_without_output (main [prog; src; dst; x; y; z])) /\
  (forall prog src dst,
     converts_with mat4_identity src dst (main [prog; src; dst])) /\
  (forall prog src dst x y z cx cy cz,
     axis_of_keyword x = Some cx -> axis_of_keyword y = Some cy ->
     axis_of_keyword z = Some cz ->
     converts_with {| col0 := cx; col1 := cy; col2 := cz;
                      col3 := mk_vec4 0 0 0 1 |} src dst
       (main [prog; src; dst; x; y; z])) /\
  (forall k, In k keywords <-> is_Some (axis_of_keyword k)) /\
  (axis_of_keyword "up" = Some (mk_vec4 0 1 0 0) /\
   axis_of_keyword "down" = Some (mk_vec4 0 (-1) 0 0) /\
   axis_of_keyword "left" = Some (mk_vec4 (-1) 0 0 0) /\
   axis_of_keyword "right" = Some (mk_vec4 1 0 0 0) /\
   axis_of_keyword "forward" = Some (mk_vec4 0 0 1 0) /\
   axis_of_keyword "backward" = Some (mk_vec4 0 0 (-1) 0)).
Proof.
  assert (Hkw : forall k, In k keywords <-> is_Some (axis_of_keyword k)).
  { intros k. split.
    - intros Hk. destruct (convertArg_keyword [] k Hk) as (v & _ & Hv).
      rewrite Hv. eauto.
    - intros [v Hv]. unfold axis_of_keyword in Hv. unfold keywords. cbn [In].
      repeat match type of Hv with
      | context [String.eqb k ?s] =>
          destruct (String.eqb_spec k s) as [-> | _]; [tauto |]
      end.
      discriminate Hv. }
  repeat apply conj.
  - intros argv Hlen. unfold main.
    destruct (Z.ltb_spec (Z.of_nat (length argv)) 3) as [_ | Hge]; [| lia].
    split; [reflexivity |]. repeat constructor. eexists; reflexivity.
  - intros argv Hlen Hne. unfold main.
    destruct (Z.ltb_spec (Z.of_nat (length argv)) 3) as [Hlt | _]; [lia |].
    destruct (Z.ltb_spec 3 (Z.of_nat (length argv))) as [_ | Hle]; [| lia].
    destruct (Z.eqb_spec (Z.of_nat (length argv)) 6) as [Heq | _]; [lia |].
    split; [reflexivity |]. repeat constructor. eexists; reflexivity.
  - intros prog src dst x y z Hbad.
    set (argv := [prog; src; dst; x; y; z]).
    unfold main. change (Z.of_nat (length argv)) with 6.
    cbn [Z.ltb Z.eqb Z.compare Pos.compare Pos.compare_cont Pos.eqb negb].
    change (arg argv 3) with x. change (arg argv 4) with y.
    change (arg argv 5) with z.
    destruct (convertArg_cases argv x) as [[Hx [cx ->]] | [_ [m ->]]];
      [| split; [reflexivity | repeat constructor; eexists; reflexivity]].
    destruct (convertArg_cases argv y) as [[Hy [cy ->]] | [_ [m ->]]];
      [| split; [reflexivity | repeat constructor; eexists; reflexivity]].
    destruct (convertArg_cases argv z) as [[Hz [cz ->]] | [_ [m ->]]];
      [| split; [reflexivity | repeat constructor; eexists; reflexivity]].
    exfalso. apply Hbad. tauto.
  - intros prog src dst. reflexivity.
  - intros prog src dst x y z cx cy cz Hx Hy Hz.
    set (argv := [prog; src; dst; x; y; z]).
    assert (Hin : forall k c, axis_of_keyword k = Some c ->
                              convertArg argv k = inl c).
    { intros k c Hk.
      assert (Hk' : In k keywords) by (apply Hkw; rewrite Hk; eauto).
      destruct (convertArg_keyword argv k Hk') as (v & Hv & Hv').
      rewrite Hv. congruence. }
    unfold converts_with, main. change (Z.of_nat (length argv)) with 6.
    cbn [Z.ltb Z.eqb Z.compare Pos.compare Pos.compare_cont Pos.eqb negb].
    change (arg argv 3) with x. change (arg argv 4) with y.
    change (arg argv 5) with z.
    rewrite (Hin x cx Hx), (Hin y cy Hy), (Hin z cz Hz). reflexivity.
  - exact Hkw.
  - reflexivity.
  - reflexivity.
  - reflexivity.
  - reflexivity.
  - reflexivity.
  - reflexivity.
Qed.

(** Two runs of the tool: a misspelt axis, and a full set of axes. *)
Example main_rejects_Up :
  main ["convert"; "a.glb"; "a.bps"; "Up"; "left"; "forward"] =
  ([Cerr ("convert: Invalid axes argument " +:+ dquote +:+ "Up" +:+ dquote
          +:+ endl)], Exited EXIT_FAILURE).
Proof. reflexivity. Qed.

Example main_accepts_axes :
  main ["convert"; "a.glb"; "a.bps"; "right"; "backward"; "up"] =
  (let m := {| col0 := mk_vec4 1 0 0 0; col1 := mk_vec4 0 0 (-1) 0;
               col2 := mk_vec4 0 1 0 0; col3 := mk_vec4 0 0 0 1 |} in
   [CoutTransform m; Dump "a.glb" m "a.bps"], Returned 0).
Proof. reflexivity. Qed.

End Preprocess.

(** ** Choice of the sampling scheme ([makeRenderState], render.cpp:185-236) *)

Module RenderSetup.

Local Open Scope string_scope.

(** The fields of [RenderConfig] that [makeRenderState] reads before it
    builds the shader defines. *)
Record RenderConfig := {
  imgWidth : Z;    (* uint32_t *)
  imgHeight : Z;   (* uint32_t *)
  spp : Z;         (* uint32_t *)
  flags : Z        (* RenderFlags, a bit mask *)
}.

(** An operand of [cerr << ...]. *)
Inductive Token :=
| Str (s : string)
| Num (n : Z)
| Endl.

(** How the part of [makeRenderState] modelled here ends: in [fatalExit()],
    or with the sampling define it goes on to compile the shaders with.
    Both carry what was written to [cerr]. *)
Inductive Setup :=
| FatalExit (cerr : list Token)
| Continues (cerr : list Token) (sampling_define : string)
            (num_index_digits_base4 index_shift : Z).

Definition newline : string := String (Ascii.ascii_of_nat 10) EmptyString.

Definition low_spp_message (adaptive_samples_per_thread : Z) : list Token :=
  [ Str "SPP per launch too low for adaptive sampling - ";
    Num adaptive_samples_per_thread; Endl ].
Definition zsobol_warning : list Token :=
  [ Str ("Warning: Not enough bits for ZSobol morton code." +:+ newline +:+
         "Falling back to uniform sampling."); Endl ].

Section MakeRenderState.

(** [VulkanConfig::adaptive_samples_per_thread] and the bits of
    [RenderFlags] (config.hpp of the backend and the public flags header are
    not part of the sources). *)
Variable adaptive_samples_per_thread : Z.
Variables AdaptiveSample ForceUniform : Z.
(** [__builtin_clz(0)] is undefined; [clz_of_zero] is whatever it returns. *)
Variable clz_of_zero : Z.

Definition has_flag (fl mask : Z) : bool := negb (Z.land fl mask =? 0)%Z.

Definition builtin_clz (v : Z) : Z :=
  if (v =? 0)%Z then clz_of_zero else 31 - Z.log2 v.

(** The lambda [log2Int]; its result is an [int]. *)
Definition log2Int (v : Z) : Z := 32 - builtin_clz v - 1.

Definition log2_spp (cfg : RenderConfig) : Z := u32 (log2Int (spp cfg)).

Definition index_shift (cfg : RenderConfig) : Z :=
  let is_odd_power2 := Z.odd (log2_spp cfg) in
  if is_odd_power2 then u32 (log2_spp cfg + 1) else log2_spp cfg.

Definition num_index_digits_base4 (cfg : RenderConfig) : Z :=
  u32 (log2Int (u32 (Z.max (imgWidth cfg) (imgHeight cfg) - 1)) + 1 +
       u32 (log2_spp cfg + 1) / 2).

(** [num_index_digits_base4 * 2 <= 32], in 32-bit unsigned arithmetic. *)
Definition index_fits (cfg : RenderConfig) : bool :=
  (u32 (num_index_digits_base4 cfg * 2) <=? 32)%Z.

(** The adaptive-sampling guard of lines 200-212. *)
Definition spp_too_low (cfg : RenderConfig) : bool :=
  has_flag (flags cfg) AdaptiveSample &&
  (spp cfg <? adaptive_samples_per_thread)%Z.

Definition makeRenderState (cfg : RenderConfig) : Setup :=
  if spp_too_low cfg then
    FatalExit (low_spp_message adaptive_samples_per_thread)
  else
    let '(sampling_define, cerr) :=
      if index_fits cfg then ("ZSOBOL_SAMPLING", [])
      else ("UNIFORM_SAMPLING", zsobol_warning) in
    let sampling_define :=
      if has_flag (flags cfg) ForceUniform then "UNIFORM_SAMPLING"
      else sampling_define in
    Continues cerr sampling_define (num_index_digits_base4 cfg)
              (index_shift cfg).

End MakeRenderState.

(** C8: in the sampling-scheme selection of lines 216-236, which setup
    reaches when the adaptive-sampling guard of lines 200-212 has not ended
    it: when twice the number of base-4 index digits exceeds 32,
    [makeRenderState] writes the warning, selects uniform sampling and goes
    on; it does not call [fatalExit]. *)
Theorem index_overflow_falls_back_to_uniform
    aspt AdaptiveSample ForceUniform clz0 cfg :
  spp_too_low aspt AdaptiveSample cfg = false ->
  32 < u32 (num_index_digits_base4 clz0 cfg * 2) ->
  makeRenderState aspt AdaptiveSample ForceUniform clz0 cfg =
  Continues zsobol_warning "UNIFORM_SAMPLING"
            (num_index_digits_base4 clz0 cfg) (index_shift clz0 cfg).
Proof.
  intros Hguard Hbits. unfold makeRenderState, index_fits.
  rewrite Hguard.
  destruct (Z.leb_spec (u32 (num_index_digits_base4 clz0 cfg * 2)) 32); [lia |].
  now destruct (has_flag (flags cfg) ForceUniform).
Qed.

(** A 131073 x 1 image at one sample per pixel needs 18 base-4 digits. *)
Lemma index_overflow_falls_back_to_uniform_witness :
  let cfg := {| imgWidth := 131073; imgHeight := 1; spp := 1; flags := 0 |} in
  makeRenderState 4 1 2 32 cfg =
  Continues zsobol_warning "UNIFORM_SAMPLING"
            (num_index_digits_base4 32 cfg) (index_shift 32 cfg).
Proof.
  apply (index_overflow_falls_back_to_uniform 4 1 2 32).
  - reflexivity.
  - vm_compute. reflexivity.
Defined.

(** The guard of lines 200-212 is a separate check that comes first: with
    adaptive sampling requested and fewer samples per pixel than
    [adaptive_samples_per_thread], setup ends in [fatalExit] there, and the
    sampling-scheme selection is not reached.  Shown for a guard of 4
    samples (2 requested) and for the least guard, 1 (0 requested). *)
Example low_spp_exits_at_the_guard :
  (let cfg := {| imgWidth := 131073; imgHeight := 1; spp := 2; flags := 1 |} in
   32 < u32 (num_index_digits_base4 32 cfg * 2) /\
   makeRenderState 4 1 2 32 cfg = FatalExit (low_spp_message 4)) /\
  (let cfg := {| imgWidth := 131073; imgHeight := 1; spp := 0; flags := 1 |} in
   32 < u32 (num_index_digits_base4 32 cfg * 2) /\
   makeRenderState 1 1 2 32 cfg = FatalExit (low_spp_message 1)).
Proof. vm_compute. repeat split. Qed.

(** When the index fits and uniform sampling is not forced, ZSobol sampling
    is selected and nothing is written to [cerr]. *)
Example zsobol_selected :
  makeRenderState 4 1 2 32
    {| imgWidth := 64; imgHeight := 64; spp := 16; flags := 0 |} =
  Continues [] "ZSOBOL_SAMPLING" 8 4.
Proof. reflexivity. Qed.

End RenderSetup.

(** ** The per-batch render call ([VulkanBackend::render], render.cpp:1580-2071)
       and the descriptor sets it binds ([makePerBatchState], render.cpp:767-1038) *)

Module Render.

(** *** Descriptor sets *)

(** What a binding of a ray-tracing descriptor set refers to. *)
Inductive Resource :=
| ParamRegion (offset range : Z)   (* a range of the device parameter buffer *)
| PrecompTexture (which : Z)       (* one of the five BSDF lookup tables *)
| Output (idx : Z)                 (* fb.outputs[idx].buffer *)
| Reservoir (idx : Z)              (* fb.reservoirs[idx].buffer *)
| TileInput.                       (* tile_input_buffer->buffer *)

(** A descriptor set: binding number to resource. *)
Abbreviation DescriptorSet := (gmap Z Resource).

(** One [desc_updates.buffer(rt_sets[set], info, binding, ...)] (or
    [textures]). *)
Record DescriptorWrite := {
  dstSet : nat;
  dstBinding : Z;
  resource : Resource
}.

Definition write (set : nat) (binding : Z) (r : Resource) : DescriptorWrite :=
  {| dstSet := set; dstBinding := binding; resource := r |}.

(** [desc_updates.update(dev)] applies the writes in the order they were
    recorded. *)
Definition apply_write (sets : list DescriptorSet) (w : DescriptorWrite)
    : list DescriptorSet :=
  alter (fun ds => <[dstBinding w := resource w]> ds) (dstSet w) sets.

Definition update (sets : list DescriptorSet) (ws : list DescriptorWrite)
    : list DescriptorSet :=
  foldl apply_write sets ws.

(** The indices [makeFramebuffer] assigns (render.cpp:653-674). *)
Record FramebufferState := {
  outputIdx : Z;
  hdrIdx : Z;
  normalIdx : Z;
  albedoIdx : Z;
  illuminanceIdx : Z;
  adaptiveIdx : Z
}.

Definition makeFramebuffer (auxiliaryOutputs tonemap adaptiveSampling : bool)
    : FramebufferState :=
  let num_buffers := 2 in
  let '(num_buffers, normal_idx, albedo_idx) :=
    if auxiliaryOutputs then (num_buffers + 2, 2, 3) else (num_buffers, -1, -1) in
  let '(num_buffers, illuminance_idx) :=
    if tonemap then (num_buffers + 1, num_buffers) else (num_buffers, -1) in
  let '(num_buffers, adaptive_idx) :=
    if adaptiveSampling then (num_buffers + 1, num_buffers) else (num_buffers, -1) in
  {| outputIdx := 0; hdrIdx := 1; normalIdx := normal_idx;
     albedoIdx := albedo_idx; illuminanceIdx := illuminance_idx;
     adaptiveIdx := adaptive_idx |}.

(** The writes [makePerBatchState] records for the two sets of [rt_sets], in
    source order (the exposure and tonemap sets are left out). *)
Definition rt_set_writes (param_cfg : ParamBuffer.ParamBufferConfig)
    (fb : FramebufferState) (auxiliary_outputs tonemap adaptive_sampling : bool)
    : list DescriptorWrite :=
  let transform_info :=
    ParamRegion 0 (ParamBuffer.totalTransformBytes param_cfg) in
  let mat_info :=
    ParamRegion (ParamBuffer.materialIndicesOffset param_cfg)
                (ParamBuffer.totalMaterialIndexBytes param_cfg) in
  let light_info :=
    ParamRegion (ParamBuffer.lightsOffset param_cfg)
                (ParamBuffer.totalLightParamBytes param_cfg) in
  let env_info :=
    ParamRegion (ParamBuffer.envOffset param_cfg)
                (ParamBuffer.totalEnvParamBytes param_cfg) in
  let hdr_info := Output (hdrIdx fb) in
  let per_set (i : nat) :=
    [ write i 0 transform_info; write i 1 mat_info; write i 2 light_info;
      write i 3 env_info;
      write i 6 (PrecompTexture 0); write i 7 (PrecompTexture 1);
      write i 8 (PrecompTexture 2); write i 9 (PrecompTexture 3);
      write i 10 (PrecompTexture 4);
      write i 13 hdr_info ] in
  let cur_reservoir_info := Reservoir 0 in
  let prev_reservoir_info := Reservoir 1 in
  per_set 0%nat ++ per_set 1%nat ++
  [ write 0 11 cur_reservoir_info; write 1 12 cur_reservoir_info;
    write 0 12 prev_reservoir_info; write 1 11 prev_reservoir_info ] ++
  (if auxiliary_outputs then
     let normal_info := Output (normalIdx fb) in
     let albedo_info := Output (albedoIdx fb) in
     [ write 0 14 normal_info; write 0 15 albedo_info;
       write 1 14 normal_info; write 1 15 albedo_info ]
   else []) ++
  (if tonemap then
     let illuminance_info := Output (illuminanceIdx fb) in
     [ write 0 16 illuminance_info; write 1 16 illuminance_info ]
   else []) ++
  (if adaptive_sampling then
     let adaptive_info := Output (adaptiveIdx fb) in
     [ write 0 17 TileInput; write 0 18 adaptive_info;
       write 1 17 TileInput; write 1 18 adaptive_info ]
   else []).

(** [PerBatchState::rtSets] as [makePerBatchState] leaves it: two fresh sets
    from the pool, then the recorded writes. *)
Definition makePerBatchState_rtSets (param_cfg : ParamBuffer.ParamBufferConfig)
    (fb : FramebufferState) (auxiliary_outputs tonemap adaptive_sampling : bool)
    : list DescriptorSet :=
  update [∅; ∅]
    (rt_set_writes param_cfg fb auxiliary_outputs tonemap adaptive_sampling).

(** The bindings that receive [cur_reservoir_info] and [prev_reservoir_info]
    in [rt_sets[0]], the set bound by the first render call. *)
Definition cur_reservoir_binding : Z := 11.
Definition prev_reservoir_binding : Z := 12.

(** The reservoir a set exposes under a binding. *)
Definition bound_at (sets : list DescriptorSet) (set : Z) (binding : Z)
    : option Resource :=
  sets !! Z.to_nat set ≫= fun ds => ds !! binding.

(** *** Environments and batches *)

(** An [Environment] of the batch together with its [VulkanEnvironment]
    backend.  [numBuilds] counts the calls of [env_backend.tlas.build]. *)
Record Environment := {
  dirty_ : bool;
  camera : Z;      (* the camera set by the caller, as an opaque value *)
  prevCam : Z;     (* VulkanEnvironment::prevCam *)
  numBuilds : nat  (* calls of TLAS::build on VulkanEnvironment::tlas *)
}.

(** Modelled from the spec: [Environment::isDirty] and
    [Environment::clearDirty] (environment.hpp is not part of the sources)
    read and clear the dirty flag the caller sets when it mutates the
    instances. *)
Definition isDirty (env : Environment) : bool := dirty_ env.

Definition clearDirty (env : Environment) : Environment :=
  {| dirty_ := false; camera := camera env; prevCam := prevCam env;
     numBuilds := numBuilds env |}.

(** [env_backend.tlas.build(dev, alloc, ..., render_cmd)] *)
Definition tlas_build (env : Environment) : Environment :=
  {| dirty_ := dirty_ env; camera := camera env; prevCam := prevCam env;
     numBuilds := S (numBuilds env) |}.

(** [env_backend.prevCam = env.getCamera()] *)
Definition save_camera (env : Environment) : Environment :=
  {| dirty_ := dirty_ env; camera := camera env; prevCam := camera env;
     numBuilds := numBuilds env |}.

(** [InputTile], one work item of the adaptive kernel. *)
Record InputTile := {
  batchIdx : Z;
  xOffset : Z;
  yOffset : Z;
  sampleOffset : Z
}.

Inductive Pipeline := RtPipeline | ExposurePipeline | TonemapPipeline.

Inductive RenderMode := PathTracer | Biased.

Definition RenderMode_eqb (a b : RenderMode) : bool :=
  match a, b with
  | PathTracer, PathTracer | Biased, Biased => true
  | _, _ => false
  end.

Inductive SetRef :=
| RtSet (idx : Z)     (* batch_state.rtSets[idx] *)
| EnvMapSet           (* cur_env_maps_->descSet.hdl *)
| ProbeSet            (* probe_dset_ *)
| SharedSceneSet      (* shared_scene_state_.descSet *)
| ExposureSet
| TonemapSet.

(** Calls made on the device and the queue, in order. *)
Inductive Cmd :=
| ResetCommandPool
| BeginCommandBuffer
| BindPipeline (p : Pipeline)
| PushConstants (frame_counter : Z)
| BindDescriptorSets (firstSet : Z) (set : SetRef)
| BuildTLAS (batch_idx : nat)
| PipelineBarrier
| CopyParams                       (* staging parameters to the device *)
| FillBuffer (output : Z)          (* zero fb.outputs[output] *)
| CopyToReadback (output : Z)      (* fb.outputs[output] to its host buffer *)
| Dispatch (x y z : Z)
| EndCommandBuffer
| AcquireNext
| QueueSubmit (queue : Z)
| Present (queue : Z)
| WaitForFence
| ResetFence
| Denoise.

(** The fields of [VulkanBackend::Config], [RenderConfig] and
    [FramebufferConfig] that [render] reads. *)
Record Config := {
  batchSize : Z;           (* uint32_t *)
  spp : Z;                 (* uint32_t *)
  auxiliaryOutputs : bool;
  tonemap : bool;
  adaptiveSampling : bool;
  denoise : bool;
  mode : RenderMode;       (* rcfg_.mode *)
  numTilesWide : Z;        (* uint32_t *)
  numTilesTall : Z;        (* uint32_t *)
  launch_size_ : Z * Z * Z;
  present_ : bool          (* present_.has_value() *)
}.

(** The backend, the batch, and the locals of [render] that its lambdas
    capture by reference. *)
Record State := {
  (* VulkanBackend *)
  frame_counter_ : Z;
  cur_queue_ : Z;
  (* VulkanBatch *)
  curBuffer : Z;
  envs : list Environment;
  tileInputPtr : gmap Z InputTile;   (* the host-mapped tile input table *)
  (* locals of render *)
  cur_tile_idx : Z;
  (* everything recorded and submitted so far *)
  trace : list Cmd;
  numSubmits : nat
}.

Definition emit (cs : list Cmd) (s : State) : State :=
  {| frame_counter_ := frame_counter_ s; cur_queue_ := cur_queue_ s;
     curBuffer := curBuffer s; envs := envs s;
     tileInputPtr := tileInputPtr s; cur_tile_idx := cur_tile_idx s;
     trace := trace s ++ cs; numSubmits := numSubmits s |}.

Definition set_envs (es : list Environment) (s : State) : State :=
  {| frame_counter_ := frame_counter_ s; cur_queue_ := cur_queue_ s;
     curBuffer := curBuffer s; envs := es;
     tileInputPtr := tileInputPtr s; cur_tile_idx := cur_tile_idx s;
     trace := trace s; numSubmits := numSubmits s |}.

Definition set_frame_counter (fc : Z) (s : State) : State :=
  {| frame_counter_ := fc; cur_queue_ := cur_queue_ s;
     curBuffer := curBuffer s; envs := envs s;
     tileInputPtr := tileInputPtr s; cur_tile_idx := cur_tile_idx s;
     trace := trace s; numSubmits := numSubmits s |}.

Definition set_cur_tile_idx (i : Z) (s : State) : State :=
  {| frame_counter_ := frame_counter_ s; cur_queue_ := cur_queue_ s;
     curBuffer := curBuffer s; envs := envs s;
     tileInputPtr := tileInputPtr s; cur_tile_idx := i;
     trace := trace s; numSubmits := numSubmits s |}.

Definition set_tileInputPtr (t : gmap Z InputTile) (s : State) : State :=
  {| frame_counter_ := frame_counter_ s; cur_queue_ := cur_queue_ s;
     curBuffer := curBuffer s; envs := envs s;
     tileInputPtr := t; cur_tile_idx := cur_tile_idx s;
     trace := trace s; numSubmits := numSubmits s |}.

Definition count_submit (s : State) : State :=
  {| frame_counter_ := frame_counter_ s; cur_queue_ := cur_queue_ s;
     curBuffer := curBuffer s; envs := envs s;
     tileInputPtr := tileInputPtr s; cur_tile_idx := cur_tile_idx s;
     trace := trace s; numSubmits := S (numSubmits s) |}.

Definition flip_buffers (s : State) : State :=
  {| frame_counter_ := frame_counter_ s;
     cur_queue_ := Z.land (cur_queue_ s + 1) 1;
     curBuffer := Z.land (curBuffer s + 1) 1; envs := envs s;
     tileInputPtr := tileInputPtr s; cur_tile_idx := cur_tile_idx s;
     trace := trace s; numSubmits := numSubmits s |}.

(** The values [i] of [for (int i = 0; i < (int)n; i++)]. *)
Definition int_range (n : Z) : list nat := seq 0 (Z.to_nat (to_int n)).

(** [VulkanBackend::makeRenderBatch] on a backend whose members are
    [frame_counter] and [cur_queue]: the new batch starts on buffer 0 (the
    last member of the [VulkanBatch] initializer). *)
Definition makeRenderBatch (frame_counter cur_queue : Z)
    (es : list Environment) : State :=
  {| frame_counter_ := frame_counter; cur_queue_ := cur_queue; curBuffer := 0;
     envs := es; tileInputPtr := ∅; cur_tile_idx := 0; trace := [];
     numSubmits := 0 |}.

(** *** The render call *)

(** [AdaptiveTile], the statistics the kernel keeps per tile, over the
    single-precision type [float]. *)
Record AdaptiveTile (float : Type) := {
  tileMean : float;
  tileVarianceM2 : float;
  numSamples : Z     (* uint32_t *)
}.
Arguments tileMean {float}.
Arguments tileVarianceM2 {float}.
Arguments numSamples {float}.

(** What the host reads back after a submission: the adaptive statistics and
    the mean illuminance of every tile, by linear tile index. *)
Record Readback (float : Type) := {
  adaptiveReadbackPtr : Z -> AdaptiveTile float;
  exposureReadback : Z -> float
}.
Arguments adaptiveReadbackPtr {float}.
Arguments exposureReadback {float}.

Definition max_adaptive_iters : Z := 10000.

(** Single-precision arithmetic, as far as [render] uses it. *)
Class FloatOps (float : Type) := {
  float_zero : float;                   (* 0.f *)
  norm_variance_threshold : float;      (* 5e-4 *)
  float_of_uint : Z -> float;           (* conversion from uint32_t *)
  float_div : float -> float -> float;  (* / *)
  float_eqb : float -> float -> bool;   (* == *)
  float_gtb : float -> float -> bool    (* > *)
}.

(** [return; rest]: the statements after a [return] are not executed. *)
Definition return_before {A : Type} (result : A) (rest : unit -> A) : A :=
  result.

Section RenderCall.

Context {float : Type} {float_ops : FloatOps float}.

(** [VulkanConfig::adaptive_samples_per_thread], a positive constant. *)
Variable adaptive_samples_per_thread : Z.

(** The device: what the readback buffers hold once the [n]-th submission of
    the run has completed. *)
Variable gpu : nat -> Readback float.

Variable cfg_ : Config.

(** The lambda [startRenderSetup]. *)
Definition startRenderSetup (s : State) : State :=
  emit ([ ResetCommandPool; BeginCommandBuffer; BindPipeline RtPipeline;
          PushConstants (frame_counter_ s);
          BindDescriptorSets 0 (RtSet (curBuffer s));
          BindDescriptorSets 2 EnvMapSet ] ++
        (if RenderMode_eqb (mode cfg_) Biased
         then [BindDescriptorSets 3 ProbeSet] else []) ++
        [ BindDescriptorSets 1 SharedSceneSet ]) s.

(** The body of the TLAS build loop for one [batch_idx]. *)
Definition build_if_dirty (s : State) (batch_idx : nat) : State :=
  match envs s !! batch_idx with
  | Some env =>
    if isDirty env then
      set_envs (<[batch_idx := clearDirty (tlas_build env)]> (envs s))
               (emit [BuildTLAS batch_idx] s)
    else s
  | None => s   (* past the end of the batch: not a defined execution *)
  end.

(** [// TLAS build] (render.cpp:1640-1655; the same loop opens
    [bakeProbe], render.cpp:2114-2129). *)
Definition tlas_build_loop (s : State) : State :=
  foldl build_if_dirty s (int_range (batchSize cfg_)).

(** [// Write environment data into linear buffers]: of the packing only
    the update of [prevCam] changes the state kept here. *)
Definition pack_env (s : State) (batch_idx : nat) : State :=
  set_envs (alter save_camera batch_idx (envs s)) s.

Definition pack_envs (s : State) : State :=
  foldl pack_env s (int_range (batchSize cfg_)).

(** The lambda [submitCmd]. *)
Definition submitCmd (s : State) : State :=
  count_submit
    (emit ([EndCommandBuffer] ++
           (if present_ cfg_ then [AcquireNext] else []) ++
           [QueueSubmit (cur_queue_ s)] ++
           (if present_ cfg_ then [Present (cur_queue_ s)] else [])) s).

(** [waitForFenceInfinitely(dev, batch_state.fence); resetFence(...)] *)
Definition wait_and_reset (s : State) : State :=
  emit [WaitForFence; ResetFence] s.

(** The lambda [writeTile]. *)
Definition writeTile (batch_idx tile_x tile_y sample_offset : Z) (s : State)
    : State :=
  let cur_tile := {| batchIdx := batch_idx; xOffset := tile_x;
                     yOffset := tile_y; sampleOffset := sample_offset |} in
  set_cur_tile_idx (cur_tile_idx s + 1)
    (set_tileInputPtr (<[cur_tile_idx s := cur_tile]> (tileInputPtr s)) s).

(** The values of [sample_idx] in
    [for (sample_idx = 0; sample_idx < spp; sample_idx += adaptive_samples_per_thread)]. *)
Definition sample_offsets : list Z :=
  map (fun k => Z.of_nat k * adaptive_samples_per_thread)
      (seq 0 (Z.to_nat ((to_int (spp cfg_) + adaptive_samples_per_thread - 1)
                        / adaptive_samples_per_thread))).

Definition write_tile_samples (batch_idx tile_x tile_y : Z) (s : State) : State :=
  foldl (fun s sample_idx => writeTile batch_idx tile_x tile_y sample_idx s)
        s sample_offsets.

(** The [(batch_idx, tile_x, tile_y)] of the three nested tile loops, in
    the order the loops visit them. *)
Definition tiles : list (Z * Z * Z) :=
  batch_idx ← int_range (batchSize cfg_);
  tile_y ← int_range (numTilesTall cfg_);
  tile_x ← int_range (numTilesWide cfg_);
  [(Z.of_nat batch_idx, Z.of_nat tile_x, Z.of_nat tile_y)].

Definition for_each_tile (body : Z -> Z -> Z -> State -> State) (s : State)
    : State :=
  foldl (fun s '(batch_idx, tile_x, tile_y) => body batch_idx tile_x tile_y s)
        s tiles.

(** The lambda [adaptiveReadback]. *)
Definition adaptiveReadback (fb : FramebufferState) (s : State) : State :=
  emit [ PipelineBarrier; CopyToReadback (adaptiveIdx fb);
         CopyToReadback (illuminanceIdx fb) ] s.

(** The lambda [processAdaptiveTile] (render.cpp:1910-1934).  The
    statistics of the tile are read and the two quotients computed; then the
    lambda returns, in front of the test that would write the work items of
    the tile again. *)
Definition processAdaptiveTile (readback : Readback float)
    (batch_idx tile_x tile_y : Z) (s : State) : State :=
  let linear_idx :=
    u32 (u32 (u32 (batch_idx * numTilesTall cfg_) * numTilesWide cfg_) +
         u32 (tile_y * numTilesWide cfg_) + tile_x) in
  let tile := adaptiveReadbackPtr readback linear_idx in
  let tile_illuminance := exposureReadback readback linear_idx in
  let variance :=
    float_div (tileVarianceM2 tile) (float_of_uint (numSamples tile)) in
  let norm_variance :=
    if float_eqb tile_illuminance float_zero then float_zero
    else float_div (tileMean tile) tile_illuminance in
  return_before s (fun _ =>
    if (float_eqb norm_variance float_zero &&
        (numSamples tile <? u32 (spp cfg_ * 10))) ||
       float_gtb norm_variance norm_variance_threshold
    then write_tile_samples batch_idx tile_x tile_y s
    else s).

(** How the convergence loop was left. *)
Inductive LoopExit :=
| NoTilesLeft   (* num_tiles == 0: break *)
| CapReached.   (* adaptive_iter reached max_adaptive_iters *)

Record LoopResult := {
  final : State;
  iterations : nat;   (* loop bodies entered *)
  exit : LoopExit
}.

(** The convergence loop (render.cpp:1936-1978) with [remaining] values of
    [adaptive_iter] still to take, for any per-tile step [process]. *)
Fixpoint adaptive_loop
    (process : Readback float -> Z -> Z -> Z -> State -> State)
    (fb : FramebufferState) (remaining : nat) (s : State) : LoopResult :=
  match remaining with
  | O => {| final := s; iterations := 0; exit := CapReached |}
  | S remaining' =>
    let s := set_cur_tile_idx 0 s in
    let s := set_frame_counter (u32 (frame_counter_ s + batchSize cfg_)) s in
    let s := for_each_tile (process (gpu (numSubmits s))) s in
    let num_tiles := cur_tile_idx s in
    if num_tiles =? 0 then
      {| final := s; iterations := 1; exit := NoTilesLeft |}
    else
      let s := startRenderSetup s in
      let s := emit [PipelineBarrier; Dispatch num_tiles 1 1] s in
      let s := adaptiveReadback fb s in
      let s := submitCmd s in
      let s := wait_and_reset s in
      let r := adaptive_loop process fb remaining' s in
      {| final := final r; iterations := S (iterations r); exit := exit r |}
  end.

(** The branch [if (cfg_.adaptiveSampling)] up to the convergence loop. *)
Definition adaptive_first_pass (fb : FramebufferState) (s : State) : State :=
  let s := emit ([FillBuffer (adaptiveIdx fb); FillBuffer (hdrIdx fb)] ++
                 (if tonemap cfg_ then [FillBuffer (illuminanceIdx fb)] else []) ++
                 (if auxiliaryOutputs cfg_
                  then [FillBuffer (normalIdx fb); FillBuffer (albedoIdx fb)]
                  else []) ++
                 [PipelineBarrier]) s in
  let s := set_cur_tile_idx 0 s in
  let s := for_each_tile write_tile_samples s in
  let num_tiles := cur_tile_idx s in
  let s := emit [Dispatch num_tiles 1 1] s in
  let s := adaptiveReadback fb s in
  let s := submitCmd s in
  wait_and_reset s.

(** The convergence loop as [render] runs it. *)
Definition convergence_loop (fb : FramebufferState) (s : State) : LoopResult :=
  adaptive_loop processAdaptiveTile fb (Z.to_nat max_adaptive_iters) s.

(** The steps of [render] that follow the sampling pass: denoising,
    tonemapping, the final submission and the flip of the buffer and queue
    indices (render.cpp:2010-2070). *)
Definition after_sampling (s : State) : State :=
  let s :=
    if denoise cfg_ && RenderMode_eqb (mode cfg_) PathTracer then
      let s := submitCmd s in
      let s := wait_and_reset s in
      let s := emit [Denoise] s in
      startRenderSetup s
    else s in
  let s :=
    if tonemap cfg_ then
      let '(x, y, z) := launch_size_ cfg_ in
      emit [ PipelineBarrier; BindPipeline ExposurePipeline;
             BindDescriptorSets 0 ExposureSet; Dispatch 1 1 (batchSize cfg_);
             PipelineBarrier; BindPipeline TonemapPipeline;
             BindDescriptorSets 0 TonemapSet; Dispatch x y z ] s
    else s in
  let s := submitCmd s in
  flip_buffers s.

Definition render (s : State) : State :=
  let fb := makeFramebuffer (auxiliaryOutputs cfg_) (tonemap cfg_)
                            (adaptiveSampling cfg_) in
  let s := startRenderSetup s in
  let s := tlas_build_loop s in
  let s := emit [PipelineBarrier] s in
  let s := pack_envs s in
  let s := emit [CopyParams] s in
  let s :=
    if adaptiveSampling cfg_ then
      let s := adaptive_first_pass fb s in
      let s := final (convergence_loop fb s) in
      startRenderSetup s
    else
      let '(x, y, z) := launch_size_ cfg_ in
      let s := emit [PipelineBarrier; Dispatch x y z] s in
      set_frame_counter (u32 (frame_counter_ s + batchSize cfg_)) s in
  after_sampling s.

End RenderCall.

(** *** Frame properties of the steps of [render] *)

(** A command binds, as a ray-tracing set, only [rtSets[c]]. *)
Definition binds_only (c : Z) (cmd : Cmd) : Prop :=
  forall n k, cmd = BindDescriptorSets n (RtSet k) -> k = c.

(** [s'] comes from [s] by recording commands that bind only
    [rtSets[curBuffer s]], without touching [curBuffer]. *)
Definition extends (s s' : State) : Prop :=
  curBuffer s' = curBuffer s /\
  exists cs, trace s' = trace s ++ cs /\ Forall (binds_only (curBuffer s)) cs.

Lemma extends_refl s : extends s s.
Proof. split; [reflexivity |]. exists []. now rewrite app_nil_r. Qed.

Lemma extends_trans s1 s2 s3 : extends s1 s2 -> extends s2 s3 -> extends s1 s3.
Proof.
  intros [Hc1 (cs1 & Ht1 & Hf1)] [Hc2 (cs2 & Ht2 & Hf2)].
  split; [congruence |].
  exists (cs1 ++ cs2). split.
  - rewrite Ht2, Ht1. now rewrite app_assoc.
  - apply Forall_app. split; [assumption |]. now rewrite <- Hc1.
Qed.

Lemma extends_foldl {A} (f : State -> A -> State) (l : list A) s :
  (forall s a, extends s (f s a)) -> extends s (foldl f s l).
Proof.
  intros Hf. revert s. induction l as [| a l IH]; intros s; cbn.
  - apply extends_refl.
  - eapply extends_trans; [apply Hf | apply IH].
Qed.

Lemma extends_emit cs s :
  Forall (binds_only (curBuffer s)) cs -> extends s (emit cs s).
Proof. intros H. split; [reflexivity |]. now exists cs. Qed.

(** Commands other than a bind of a ray-tracing set. *)
Definition not_rt_bind (cmd : Cmd) : bool :=
  match cmd with
  | BindDescriptorSets _ (RtSet _) => false
  | _ => true
  end.

Lemma not_rt_bind_binds_only c cs :
  forallb not_rt_bind cs = true -> Forall (binds_only c) cs.
Proof.
  intros H. apply Forall_forall. intros cmd Hin n k ->.
  rewrite forallb_forall in H. apply list_elem_of_In in Hin.
  specialize (H _ Hin). discriminate H.
Qed.

Lemma extends_emit_plain cs s :
  forallb not_rt_bind cs = true -> extends s (emit cs s).
Proof. intros H. apply extends_emit. now apply not_rt_bind_binds_only. Qed.

Section Frames.

Context {float : Type} {float_ops : FloatOps float}.
Variable adaptive_samples_per_thread : Z.
Variable gpu : nat -> Readback float.
Variable cfg_ : Config.

Local Abbreviation processAdaptiveTile :=
  (processAdaptiveTile adaptive_samples_per_thread cfg_).
Local Abbreviation convergence_loop :=
  (convergence_loop adaptive_samples_per_thread gpu cfg_).
Local Abbreviation render := (render adaptive_samples_per_thread gpu cfg_).

Lemma extends_startRenderSetup s : extends s (startRenderSetup cfg_ s).
Proof.
  unfold startRenderSetup. apply extends_emit.
  repeat (apply Forall_cons; split; [intros n k Hk; congruence |]).
  apply Forall_app. split.
  - destruct (RenderMode_eqb _ _); repeat constructor; intros n k Hk; congruence.
  - repeat constructor. intros n k Hk; congruence.
Qed.

Lemma extends_submitCmd s : extends s (submitCmd cfg_ s).
Proof.
  unfold submitCmd.
  change (extends s (count_submit (emit ?cs s))) with (extends s (emit cs s)).
  apply extends_emit_plain. now destruct (present_ cfg_).
Qed.

Lemma extends_build_if_dirty s i : extends s (build_if_dirty s i).
Proof.
  unfold build_if_dirty. destruct (envs s !! i) as [env |]; [| apply extends_refl].
  destruct (isDirty env); [| apply extends_refl].
  change (extends s (set_envs ?es (emit ?cs s))) with (extends s (emit cs s)).
  now apply extends_emit_plain.
Qed.

Lemma extends_tlas_build_loop s : extends s (tlas_build_loop cfg_ s).
Proof. apply extends_foldl. intros. apply extends_build_if_dirty. Qed.

Lemma extends_pack_envs s : extends s (pack_envs cfg_ s).
Proof.
  apply extends_foldl. intros s0 a. unfold pack_env.
  change (extends s0 (set_envs ?es s0)) with (extends s0 s0).
  apply extends_refl.
Qed.

Lemma extends_for_each_tile body s :
  (forall b x y s, extends s (body b x y s)) ->
  extends s (for_each_tile cfg_ body s).
Proof.
  intros Hb. unfold for_each_tile. apply extends_foldl.
  intros s0 [[b x] y]. apply Hb.
Qed.

Lemma extends_writeTile b x y o s : extends s (writeTile b x y o s).
Proof. split; [reflexivity |]. exists []. cbn. now rewrite app_nil_r. Qed.

Lemma extends_write_tile_samples b x y s :
  extends s (write_tile_samples adaptive_samples_per_thread cfg_ b x y s).
Proof. apply extends_foldl. intros. apply extends_writeTile. Qed.

Lemma extends_set_cur_tile_idx i s : extends s (set_cur_tile_idx i s).
Proof. split; [reflexivity |]. exists []. cbn. now rewrite app_nil_r. Qed.

Lemma extends_set_frame_counter fc s : extends s (set_frame_counter fc s).
Proof. split; [reflexivity |]. exists []. cbn. now rewrite app_nil_r. Qed.

Lemma extends_wait_and_reset s : extends s (wait_and_reset s).
Proof. now apply extends_emit_plain. Qed.

Lemma extends_adaptiveReadback fb s : extends s (adaptiveReadback fb s).
Proof. now apply extends_emit_plain. Qed.

(** Peel the outermost step off the state on the right. *)
Ltac peel :=
  match goal with
  | |- extends ?s ?t => constr_eq s t; apply extends_refl
  | |- extends ?s (wait_and_reset ?x) =>
      apply (extends_trans s x); [| apply extends_wait_and_reset]
  | |- extends ?s (submitCmd _ ?x) =>
      apply (extends_trans s x); [| apply extends_submitCmd]
  | |- extends ?s (adaptiveReadback _ ?x) =>
      apply (extends_trans s x); [| apply extends_adaptiveReadback]
  | |- extends ?s (startRenderSetup _ ?x) =>
      apply (extends_trans s x); [| apply extends_startRenderSetup]
  | |- extends ?s (set_cur_tile_idx _ ?x) =>
      apply (extends_trans s x); [| apply extends_set_cur_tile_idx]
  | |- extends ?s (set_frame_counter _ ?x) =>
      apply (extends_trans s x); [| apply extends_set_frame_counter]
  | |- extends ?s (tlas_build_loop _ ?x) =>
      apply (extends_trans s x); [| apply extends_tlas_build_loop]
  | |- extends ?s (pack_envs _ ?x) =>
      apply (extends_trans s x); [| apply extends_pack_envs]
  | |- extends ?s (emit _ ?x) =>
      apply (extends_trans s x); [| apply extends_emit_plain; reflexivity]
  end.

Lemma extends_adaptive_loop process fb n s :
  (forall rb b x y s, extends s (process rb b x y s)) ->
  extends s (final (adaptive_loop gpu cfg_ process fb n s)).
Proof.
  intros Hp. revert s. induction n as [| n IH]; intros s; cbn [adaptive_loop].
  - apply extends_refl.
  - set (s1 := set_frame_counter _ (set_cur_tile_idx 0 s)).
    assert (H1 : extends s s1) by (subst s1; repeat peel).
    set (s2 := for_each_tile cfg_ _ s1).
    assert (H2 : extends s1 s2) by (apply extends_for_each_tile; intros; apply Hp).
    assert (H12 : extends s s2) by exact (extends_trans _ _ _ H1 H2).
    destruct (cur_tile_idx s2 =? 0); cbn [final].
    + exact H12.
    + eapply extends_trans; [| apply IH].
      apply (extends_trans s s2); [exact H12 |].
      repeat peel.
Qed.

Lemma extends_adaptive_first_pass fb s :
  extends s (adaptive_first_pass adaptive_samples_per_thread cfg_ fb s).
Proof.
  unfold adaptive_first_pass.
  do 4 peel.
  eapply extends_trans;
    [| apply extends_for_each_tile; intros; apply extends_write_tile_samples].
  peel.
  apply extends_emit_plain.
  now destruct (tonemap cfg_), (auxiliaryOutputs cfg_).
Qed.

Lemma extends_processAdaptiveTile rb b x y s :
  extends s (processAdaptiveTile rb b x y s).
Proof. apply extends_refl. Qed.

Ltac peel_render :=
  first
    [ peel
    | lazymatch goal with
      | |- extends ?s (final (Render.convergence_loop _ _ _ ?fb ?x)) =>
          apply (extends_trans s x);
          [| unfold Render.convergence_loop;
             apply extends_adaptive_loop; intros; apply extends_refl]
      | |- extends ?s (adaptive_first_pass _ _ ?fb ?x) =>
          apply (extends_trans s x); [| apply extends_adaptive_first_pass]
      end ].

(** [render] is: the first [startRenderSetup], then steps that record
    commands binding no other ray-tracing set, then the flip of the buffer
    and queue indices. *)
Lemma render_steps s :
  exists s', render s = flip_buffers s' /\ extends (startRenderSetup cfg_ s) s'.
Proof.
  unfold Render.render, after_sampling. eexists. split; [reflexivity |].
  destruct (launch_size_ cfg_) as [[lx ly] lz].
  destruct (adaptiveSampling cfg_), (denoise cfg_ && RenderMode_eqb (mode cfg_) PathTracer),
    (tonemap cfg_); repeat peel_render.
Qed.

(** **** The environments *)

Lemma envs_foldl {A} (f : State -> A -> State) (l : list A) s :
  (forall s a, envs (f s a) = envs s) -> envs (foldl f s l) = envs s.
Proof.
  intros Hf. revert s. induction l as [| a l IH]; intros s; cbn.
  - reflexivity.
  - now rewrite IH, Hf.
Qed.

Lemma envs_for_each_tile body s :
  (forall b x y s, envs (body b x y s) = envs s) ->
  envs (for_each_tile cfg_ body s) = envs s.
Proof.
  intros Hb. unfold for_each_tile. apply envs_foldl.
  intros s0 [[b x] y]. apply Hb.
Qed.

Lemma envs_write_tile_samples b x y s :
  envs (write_tile_samples adaptive_samples_per_thread cfg_ b x y s) = envs s.
Proof. apply envs_foldl. reflexivity. Qed.

Lemma envs_adaptive_first_pass fb s :
  envs (adaptive_first_pass adaptive_samples_per_thread cfg_ fb s) = envs s.
Proof.
  unfold adaptive_first_pass. cbn [envs wait_and_reset submitCmd count_submit
    adaptiveReadback emit].
  rewrite envs_for_each_tile; [reflexivity |].
  intros. apply envs_write_tile_samples.
Qed.

Lemma envs_adaptive_loop process fb n s :
  (forall rb b x y s, envs (process rb b x y s) = envs s) ->
  envs (final (adaptive_loop gpu cfg_ process fb n s)) = envs s.
Proof.
  intros Hp. revert s. induction n as [| n IH]; intros s; cbn [adaptive_loop].
  - reflexivity.
  - set (s1 := set_frame_counter _ (set_cur_tile_idx 0 s)).
    set (s2 := for_each_tile cfg_ _ s1).
    assert (H2 : envs s2 = envs s).
    { subst s2. rewrite envs_for_each_tile; [reflexivity |]. intros; apply Hp. }
    destruct (cur_tile_idx s2 =? 0); cbn [final].
    + exact H2.
    + rewrite IH. exact H2.
Qed.

Lemma envs_after_sampling x : envs (after_sampling cfg_ x) = envs x.
Proof.
  unfold after_sampling.
  destruct (launch_size_ cfg_) as [[lx ly] lz].
  now destruct (denoise cfg_ && RenderMode_eqb (mode cfg_) PathTracer),
    (tonemap cfg_).
Qed.

(** After the packing loop [render] leaves the environments alone. *)
Lemma render_envs s :
  envs (render s) =
  envs (pack_envs cfg_ (emit [PipelineBarrier]
                          (tlas_build_loop cfg_ (startRenderSetup cfg_ s)))).
Proof.
  set (packed := pack_envs cfg_ _).
  destruct (adaptiveSampling cfg_) eqn:Had.
  - set (fb := makeFramebuffer (auxiliaryOutputs cfg_) (tonemap cfg_) true).
    set (looped := final (convergence_loop fb
           (adaptive_first_pass adaptive_samples_per_thread cfg_ fb
              (emit [CopyParams] packed)))).
    assert (Hl : envs looped = envs packed).
    { subst looped. unfold Render.convergence_loop.
      etransitivity; [apply envs_adaptive_loop; reflexivity |].
      etransitivity; [apply envs_adaptive_first_pass |].
      reflexivity. }
    assert (Hr : render s = after_sampling cfg_ (startRenderSetup cfg_ looped)).
    { unfold Render.render. rewrite Had. reflexivity. }
    rewrite Hr, envs_after_sampling. exact Hl.
  - assert (Hr : exists x, render s = after_sampling cfg_ x /\
                           envs x = envs packed).
    { unfold Render.render. rewrite Had.
      destruct (launch_size_ cfg_) as [[lx ly] lz].
      eexists. split; reflexivity. }
    destruct Hr as (x & -> & Hx). now rewrite envs_after_sampling.
Qed.

End Frames.

(** *** The reservoirs behind the two ray-tracing sets *)

Lemma rtSets_reservoirs param_cfg fb aux tm ad :
  let rtSets := makePerBatchState_rtSets param_cfg fb aux tm ad in
  bound_at rtSets 0 cur_reservoir_binding = Some (Reservoir 0) /\
  bound_at rtSets 0 prev_reservoir_binding = Some (Reservoir 1) /\
  bound_at rtSets 1 cur_reservoir_binding = Some (Reservoir 1) /\
  bound_at rtSets 1 prev_reservoir_binding = Some (Reservoir 0).
Proof. destruct aux, tm, ad; vm_compute; repeat split. Qed.

(** *** The TLAS build loop and the packing loop, environment by environment *)

(** What the TLAS build loop does to one environment. *)
Definition rebuilt (env : Environment) : Environment :=
  if isDirty env then clearDirty (tlas_build env) else env.

Lemma envs_foldl_pointwise (f : Environment -> Environment)
    (step : State -> nat -> State) (l : list nat) :
  (forall s i j, envs (step s i) !! j =
                 if decide (j = i) then f <$> envs s !! j else envs s !! j) ->
  NoDup l ->
  forall s j, envs (foldl step s l) !! j =
              if decide (j ∈ l) then f <$> envs s !! j else envs s !! j.
Proof.
  intros Hstep. induction l as [| i l IH]; intros Hnd s j; cbn [foldl].
  - reflexivity.
  - apply NoDup_cons in Hnd as [Hi Hnd].
    rewrite (IH Hnd), !Hstep.
    destruct (decide (j = i)) as [-> | Hne].
    + rewrite decide_False by exact Hi.
      rewrite decide_True by (left; reflexivity). reflexivity.
    + destruct (decide (j ∈ l)) as [Hin | Hout].
      * rewrite decide_True by (right; exact Hin). reflexivity.
      * rewrite decide_False; [reflexivity |].
        intros [? | ?]%elem_of_cons; tauto.
Qed.

Lemma envs_build_if_dirty s i j :
  envs (build_if_dirty s i) !! j =
  if decide (j = i) then rebuilt <$> envs s !! j else envs s !! j.
Proof.
  unfold build_if_dirty, rebuilt.
  destruct (envs s !! i) as [env |] eqn:Hi.
  - destruct (isDirty env) eqn:Hd; cbn [envs set_envs emit].
    + destruct (decide (j = i)) as [-> | Hne].
      * rewrite list_lookup_insert_eq by (eapply lookup_lt_Some; exact Hi).
        rewrite Hi. cbn. now rewrite Hd.
      * now rewrite list_lookup_insert_ne by congruence.
    + destruct (decide (j = i)) as [-> | Hne]; [| reflexivity].
      rewrite Hi. cbn. now rewrite Hd.
  - destruct (decide (j = i)) as [-> | Hne]; [| reflexivity].
    now rewrite Hi.
Qed.

Lemma envs_pack_env s i j :
  envs (pack_env s i) !! j =
  if decide (j = i) then save_camera <$> envs s !! j else envs s !! j.
Proof.
  unfold pack_env. cbn [envs set_envs].
  destruct (decide (j = i)) as [-> | Hne].
  - apply list_lookup_alter_eq.
  - now apply list_lookup_alter_ne.
Qed.

Lemma elem_of_int_range i n :
  i ∈ int_range n <-> (i < Z.to_nat (to_int n))%nat.
Proof. unfold int_range. rewrite elem_of_seq. lia. Qed.

(** One render call, seen from the environment in slot [i] of the batch. *)
Lemma render_env {float} {float_ops : FloatOps float}
    adaptive_samples_per_thread gpu cfg_ s i env :
  envs s !! i = Some env ->
  (i < Z.to_nat (to_int (batchSize cfg_)))%nat ->
  envs (render adaptive_samples_per_thread gpu cfg_ s) !! i =
  Some (save_camera (rebuilt env)).
Proof.
  intros Hi Hlt. rewrite render_envs.
  unfold pack_envs, tlas_build_loop.
  rewrite (envs_foldl_pointwise save_camera pack_env)
    by (apply envs_pack_env || apply NoDup_seq).
  rewrite decide_True by (now apply elem_of_int_range).
  cbn [envs emit].
  rewrite (envs_foldl_pointwise rebuilt build_if_dirty)
    by (apply envs_build_if_dirty || apply NoDup_seq).
  rewrite decide_True by (now apply elem_of_int_range).
  cbn [envs startRenderSetup emit]. now rewrite Hi.
Qed.

(** C3: over any number [S n] of successive render calls of a batch, with no
    mutation in between, the TLAS of the environment in slot [i] is built
    once if its dirty flag was set at the first call and never otherwise, and
    the flag is clear afterwards.  One call is [n = 0]: the TLAS is built in
    that call exactly when the flag was set.  The build loop on its own,
    which is also the one [bakeProbe] starts with, builds the TLAS of a dirty
    environment once and clears its flag, and leaves a clean one as it is. *)
Theorem render_builds_tlas_iff_dirty {float} {float_ops : FloatOps float}
    adaptive_samples_per_thread gpu cfg_ s i env n :
  envs s !! i = Some env ->
  (i < Z.to_nat (to_int (batchSize cfg_)))%nat ->
  envs (tlas_build_loop cfg_ s) !! i =
    Some (if isDirty env then clearDirty (tlas_build env) else env) /\
  exists env',
    envs (Nat.iter (S n)
            (render adaptive_samples_per_thread gpu cfg_) s) !! i = Some env' /\
    numBuilds env' = (numBuilds env + if isDirty env then 1 else 0)%nat /\
    isDirty env' = false.
Proof.
  intros Hi Hlt. split.
  { unfold tlas_build_loop.
    rewrite (envs_foldl_pointwise rebuilt build_if_dirty)
      by (apply envs_build_if_dirty || apply NoDup_seq).
    rewrite decide_True by (now apply elem_of_int_range).
    now rewrite Hi. }
  induction n as [| n (e & He & Hb & Hd)].
  - exists (save_camera (rebuilt env)). split; [| split].
    + cbn [Nat.iter]. now apply render_env.
    + unfold rebuilt. destruct (isDirty env); cbn; lia.
    + unfold rebuilt. destruct (isDirty env) eqn:Hd; [reflexivity | exact Hd].
  - exists (save_camera (rebuilt e)). split; [| split].
    + change (Nat.iter (S (S n)) ?f s) with (f (Nat.iter (S n) f s)).
      now apply render_env.
    + unfold rebuilt. rewrite Hd. cbn. exact Hb.
    + unfold rebuilt. rewrite Hd. exact Hd.
Qed.

(** A batch of two environments, the first dirty, rendered three times
    without adaptive sampling. *)
Definition example_cfg : Config :=
  {| batchSize := 2; spp := 16; auxiliaryOutputs := false; tonemap := true;
     adaptiveSampling := false; denoise := false; mode := PathTracer;
     numTilesWide := 2; numTilesTall := 2; launch_size_ := (2, 2, 2);
     present_ := false |}.

(** Exact rational arithmetic standing in for single precision. *)
#[local] Instance rational_ops : FloatOps Q :=
  {| float_zero := 0%Q;
     norm_variance_threshold := (5 # 10000)%Q;
     float_of_uint := inject_Z;
     float_div := Qdiv;
     float_eqb := Qeq_bool;
     float_gtb := fun x y => negb (Qle_bool x y) |}.

Definition example_readback : nat -> Readback Q :=
  fun _ => {| adaptiveReadbackPtr :=
                fun _ => {| tileMean := 0%Q; tileVarianceM2 := 0%Q;
                            numSamples := 0 |};
              exposureReadback := fun _ => 0%Q |}.

Definition example_batch : State :=
  makeRenderBatch 0 0
    [ {| dirty_ := true; camera := 1; prevCam := 0; numBuilds := 0 |};
      {| dirty_ := false; camera := 2; prevCam := 0; numBuilds := 1 |} ].

Lemma render_builds_tlas_iff_dirty_witness :
  envs (tlas_build_loop example_cfg example_batch) !! 0%nat =
    Some {| dirty_ := false; camera := 1; prevCam := 0; numBuilds := 1 |} /\
  exists env',
    envs (Nat.iter 3 (render 4 example_readback example_cfg)
            example_batch) !! 0%nat = Some env' /\
    numBuilds env' = (0 + 1)%nat /\
    isDirty env' = false.
Proof.
  apply (render_builds_tlas_iff_dirty 4 example_readback
           example_cfg example_batch 0
           {| dirty_ := true; camera := 1; prevCam := 0; numBuilds := 0 |} 2).
  - reflexivity.
  - vm_compute. lia.
Defined.

(** *** Which set a render call binds, and the flip *)

Lemma render_binds {float} {float_ops : FloatOps float}
    adaptive_samples_per_thread gpu cfg_ s :
  let s' := render adaptive_samples_per_thread gpu cfg_ s in
  curBuffer s' = Z.land (curBuffer s + 1) 1 /\
  exists cs, trace s' = trace s ++ cs /\
             Forall (binds_only (curBuffer s)) cs /\
             In (BindDescriptorSets 0 (RtSet (curBuffer s))) cs.
Proof.
  intros s'. subst s'.
  destruct (render_steps adaptive_samples_per_thread gpu cfg_ s)
    as (x & -> & Hc & cs & Ht & Hf).
  cbn [curBuffer trace flip_buffers startRenderSetup emit] in *.
  split; [now rewrite Hc |].
  eexists. split; [| split].
  - rewrite Ht, <- app_assoc. reflexivity.
  - apply Forall_app. split; [| exact Hf].
    repeat (apply Forall_cons; split; [intros n k Hk; congruence |]).
    apply Forall_app. split.
    + destruct (RenderMode_eqb _ _); repeat constructor;
        intros n k Hk; congruence.
    + repeat constructor. intros n k Hk; congruence.
  - apply in_or_app. left. cbn. tauto.
Qed.

(** C5: on a batch whose buffer index is 0 or 1, two consecutive render
    calls bind [rtSets[c]] and then [rtSets[1 - c]] and no other ray-tracing
    set, the index is back at [c] after the second call, and the two sets
    expose the two reservoir buffers in swapped roles: the reservoir bound as
    current in the first call is the one bound as previous in the second, and
    in neither set is one reservoir bound under both roles. *)
Theorem consecutive_renders_swap_reservoirs {float} {float_ops : FloatOps float}
    adaptive_samples_per_thread gpu cfg_ param_cfg s :
  curBuffer s = 0 \/ curBuffer s = 1 ->
  let render := render adaptive_samples_per_thread gpu cfg_ in
  let fb := makeFramebuffer (auxiliaryOutputs cfg_) (tonemap cfg_)
                            (adaptiveSampling cfg_) in
  let rtSets := makePerBatchState_rtSets param_cfg fb (auxiliaryOutputs cfg_)
                  (tonemap cfg_) (adaptiveSampling cfg_) in
  let s1 := render s in
  let s2 := render s1 in
  (curBuffer s1 = 1 - curBuffer s /\ curBuffer s2 = curBuffer s) /\
  (exists cs1 cs2,
     trace s1 = trace s ++ cs1 /\ trace s2 = trace s1 ++ cs2 /\
     Forall (binds_only (curBuffer s)) cs1 /\
     In (BindDescriptorSets 0 (RtSet (curBuffer s))) cs1 /\
     Forall (binds_only (curBuffer s1)) cs2 /\
     In (BindDescriptorSets 0 (RtSet (curBuffer s1))) cs2) /\
  (exists a b, a <> b /\
     bound_at rtSets (curBuffer s) cur_reservoir_binding = Some (Reservoir a) /\
     bound_at rtSets (curBuffer s) prev_reservoir_binding = Some (Reservoir b) /\
     bound_at rtSets (curBuffer s1) cur_reservoir_binding = Some (Reservoir b) /\
     bound_at rtSets (curBuffer s1) prev_reservoir_binding = Some (Reservoir a)).
Proof.
  intros Hc render0 fb rtSets s1 s2.
  destruct (render_binds adaptive_samples_per_thread gpu cfg_ s)
    as (Hc1 & cs1 & Ht1 & Hf1 & Hi1).
  destruct (render_binds adaptive_samples_per_thread gpu cfg_ s1)
    as (Hc2 & cs2 & Ht2 & Hf2 & Hi2).
  fold render0 in Hc1, Ht1, Hc2, Ht2. fold s1 in Hc1, Ht1. fold s2 in Hc2, Ht2.
  assert (H1 : curBuffer s1 = 1 - curBuffer s)
    by (rewrite Hc1; destruct Hc as [-> | ->]; reflexivity).
  assert (H2 : curBuffer s2 = curBuffer s)
    by (rewrite Hc2, H1; destruct Hc as [-> | ->]; reflexivity).
  split; [now split |]. split.
  - exists cs1, cs2. tauto.
  - destruct (rtSets_reservoirs param_cfg fb (auxiliaryOutputs cfg_)
                (tonemap cfg_) (adaptiveSampling cfg_))
      as (R0c & R0p & R1c & R1p).
    fold rtSets in R0c, R0p, R1c, R1p.
    rewrite H1.
    destruct Hc as [-> | ->]; change (1 - 0) with 1; change (1 - 1) with 0.
    + exists 0, 1. repeat split; (lia || assumption).
    + exists 1, 0. repeat split; (lia || assumption).
Qed.

Lemma consecutive_renders_swap_reservoirs_witness :
  let render := render 4 example_readback example_cfg in
  let param_cfg := ParamBuffer.getParamBufferConfig 64 64 32 144 1024 1024 2 in
  let s := example_batch in
  let fb := makeFramebuffer false true false in
  let rtSets := makePerBatchState_rtSets param_cfg fb false true false in
  let s1 := render s in
  let s2 := render s1 in
  (curBuffer s1 = 1 - curBuffer s /\ curBuffer s2 = curBuffer s) /\
  (exists cs1 cs2,
     trace s1 = trace s ++ cs1 /\ trace s2 = trace s1 ++ cs2 /\
     Forall (binds_only (curBuffer s)) cs1 /\
     In (BindDescriptorSets 0 (RtSet (curBuffer s))) cs1 /\
     Forall (binds_only (curBuffer s1)) cs2 /\
     In (BindDescriptorSets 0 (RtSet (curBuffer s1))) cs2) /\
  (exists a b, a <> b /\
     bound_at rtSets (curBuffer s) cur_reservoir_binding = Some (Reservoir a) /\
     bound_at rtSets (curBuffer s) prev_reservoir_binding = Some (Reservoir b) /\
     bound_at rtSets (curBuffer s1) cur_reservoir_binding = Some (Reservoir b) /\
     bound_at rtSets (curBuffer s1) prev_reservoir_binding = Some (Reservoir a)).
Proof.
  apply (consecutive_renders_swap_reservoirs 4
           example_readback example_cfg
           (ParamBuffer.getParamBufferConfig 64 64 32 144 1024 1024 2)
           example_batch).
  left. reflexivity.
Defined.

(** The commands of the first render call of the example batch. *)
Example first_render_trace :
  trace (render 4 example_readback example_cfg example_batch) =
  [ ResetCommandPool; BeginCommandBuffer; BindPipeline RtPipeline;
    PushConstants 0; BindDescriptorSets 0 (RtSet 0);
    BindDescriptorSets 2 EnvMapSet; BindDescriptorSets 1 SharedSceneSet;
    BuildTLAS 0; PipelineBarrier; CopyParams;
    PipelineBarrier; Dispatch 2 2 2;
    PipelineBarrier; BindPipeline ExposurePipeline;
    BindDescriptorSets 0 ExposureSet; Dispatch 1 1 2;
    PipelineBarrier; BindPipeline TonemapPipeline;
    BindDescriptorSets 0 TonemapSet; Dispatch 2 2 2;
    EndCommandBuffer; QueueSubmit 0 ].
Proof. vm_compute. reflexivity. Qed.

(** *** The convergence loop *)

Lemma foldl_unchanged {A S} (f : S -> A -> S) (l : list A) (s : S) :
  (forall s a, f s a = s) -> foldl f s l = s.
Proof.
  intros Hf. induction l as [| a l IH]; cbn; [reflexivity |].
  now rewrite Hf.
Qed.

(** The statement the loop bound rests on, for any per-tile step: with
    [remaining] values of [adaptive_iter] left, at most [remaining] loop
    bodies are entered; the loop is left through [break] only when no work
    item was written, and otherwise after exactly [remaining] bodies. *)
Lemma adaptive_loop_stops {float} (gpu : nat -> Readback float) cfg_ process
    fb remaining s :
  let r := adaptive_loop gpu cfg_ process fb remaining s in
  (iterations r <= remaining)%nat /\
  (exit r = NoTilesLeft /\ cur_tile_idx (final r) = 0 \/
   exit r = CapReached /\ iterations r = remaining).
Proof.
  revert s. induction remaining as [| remaining IH]; intros s;
    cbn [adaptive_loop].
  - cbn. split; [lia | right; split; reflexivity].
  - set (s2 := for_each_tile cfg_ _ _).
    destruct (cur_tile_idx s2 =? 0) eqn:Hn.
    + cbn. split; [lia |]. left. split; [reflexivity | lia].
    + match goal with
      | |- context [adaptive_loop gpu cfg_ process fb remaining ?x] =>
          specialize (IH x); set (r := adaptive_loop _ _ _ _ remaining x) in *
      end.
      cbn in IH |- *. destruct IH as [Hle [[He Hz] | [He Hi]]].
      * split; [lia |]. left. now split.
      * split; [lia |]. right. split; [assumption | lia].
Qed.

(** **** The loop as it is written *)

Section ConvergenceLoop.

Context {float : Type}.
Variable gpu : nat -> Readback float.
Variable cfg_ : Config.
(** The per-tile step: [processAdaptiveTile], or any other. *)
Variable process : Readback float -> Z -> Z -> Z -> State -> State.
Variable fb : FramebufferState.

(** A loop body up to [num_tiles = cur_tile_idx]: the work items of the
    next iteration are written. *)
Definition process_tiles (s : State) : State :=
  let s := set_cur_tile_idx 0 s in
  let s := set_frame_counter (u32 (frame_counter_ s + batchSize cfg_)) s in
  for_each_tile cfg_ (process (gpu (numSubmits s))) s.

(** The rest of a loop body, after the test [num_tiles == 0] has failed:
    the work items are dispatched and the statistics read back. *)
Definition redispatch (s : State) : State :=
  let num_tiles := cur_tile_idx s in
  let s := startRenderSetup cfg_ s in
  let s := emit [PipelineBarrier; Dispatch num_tiles 1 1] s in
  let s := adaptiveReadback fb s in
  let s := submitCmd cfg_ s in
  wait_and_reset s.

(** [for (int adaptive_iter = 0; adaptive_iter < max_adaptive_iters;
    adaptive_iter++)], from the value [adaptive_iter] on, with the counter
    and the test of the source, run for at most [fuel] tests of the loop
    condition; [None] when the loop has not ended by then. *)
Fixpoint adaptive_for (fuel : nat) (adaptive_iter : Z) (s : State)
    : option LoopResult :=
  match fuel with
  | O => None
  | S fuel =>
    if adaptive_iter <? max_adaptive_iters then
      let s := process_tiles s in
      let num_tiles := cur_tile_idx s in
      if num_tiles =? 0 then
        Some {| final := s; iterations := 1; exit := NoTilesLeft |}
      else
        let s := redispatch s in
        r ← adaptive_for fuel (adaptive_iter + 1) s;
        Some {| final := final r; iterations := S (iterations r);
                exit := exit r |}
    else Some {| final := s; iterations := 0; exit := CapReached |}
  end.

(** The state in which body [k] is entered when every body before it wrote
    work items, and the number of work items body [k] then writes. *)
Definition state_before (s : State) (k : nat) : State :=
  Nat.iter k (fun s => redispatch (process_tiles s)) s.

Definition num_tiles_in (s : State) (k : nat) : Z :=
  cur_tile_idx (process_tiles (state_before s k)).

Lemma adaptive_loop_S remaining s :
  adaptive_loop gpu cfg_ process fb (S remaining) s =
  if cur_tile_idx (process_tiles s) =? 0 then
    {| final := process_tiles s; iterations := 1; exit := NoTilesLeft |}
  else
    let r := adaptive_loop gpu cfg_ process fb remaining
               (redispatch (process_tiles s)) in
    {| final := final r; iterations := S (iterations r); exit := exit r |}.
Proof. reflexivity. Qed.

Lemma state_before_S s k :
  state_before s (S k) = state_before (redispatch (process_tiles s)) k.
Proof.
  unfold state_before.
  apply (Nat.iter_succ_r k (fun s => redispatch (process_tiles s))).
Qed.

(** With fuel for more tests than the values [adaptive_iter] still takes,
    the loop as written ends, and as the recursion on those values does. *)
Lemma adaptive_for_ends remaining : forall fuel adaptive_iter s,
  adaptive_iter + Z.of_nat remaining = max_adaptive_iters ->
  (remaining < fuel)%nat ->
  adaptive_for fuel adaptive_iter s =
  Some (adaptive_loop gpu cfg_ process fb remaining s).
Proof.
  induction remaining as [| remaining IH]; intros fuel i s Hi Hfuel;
    (destruct fuel as [| fuel]; [lia |]); cbn [adaptive_for].
  - destruct (Z.ltb_spec i max_adaptive_iters); [lia | reflexivity].
  - destruct (Z.ltb_spec i max_adaptive_iters); [| lia].
    rewrite adaptive_loop_S.
    destruct (cur_tile_idx (process_tiles s) =? 0); [reflexivity |].
    rewrite (IH fuel (i + 1)) by lia. reflexivity.
Qed.

(** The loop is left at the first body that writes no work item. *)
Lemma adaptive_loop_breaks remaining : forall s k,
  (k < remaining)%nat ->
  (forall j, (j < k)%nat -> num_tiles_in s j <> 0) ->
  num_tiles_in s k = 0 ->
  adaptive_loop gpu cfg_ process fb remaining s =
  {| final := process_tiles (state_before s k); iterations := S k;
     exit := NoTilesLeft |}.
Proof.
  induction remaining as [| remaining IH]; intros s k Hk Hbefore Hzero;
    [lia |].
  rewrite adaptive_loop_S. destruct k as [| k].
  - change (cur_tile_idx (process_tiles s) = 0) in Hzero.
    rewrite Hzero. reflexivity.
  - assert (H0 : cur_tile_idx (process_tiles s) <> 0)
      by (apply (Hbefore 0%nat); lia).
    destruct (Z.eqb_spec (cur_tile_idx (process_tiles s)) 0) as [E | _];
      [contradiction |].
    rewrite (IH (redispatch (process_tiles s)) k).
    + cbn [final iterations exit]. now rewrite state_before_S.
    + lia.
    + intros j Hj. unfold num_tiles_in. rewrite <- state_before_S.
      apply (Hbefore (S j)). lia.
    + unfold num_tiles_in. rewrite <- state_before_S. exact Hzero.
Qed.

(** When every body writes work items, the loop is left at the cap. *)
Lemma adaptive_loop_reaches_cap remaining : forall s,
  (forall k, (k < remaining)%nat -> num_tiles_in s k <> 0) ->
  adaptive_loop gpu cfg_ process fb remaining s =
  {| final := state_before s remaining; iterations := remaining;
     exit := CapReached |}.
Proof.
  induction remaining as [| remaining IH]; intros s Hall; [reflexivity |].
  rewrite adaptive_loop_S.
  assert (H0 : cur_tile_idx (process_tiles s) <> 0)
    by (apply (Hall 0%nat); lia).
  destruct (Z.eqb_spec (cur_tile_idx (process_tiles s)) 0) as [E | _];
    [contradiction |].
  rewrite (IH (redispatch (process_tiles s))).
  - cbn [final iterations exit]. now rewrite state_before_S.
  - intros k Hk. unfold num_tiles_in. rewrite <- state_before_S.
    apply (Hall (S k)). lia.
Qed.

End ConvergenceLoop.

(** C2: the convergence loop, run as the source writes it (a counter
    [adaptive_iter] tested against the cap of 10000, and a [break]), comes
    to an end for every configuration, batch state and device answer and
    for any per-tile step: fuel for more than 10000 tests of the loop
    condition is enough.  It enters at most 10000 bodies.  It is left at
    the first body that writes no work item for the next iteration, through
    the [break] and without dispatching again; when each of the 10000
    bodies writes work items, it is left at the cap, after exactly 10000
    bodies.  The loop of [render], whose per-tile step is
    [processAdaptiveTile], is this loop, and it is left in its first
    body. *)
Theorem convergence_loop_stops_within_cap {float} {float_ops : FloatOps float}
    adaptive_samples_per_thread (gpu : nat -> Readback float) cfg_ process fb
    s fuel :
  (Z.to_nat max_adaptive_iters < fuel)%nat ->
  let cap := Z.to_nat max_adaptive_iters in
  let r := adaptive_loop gpu cfg_ process fb cap s in
  adaptive_for gpu cfg_ process fb fuel 0 s = Some r /\
  (iterations r <= cap)%nat /\
  (forall k, (k < cap)%nat ->
     (forall j, (j < k)%nat -> num_tiles_in gpu cfg_ process fb s j <> 0) ->
     num_tiles_in gpu cfg_ process fb s k = 0 ->
     r = {| final := process_tiles gpu cfg_ process
                       (state_before gpu cfg_ process fb s k);
            iterations := S k; exit := NoTilesLeft |}) /\
  ((forall k, (k < cap)%nat -> num_tiles_in gpu cfg_ process fb s k <> 0) ->
   r = {| final := state_before gpu cfg_ process fb s cap;
          iterations := cap; exit := CapReached |}) /\
  (let process := processAdaptiveTile adaptive_samples_per_thread cfg_ in
   adaptive_for gpu cfg_ process fb fuel 0 s =
     Some (convergence_loop adaptive_samples_per_thread gpu cfg_ fb s) /\
   convergence_loop adaptive_samples_per_thread gpu cfg_ fb s =
     {| final := process_tiles gpu cfg_ process s; iterations := 1;
        exit := NoTilesLeft |}).
Proof.
  intros Hfuel cap r.
  assert (Hcap : 0 + Z.of_nat cap = max_adaptive_iters)
    by (subst cap; unfold max_adaptive_iters; lia).
  split; [| split; [| split; [| split]]].
  - now apply adaptive_for_ends.
  - apply (adaptive_loop_stops gpu cfg_ process fb cap s).
  - intros k Hk Hbefore Hzero. now apply adaptive_loop_breaks.
  - intros Hall. now apply adaptive_loop_reaches_cap.
  - cbv zeta. split.
    + unfold convergence_loop. now apply adaptive_for_ends.
    + unfold convergence_loop.
      apply (adaptive_loop_breaks gpu cfg_ _ fb (Z.to_nat max_adaptive_iters)
               s 0%nat).
      * unfold max_adaptive_iters. lia.
      * intros j Hj. lia.
      * change (cur_tile_idx
                  (process_tiles gpu cfg_
                     (processAdaptiveTile adaptive_samples_per_thread cfg_)
                     s) = 0).
        unfold process_tiles, for_each_tile.
        rewrite foldl_unchanged by (intros s0 [[b x] y]; reflexivity).
        reflexivity.
Qed.

(** The example batch under adaptive sampling, and the loop run on it with
    fuel for 10001 tests of the loop condition. *)
Definition example_adaptive_cfg : Config :=
  {| batchSize := 2; spp := 16; auxiliaryOutputs := false; tonemap := true;
     adaptiveSampling := true; denoise := false; mode := PathTracer;
     numTilesWide := 2; numTilesTall := 2; launch_size_ := (2, 2, 2);
     present_ := false |}.

Lemma convergence_loop_stops_within_cap_witness :
  let fb := makeFramebuffer false true true in
  let process := processAdaptiveTile 4 example_adaptive_cfg in
  (Z.to_nat max_adaptive_iters < S (Z.to_nat max_adaptive_iters))%nat /\
  adaptive_for example_readback example_adaptive_cfg process fb
    (S (Z.to_nat max_adaptive_iters)) 0 example_batch =
    Some (convergence_loop 4 example_readback example_adaptive_cfg fb
            example_batch) /\
  convergence_loop 4 example_readback example_adaptive_cfg fb example_batch =
    {| final := process_tiles example_readback example_adaptive_cfg process
                  example_batch;
       iterations := 1; exit := NoTilesLeft |}.
Proof.
  cbv zeta. split; [lia |].
  apply (convergence_loop_stops_within_cap 4 example_readback
           example_adaptive_cfg (processAdaptiveTile 4 example_adaptive_cfg)
           (makeFramebuffer false true true) example_batch
           (S (Z.to_nat max_adaptive_iters))).
  lia.
Defined.

(** C1 (evaluation of the code): whatever statistics are read back, and so
    also when every tile is under-sampled or far above the variance
    threshold, [processAdaptiveTile] writes no work item; the first body of
    the convergence loop therefore finds [num_tiles == 0] and leaves the
    loop: nothing is dispatched again. *)
Theorem unconverged_tiles_are_not_reemitted {float} {float_ops : FloatOps float}
    adaptive_samples_per_thread (gpu : nat -> Readback float) cfg_ fb s :
  (forall readback batch_idx tile_x tile_y s,
     processAdaptiveTile adaptive_samples_per_thread cfg_ readback
       batch_idx tile_x tile_y s = s) /\
  convergence_loop adaptive_samples_per_thread gpu cfg_ fb s =
  {| final := set_frame_counter (u32 (frame_counter_ s + batchSize cfg_))
                (set_cur_tile_idx 0 s);
     iterations := 1;
     exit := NoTilesLeft |}.
Proof.
  split; [reflexivity |].
  unfold convergence_loop.
  replace (Z.to_nat max_adaptive_iters) with (S (Z.to_nat 9999))
    by (unfold max_adaptive_iters; lia).
  cbn [adaptive_loop].
  unfold for_each_tile.
  rewrite foldl_unchanged by (intros s0 [[b x] y]; reflexivity).
  reflexivity.
Qed.

End Render.

(** ** Probe baking and the probe file
       ([VulkanBackend::bake], [serializeProbeToFile],
        [deserializeProbeFromFile], render.cpp:2458-2796) *)

Module ProbeBake.

Definition PROBE_WIDTH : Z := 32.
Definition PROBE_HEIGHT : Z := 32.
(** [PROBE_DIM = glm::ivec3(3)] *)
Definition PROBE_DIM : Z * Z * Z := (3, 3, 3).

(** The bytes of a [PROBE_WIDTH] x [PROBE_HEIGHT] image of format
    [VK_FORMAT_R32G32B32A32_SFLOAT], 16 bytes per texel; this is what the
    buffer/image copies of the (de)serializer move. *)
Definition probe_image_bytes : nat := Z.to_nat (16 * PROBE_WIDTH * PROBE_HEIGHT).

(** A probe: [size] is [pr.size] (the memory requirement of its texture),
    [image] the texel bytes of [pr.tx]. *)
Record Probe := {
  size : Z;
  image : list byte
}.

(** *** File streams *)

(** A [std::ifstream]: the bytes not read yet and two of the state bits. *)
Record ifstream := {
  unread : list byte;
  eofbit : bool;
  failbit : bool
}.

(** [std::ifstream file(path)] on an existing, readable file. *)
Definition open (content : list byte) : ifstream :=
  {| unread := content; eofbit := false; failbit := false |}.

Definition eof (file : ifstream) : bool := eofbit file.
Definition good (file : ifstream) : bool := negb (eofbit file || failbit file).

(** [file.read(dst, n)], where [dst] is what the [n] destination bytes hold
    before the call.  On a stream that is not good nothing is read and
    [failbit] is set.  Otherwise up to [n] bytes are moved; [eofbit] and
    [failbit] are set only when fewer than [n] bytes were left, so reading
    exactly the last bytes of a file leaves [eof()] false. *)
Definition read (file : ifstream) (n : nat) (dst : list byte)
    : ifstream * list byte :=
  if good file then
    if (n <=? length (unread file))%nat then
      ({| unread := drop n (unread file); eofbit := false; failbit := false |},
       take n (unread file) ++ drop n dst)
    else
      ({| unread := []; eofbit := true; failbit := true |},
       unread file ++ drop (length (unread file)) dst)
  else
    ({| unread := unread file; eofbit := eofbit file; failbit := true |}, dst).

(** [(int)] of the four little-endian bytes of an [int]. *)
Definition int_of_bytes (bs : list byte) : Z := to_int (le_combine bs).

Definition ivec3_bytes (v : Z * Z * Z) : list byte :=
  let '(x, y, z) := v in le_split 4 x ++ le_split 4 y ++ le_split 4 z.

Definition ivec3_of_bytes (bs : list byte) : Z * Z * Z :=
  (int_of_bytes (take 4 bs), int_of_bytes (take 4 (drop 4 bs)),
   int_of_bytes (take 4 (drop 8 bs))).

(** Grid coordinates of a probe; the world position is
    [min + (right * x, up * y, forward * z)]. *)
Definition GridPos : Type := Z * Z * Z.

Section Bake.

(** The size the device requires for the memory of a probe texture
    ([req.size] of [makeTexture2D]). *)
Variable probe_req_size : Z.
(** The value of a byte of host memory that was never written. *)
Variable indeterminate : byte.
(** The value of the uninitialised local [VkDeviceSize size]. *)
Variable uninitialised_size : Z.
(** The device: the image that [bakeProbe] renders at a grid position. *)
Variable rendered : GridPos -> list byte.

(** [alloc.makeStagingBuffer(size)]: fresh host memory. *)
Definition makeStagingBuffer (n : Z) : list byte :=
  repeat indeterminate (Z.to_nat n).

(** [cmdCopyImageToBuffer]: the texels go to the start of the buffer. *)
Definition copyImageToBuffer (img buffer : list byte) : list byte :=
  take (length buffer) (img ++ drop (length img) buffer).

(** [cmdCopyBufferToImage]: the texels come from the start of the buffer. *)
Definition copyBufferToImage (buffer : list byte) : list byte :=
  take probe_image_bytes buffer.

(** What [serializeProbeToFile] writes for a probe: the 8 bytes of
    [pr.size], then [pr.size] bytes of the staging buffer. *)
Definition record_of (pr : Probe) : list byte :=
  let staging := makeStagingBuffer (size pr) in
  let staging := copyImageToBuffer (image pr) staging in
  le_split 8 (size pr) ++ staging.

(** [serializeProbeToFile(file, idx)] on an append stream whose file holds
    [file]. *)
Definition serializeProbeToFile (probes_ : list Probe) (file : list byte)
    (idx : nat) : list byte :=
  match probes_ !! idx with
  | Some pr => file ++ record_of pr
  | None => file   (* probes_[idx] past the end: not a defined execution *)
  end.

(** [deserializeProbeFromFile(file)] *)
Definition deserializeProbeFromFile (file : ifstream) : ifstream * Probe :=
  let '(file, size_bytes) := read file 8 (le_split 8 uninitialised_size) in
  let size := le_combine size_bytes in
  let staging := makeStagingBuffer size in
  let '(file, staging) := read file (Z.to_nat size) staging in
  (file, {| size := u64 probe_req_size; image := copyBufferToImage staging |}).

(** [while (!file.eof()) probes_.push_back(deserializeProbeFromFile(file));]
    run for at most [fuel] tests of the condition; [None] when the loop has
    not ended by then. *)
Fixpoint read_probes (fuel : nat) (file : ifstream) (probes_ : list Probe)
    : option (ifstream * list Probe) :=
  match fuel with
  | O => None
  | S fuel' =>
    if eof file then Some (file, probes_)
    else
      let '(file, pr) := deserializeProbeFromFile file in
      read_probes fuel' file (probes_ ++ [pr])
  end.

(** [bakeProbe(position, batch)]: renders at [position] with the
    orchestration of [render] and copies the HDR output into a new probe
    image ([makeProbeTextureData]). *)
Definition bakeProbe (position : GridPos) : Probe :=
  {| size := u64 probe_req_size; image := rendered position |}.

(** The state [bake] works on: the probes of the backend, the file
    [probes.bin] (absent or its content), and the positions [bakeProbe] was
    called with, in order. *)
Record World := {
  probes_ : list Probe;
  probes_bin : option (list byte);
  baked : list GridPos
}.

Inductive Outcome :=
| Finished (w : World)
| AssertionFailed       (* assert(dim == PROBE_DIM) *)
| StillReading.         (* the eof loop has not ended *)

(** The block [if (std::filesystem::exists(PROBES_BIN_PATH))] on a file
    holding [content]: the probe count and the probes after it, or how the
    run stopped. *)
Definition load_probes (content : list byte) (probes_ : list Probe)
    : Z * list Probe + Outcome :=
  let file := open content in
  let '(file, dim_bytes) := read file 12 (repeat indeterminate 12) in
  let dim := ivec3_of_bytes dim_bytes in
  let '(x, y, z) := dim in
  let probe_count := u32 (x * y * z) in
  if negb (bool_decide (dim = PROBE_DIM)) then inr AssertionFailed
  else
    match read_probes (2 + length content) file probes_ with
    | Some (_, probes_) => inl (probe_count, probes_)
    | None => inr StillReading
    end.

(** The grid position of probe [idx]. *)
Definition grid_position (idx : Z) : GridPos :=
  let '(dx, dy, dz) := PROBE_DIM in
  (Z.rem idx dx, Z.rem (Z.quot idx dx) dy, Z.rem (Z.quot idx (dx * dy)) dz).

(** [uint32_t left = probe_count - probes_.size()], where [num_probes] is
    [probes_.size()]: the difference is taken on 64 bits and truncated. *)
Definition left_to_bake (probe_count : Z) (num_probes : nat) : Z :=
  u32 (u64 (probe_count - Z.of_nat num_probes)).

(** The vector [positions] filled by [for (int i = 0; i < left; ++i)], with
    [start = probes_.size()].  The test compares [i] as an unsigned 32-bit
    value; past [INT_MAX] the counter is taken to wrap around. *)
Definition positions_to_bake (probe_count : Z) (num_probes : nat)
    : list GridPos :=
  let left := left_to_bake probe_count num_probes in
  let start := u32 (Z.of_nat num_probes) in
  map (fun i => let idx := to_int (u32 (start + Z.of_nat i)) in
                grid_position idx)
      (seq 0 (Z.to_nat left)).

(** The loop [for (int i = 0; i < positions.size(); ++i)] from index [i]. *)
Fixpoint bake_positions (positions : list GridPos) (i : nat)
    (probes_ : list Probe) (file : list byte) (baked : list GridPos)
    : list Probe * list byte * list GridPos :=
  match positions with
  | [] => (probes_, file, baked)
  | position :: positions =>
    let probes_ := probes_ ++ [bakeProbe position] in
    let baked := baked ++ [position] in
    let file := serializeProbeToFile probes_ file i in
    bake_positions positions (S i) probes_ file baked
  end.

(** [bake] up to the line ["Need to generate the probes!"]. *)
Definition load (w : World) : Z * list Probe + Outcome :=
  let probe_count := u32 (let '(dx, dy, dz) := PROBE_DIM in dx * dy * dz) in
  match probes_bin w with
  | Some content => load_probes content (probes_ w)
  | None => inl (probe_count, probes_ w)
  end.

(** [VulkanBackend::bake(batch)] up to [makeProbeDescriptorSet].  The part
    that generates the probes is not an [else] branch: it runs after the
    file was read as well. *)
Definition bake (w : World) : Outcome :=
  match load w with
  | inr stopped => stopped
  | inl (probe_count, probes_) =>
    let positions := positions_to_bake probe_count (length probes_) in
    (* ofstream file(PROBES_BIN_PATH, std::ios::app); file.write(&PROBE_DIM) *)
    let file := default [] (probes_bin w) ++ ivec3_bytes PROBE_DIM in
    let '(probes_, file, baked) :=
      bake_positions positions 0 probes_ file (baked w) in
    Finished {| probes_ := probes_; probes_bin := Some file; baked := baked |}
  end.

(** The file a bake that started without one leaves for [ps]: the grid
    dimensions, then one record per probe. *)
Definition probe_file (ps : list Probe) : list byte :=
  ivec3_bytes PROBE_DIM ++ concat (map record_of ps).

(** The probe the reading loop appends after the last record of a file. *)
Definition phantom_probe : Probe :=
  {| size := u64 probe_req_size;
     image := copyBufferToImage (makeStagingBuffer (u64 uninitialised_size)) |}.

End Bake.

(** *** Reading *)

Lemma read_open (a rest dst : list byte) :
  read (open (a ++ rest)) (length a) dst = (open rest, a ++ drop (length a) dst).
Proof.
  unfold read, open, good. cbn [eofbit failbit unread orb negb].
  rewrite length_app.
  destruct (Nat.leb_spec (length a) (length a + length rest)) as [_ | H]; [| lia].
  now rewrite drop_app_length, take_app_length.
Qed.

Lemma read_not_good file n dst :
  good file = false ->
  read file n dst =
  ({| unread := unread file; eofbit := eofbit file; failbit := true |}, dst).
Proof. intros H. unfold read. now rewrite H. Qed.

Lemma u64_u64 x : u64 (u64 x) = u64 x.
Proof. apply u64_small, u64_range. Qed.

Section BakeFacts.

Variable probe_req_size : Z.
Variable indeterminate : byte.
Variable uninitialised_size : Z.
Variable rendered : GridPos -> list byte.

Local Abbreviation record_of := (record_of indeterminate).
Local Abbreviation makeStagingBuffer := (makeStagingBuffer indeterminate).
Local Abbreviation deserializeProbeFromFile :=
  (deserializeProbeFromFile probe_req_size indeterminate uninitialised_size).
Local Abbreviation read_probes :=
  (read_probes probe_req_size indeterminate uninitialised_size).
Local Abbreviation load_probes :=
  (load_probes probe_req_size indeterminate uninitialised_size).
Local Abbreviation phantom_probe :=
  (phantom_probe probe_req_size indeterminate uninitialised_size).
Local Abbreviation probe_file := (probe_file indeterminate).
Local Abbreviation bakeProbe := (bakeProbe probe_req_size rendered).
Local Abbreviation bake_positions :=
  (bake_positions probe_req_size indeterminate rendered).
Local Abbreviation bake :=
  (bake probe_req_size indeterminate uninitialised_size rendered).

(** A probe as [bakeProbe] and [deserializeProbeFromFile] make them on this
    device: its size is the texture's memory requirement, which covers the
    image, and its image is a full [PROBE_WIDTH] x [PROBE_HEIGHT] image. *)
Definition well_formed (pr : Probe) : Prop :=
  size pr = u64 probe_req_size /\
  length (image pr) = probe_image_bytes /\
  (probe_image_bytes <= Z.to_nat (size pr))%nat.

Lemma length_makeStagingBuffer n :
  length (makeStagingBuffer n) = Z.to_nat n.
Proof. unfold ProbeBake.makeStagingBuffer. apply repeat_length. Qed.

(** The staging buffer [serializeProbeToFile] writes out. *)
Definition staging_of (pr : Probe) : list byte :=
  copyImageToBuffer (image pr) (makeStagingBuffer (size pr)).

Lemma length_staging_of pr :
  well_formed pr -> length (staging_of pr) = Z.to_nat (size pr).
Proof.
  intros (_ & Hl & Hs). unfold staging_of, copyImageToBuffer.
  rewrite length_take, length_app, length_drop, length_makeStagingBuffer. lia.
Qed.

Lemma image_of_staging pr :
  well_formed pr -> copyBufferToImage (staging_of pr) = image pr.
Proof.
  intros (_ & Hl & Hs). unfold copyBufferToImage, staging_of, copyImageToBuffer.
  rewrite length_makeStagingBuffer.
  rewrite take_take, Nat.min_l by lia.
  rewrite <- Hl. apply take_app_length.
Qed.

Lemma length_record_of pr :
  well_formed pr -> length (record_of pr) = (8 + Z.to_nat (size pr))%nat.
Proof.
  intros Hwf. unfold ProbeBake.record_of. fold (staging_of pr).
  now rewrite length_app, length_le_split, length_staging_of.
Qed.

(** Reading back one record gives the probe that was written. *)
Lemma deserialize_record pr rest :
  well_formed pr ->
  deserializeProbeFromFile (open (record_of pr ++ rest)) = (open rest, pr).
Proof.
  intros Hwf. pose proof Hwf as (Hsz & Hl & Hs).
  unfold ProbeBake.deserializeProbeFromFile, ProbeBake.record_of.
  fold (staging_of pr).
  rewrite <- app_assoc.
  pose proof (read_open (le_split 8 (size pr)) (staging_of pr ++ rest)
                (le_split 8 uninitialised_size)) as R1.
  rewrite length_le_split in R1. rewrite R1. clear R1.
  rewrite drop_ge by (rewrite length_le_split; lia).
  rewrite app_nil_r, le_combine_split.
  change (size pr `mod` 2 ^ (Z.of_nat 8 * 8)) with (u64 (size pr)).
  rewrite Hsz, u64_u64, <- Hsz.
  pose proof (read_open (staging_of pr) rest (makeStagingBuffer (size pr))) as R2.
  rewrite length_staging_of in R2 by exact Hwf. rewrite R2. clear R2.
  rewrite drop_ge by (rewrite length_makeStagingBuffer; lia).
  rewrite app_nil_r, image_of_staging by exact Hwf.
  now destruct pr.
Qed.

(** At the end of the file the stream is still good, so the loop reads once
    more: the read of [size] fails and a probe is made from storage that was
    never written. *)
Lemma deserialize_at_end :
  deserializeProbeFromFile (open []) =
  ({| unread := []; eofbit := true; failbit := true |}, phantom_probe).
Proof.
  unfold ProbeBake.deserializeProbeFromFile, ProbeBake.phantom_probe.
  unfold read at 1. cbn [good open eofbit failbit unread orb negb length Nat.leb].
  cbn [app]. rewrite drop_0, le_combine_split.
  change (uninitialised_size `mod` 2 ^ (Z.of_nat 8 * 8))
    with (u64 uninitialised_size).
  rewrite read_not_good by reflexivity. reflexivity.
Qed.

Lemma read_probes_records ps : forall acc fuel,
  Forall well_formed ps ->
  (length ps + 2 <= fuel)%nat ->
  read_probes fuel (open (concat (map record_of ps))) acc =
  Some ({| unread := []; eofbit := true; failbit := true |},
        acc ++ ps ++ [phantom_probe]).
Proof.
  induction ps as [| pr ps IH]; intros acc fuel Hwf Hfuel.
  - destruct fuel as [| [| fuel]]; [cbn in Hfuel; lia | cbn in Hfuel; lia |].
    cbn [map concat ProbeBake.read_probes].
    change (eof (open [])) with false. cbv iota.
    rewrite deserialize_at_end. reflexivity.
  - destruct fuel as [| fuel]; [cbn in Hfuel; lia |].
    apply Forall_cons in Hwf as [Hpr Hps].
    cbn [map concat ProbeBake.read_probes].
    change (eof (open ?x)) with false. cbv iota.
    rewrite deserialize_record by exact Hpr.
    rewrite IH by (assumption || (cbn in Hfuel; lia)).
    now rewrite <- app_assoc.
Qed.

Lemma length_records ps :
  Forall well_formed ps ->
  (length ps <= length (concat (map record_of ps)))%nat.
Proof.
  induction 1 as [| pr ps Hpr _ IH]; cbn [map concat length]; [lia |].
  rewrite length_app, length_record_of by exact Hpr. lia.
Qed.

Lemma ivec3_roundtrip :
  ivec3_of_bytes (ivec3_bytes PROBE_DIM) = PROBE_DIM /\
  length (ivec3_bytes PROBE_DIM) = 12%nat.
Proof. split; reflexivity. Qed.

(** Reading a file written for [ps]: the dimensions match, the records give
    back [ps], and one more probe follows. *)
Lemma load_probe_file ps acc :
  Forall well_formed ps ->
  load_probes (probe_file ps) acc = inl (27, acc ++ ps ++ [phantom_probe]).
Proof.
  intros Hwf. unfold ProbeBake.load_probes, ProbeBake.probe_file.
  pose proof (read_open (ivec3_bytes PROBE_DIM) (concat (map record_of ps))
                (repeat indeterminate 12)) as R.
  rewrite (proj2 ivec3_roundtrip) in R. rewrite R. clear R.
  change (drop 12 (repeat indeterminate 12)) with (@nil byte).
  rewrite app_nil_r, (proj1 ivec3_roundtrip).
  cbn [PROBE_DIM].
  change (u32 (3 * 3 * 3)) with 27.
  change (negb (bool_decide ((3, 3, 3) = (3, 3, 3)))) with false. cbv iota.
  rewrite read_probes_records.
  - reflexivity.
  - exact Hwf.
  - rewrite length_app. pose proof (length_records ps Hwf). lia.
Qed.

(** **** The eof loop ends *)

(** A bound on the tests of [eof()] still to come, less one. *)
Definition to_read (file : ifstream) : nat :=
  if eofbit file then 0 else S (length (unread file)).

(** The state bits as [read] leaves them: [failbit] with [eofbit]. *)
Definition bits_agree (file : ifstream) : Prop := failbit file = eofbit file.

Lemma read_bits_agree file n dst :
  bits_agree file ->
  bits_agree (fst (read file n dst)) /\
  (to_read (fst (read file n dst)) <= to_read file)%nat /\
  (eofbit file = false -> (0 < n)%nat ->
   (to_read (fst (read file n dst)) < to_read file)%nat).
Proof.
  unfold bits_agree, to_read, read, good. intros Hb.
  destruct file as [u e f]. cbn [eofbit failbit unread] in *. subst f.
  destruct e; cbn [orb negb fst eofbit failbit unread].
  - repeat split; (reflexivity || lia || discriminate).
  - destruct (Nat.leb_spec n (length u)); cbn [fst eofbit failbit unread];
      rewrite ?length_drop; repeat split; (reflexivity || lia).
Qed.

Lemma deserialize_to_read file :
  bits_agree file -> eofbit file = false ->
  bits_agree (fst (deserializeProbeFromFile file)) /\
  (to_read (fst (deserializeProbeFromFile file)) < to_read file)%nat.
Proof.
  intros Hb He. unfold ProbeBake.deserializeProbeFromFile.
  pose proof (read_bits_agree file 8 (le_split 8 uninitialised_size) Hb)
    as (Hb1 & _ & Hlt). specialize (Hlt He ltac:(lia)).
  destruct (read file 8 (le_split 8 uninitialised_size)) as [file1 size_bytes].
  cbn [fst] in Hb1, Hlt.
  set (n := Z.to_nat (le_combine size_bytes)).
  set (staging := makeStagingBuffer (le_combine size_bytes)).
  pose proof (read_bits_agree file1 n staging Hb1) as (Hb2 & Hle & _).
  destruct (read file1 n staging) as [file2 staging2].
  cbn [fst] in *. split; [exact Hb2 | lia].
Qed.

(** With more fuel than [to_read] the loop comes to its end. *)
Lemma read_probes_ends fuel : forall file acc,
  bits_agree file -> (to_read file < fuel)%nat ->
  is_Some (read_probes fuel file acc).
Proof.
  induction fuel as [| fuel IH]; intros file acc Hb Hfuel; [lia |].
  cbn [ProbeBake.read_probes]. unfold eof.
  destruct (eofbit file) eqn:He; [eauto |].
  pose proof (deserialize_to_read file Hb He) as (Hb' & Hlt).
  destruct (deserializeProbeFromFile file) as [file' pr]. cbn [fst] in *.
  apply IH; [exact Hb' | lia].
Qed.

(** X3: reading a file, whatever it holds, comes to an end: either the
    assertion on the dimensions fails, or the eof loop is left with the
    probes read.  The fuel [load_probes] gives the loop is enough. *)
Lemma load_probes_ends content acc :
  (exists probe_count probes,
     load_probes content acc = inl (probe_count, probes)) \/
  load_probes content acc = inr AssertionFailed.
Proof.
  unfold ProbeBake.load_probes.
  pose proof (read_bits_agree (open content) 12 (repeat indeterminate 12)
                eq_refl) as (Hb & Hle & _).
  destruct (read (open content) 12 (repeat indeterminate 12)) as [file dim_bytes].
  cbn [fst] in Hb, Hle.
  destruct (ivec3_of_bytes dim_bytes) as [[x y] z].
  destruct (negb (bool_decide _)); [right; reflexivity | left].
  destruct (read_probes_ends (2 + length content) file acc Hb) as [[f ps] ->].
  - unfold to_read in Hle at 2. cbn [open eofbit unread] in Hle. lia.
  - eauto.
Qed.

(** *** Baking *)

(** The loop over [positions], started at index [i] with [probes_] already
    holding at least [i] probes: every position is baked, and the record
    appended after baking the [k]-th position is the one of
    [probes_[i + k]]. *)
Lemma bake_positions_spec positions : forall i probes file baked_,
  (i <= length probes)%nat ->
  bake_positions positions i probes file baked_ =
  (probes ++ map bakeProbe positions,
   file ++ concat (map record_of
                     (take (length positions)
                           (drop i (probes ++ map bakeProbe positions)))),
   baked_ ++ positions).
Proof.
  induction positions as [| position positions IH]; intros i probes file baked_ Hi.
  - cbn [ProbeBake.bake_positions map length take concat].
    now rewrite !app_nil_r.
  - cbn [ProbeBake.bake_positions map length].
    set (probes1 := probes ++ [bakeProbe position]).
    assert (Hlen : (i < length probes1)%nat)
      by (subst probes1; rewrite length_app; cbn; lia).
    destruct (lookup_lt_is_Some_2 probes1 i Hlen) as [x Hx].
    unfold serializeProbeToFile. rewrite Hx.
    rewrite IH by lia.
    assert (Hall : probes1 ++ map bakeProbe positions =
                   probes ++ bakeProbe position :: map bakeProbe positions)
      by (subst probes1; now rewrite <- app_assoc).
    rewrite Hall.
    assert (Hx' : (probes ++ bakeProbe position :: map bakeProbe positions) !! i
                  = Some x)
      by (rewrite <- Hall; now apply lookup_app_l_Some).
    rewrite (drop_S _ _ _ Hx'). cbn [take map concat].
    now rewrite <- !app_assoc.
Qed.

(** X2: a bake that finds no file bakes the 27 grid positions in order and
    leaves the file [probe_file] of the probes it baked. *)
Lemma fresh_bake_writes_probe_file :
  let positions := map grid_position (seqZ 0 27) in
  bake {| probes_ := []; probes_bin := None; baked := [] |} =
  Finished {| probes_ := map bakeProbe positions;
              probes_bin := Some (probe_file (map bakeProbe positions));
              baked := positions |}.
Proof.
  intros positions. unfold ProbeBake.bake, load.
  cbn [probes_bin probes_ baked default length].
  change (positions_to_bake _ 0) with positions.
  rewrite bake_positions_spec by (cbn; lia).
  cbn [app]. rewrite drop_0.
  rewrite take_ge by (rewrite length_map; lia).
  reflexivity.
Qed.

(** C6 (evaluation of the code): a probe file holding the grid dimensions
    and the records of [N] probes is accepted by the reader (the dimensions
    match) and the [N] probes come back byte for byte, but the reader then
    makes one more probe: the loop tests [eof()] before any read has failed.
    [N + 1] probes are loaded, not [N]. *)
Theorem reading_back_yields_one_probe_too_many ps :
  Forall well_formed ps ->
  load_probes (probe_file ps) [] = inl (27, ps ++ [phantom_probe]) /\
  length (ps ++ [phantom_probe]) = S (length ps).
Proof.
  intros Hwf. split.
  - now rewrite load_probe_file.
  - rewrite length_app. cbn. lia.
Qed.

(** C7 (evaluation of the code).
    Resuming from a file that holds one probe [p0]: the reader loads [p0]
    and the extra probe, so baking starts at grid index 2 and index 1 is
    never baked; the grid dimensions are appended to the file a second time;
    and the record appended after each newly baked probe is the one of
    [probes_[i]], counted from the first probe in memory: [p0] again, the
    extra probe, then the new probes two steps late, the last two of them
    never.
    Starting from a complete file of 27 probes: 28 probes are loaded, the
    32-bit count of probes left wraps to 4294967295, and [bake] goes on to
    call [bakeProbe], first for grid index 28, instead of not rendering. *)
Theorem resumed_bake_rewrites_loaded_probes p0 ps :
  well_formed p0 -> Forall well_formed ps -> length ps = 27%nat ->
  (let loaded := [p0; phantom_probe] in
   let positions := map grid_position (seqZ 2 25) in
   let new := map bakeProbe positions in
   bake {| probes_ := []; probes_bin := Some (probe_file [p0]); baked := [] |} =
   Finished
     {| probes_ := loaded ++ new;
        probes_bin :=
          Some (probe_file [p0] ++ ivec3_bytes PROBE_DIM ++
                concat (map record_of (loaded ++ take 23 new)));
        baked := positions |}) /\
  (exists w,
     bake {| probes_ := []; probes_bin := Some (probe_file ps); baked := [] |} =
     Finished w /\
     length (probes_ w) = (28 + length (baked w))%nat /\
     Z.of_nat (length (baked w)) = 4294967295 /\
     baked w !! 0%nat = Some (grid_position 28)).
Proof.
  intros Hp0 Hps Hlen. split.
  - intros loaded positions new.
    unfold ProbeBake.bake, load. cbn [probes_bin probes_ baked default].
    rewrite load_probe_file
      by (apply Forall_cons; split; [exact Hp0 | constructor]).
    cbn [app]. fold loaded.
    change (positions_to_bake 27 (length loaded)) with positions.
    rewrite bake_positions_spec by (cbn; lia).
    fold new. rewrite drop_0, <- app_assoc. cbn [app].
    replace (take (length positions) (loaded ++ new)) with (loaded ++ take 23 new)
      by reflexivity.
    reflexivity.
  - unfold ProbeBake.bake, load. cbn [probes_bin probes_ baked default].
    rewrite load_probe_file by exact Hps.
    cbn [app].
    assert (H28 : length (ps ++ [phantom_probe]) = 28%nat)
      by (rewrite length_app, Hlen; reflexivity).
    rewrite H28.
    set (positions := positions_to_bake 27 28).
    assert (Hpos : Z.of_nat (length positions) = 4294967295).
    { subst positions. unfold positions_to_bake.
      rewrite length_map, length_seq.
      change (left_to_bake 27 28) with 4294967295. lia. }
    assert (Hfirst : positions !! 0%nat = Some (grid_position 28)).
    { subst positions. unfold positions_to_bake.
      change (left_to_bake 27 28) with 4294967295.
      replace (Z.to_nat 4294967295) with (S (Z.to_nat 4294967294)) by lia.
      cbn [seq map]. set (rest := map _ (seq 1 _)). reflexivity. }
    rewrite bake_positions_spec by lia.
    eexists. split; [reflexivity |].
    cbn [probes_ baked app].
    rewrite length_app, length_map, H28.
    split; [lia |]. split; [exact Hpos | exact Hfirst].
Qed.

End BakeFacts.

(** A device whose probe textures need exactly the 16384 bytes of the
    image, with zeroed fresh memory, and probes of one colour. *)
Definition example_probe (b : byte) : Probe :=
  {| size := 16384; image := repeat b probe_image_bytes |}.

Lemma example_probe_well_formed b : well_formed 16384 (example_probe b).
Proof.
  unfold well_formed, example_probe. cbn [size image].
  split; [reflexivity |]. split; [apply repeat_length |].
  unfold probe_image_bytes, PROBE_WIDTH, PROBE_HEIGHT. lia.
Defined.

Lemma reading_back_yields_one_probe_too_many_witness :
  load_probes 16384 x00 16384
    (probe_file x00 [example_probe x01; example_probe x02]) [] =
  inl (27, [example_probe x01; example_probe x02]
           ++ [phantom_probe 16384 x00 16384]) /\
  length ([example_probe x01; example_probe x02]
          ++ [phantom_probe 16384 x00 16384]) = 3%nat.
Proof.
  apply (reading_back_yields_one_probe_too_many 16384 x00 16384
           [example_probe x01; example_probe x02]).
  apply Forall_forall. intros x Hx.
  repeat (apply elem_of_cons in Hx as [-> | Hx];
          [apply example_probe_well_formed |]).
  now apply elem_of_nil in Hx.
Defined.

Lemma resumed_bake_rewrites_loaded_probes_witness :
  let rendered := fun _ : GridPos => repeat x03 probe_image_bytes in
  let p0 := example_probe x01 in
  let ps := repeat (example_probe x02) 27 in
  (let loaded := [p0; phantom_probe 16384 x00 16384] in
   let positions := map grid_position (seqZ 2 25) in
   let new := map (bakeProbe 16384 rendered) positions in
   bake 16384 x00 16384 rendered
     {| probes_ := []; probes_bin := Some (probe_file x00 [p0]); baked := [] |} =
   Finished
     {| probes_ := loaded ++ new;
        probes_bin :=
          Some (probe_file x00 [p0] ++ ivec3_bytes PROBE_DIM ++
                concat (map (record_of x00) (loaded ++ take 23 new)));
        baked := positions |}) /\
  (exists w,
     bake 16384 x00 16384 rendered
       {| probes_ := []; probes_bin := Some (probe_file x00 ps); baked := [] |} =
     Finished w /\
     length (probes_ w) = (28 + length (baked w))%nat /\
     Z.of_nat (length (baked w)) = 4294967295 /\
     baked w !! 0%nat = Some (grid_position 28)).
Proof.
  apply (resumed_bake_rewrites_loaded_probes 16384 x00 16384
           (fun _ : GridPos => repeat x03 probe_image_bytes)
           (example_probe x01) (repeat (example_probe x02) 27)).
  - apply example_probe_well_formed.
  - apply Forall_forall. intros x Hx%list_elem_of_In%repeat_spec. subst x.
    apply example_probe_well_formed.
  - reflexivity.
Defined.

End ProbeBake.

(** ** Queues of the backend and of its loaders
       ([initTransferQueues], [initComputeQueues], [makeDevice],
        [VulkanBackend::makeLoader], render.cpp:1257-1401) *)

Module Queues.

(** [QueueState]: the device queue [makeQueue(dev, family, idx)] and the flag
    that tells the users of the queue to serialise their submissions. *)
Record QueueState := {
  queueIdx : nat;
  shared : bool
}.

(** What a call of [makeLoader] comes to. *)
Inductive MakeLoader :=
| AssertionFailed          (* assert(loader_idx < (int)cfg_.maxLoaders) *)
| Undefined                (* [%] by zero, or an index past the end *)
| Loader (transfer_queue compute_queue : QueueState).

Section Backend.

(** [cfg.numLoaders]; [cfg_.maxLoaders] is initialised from it by the
    constructor of the backend. *)
Variable numLoaders : Z.
(** [dev.numTransferQueues] and [dev.numComputeQueues]. *)
Variable numTransferQueues : Z.
Variable numComputeQueues : Z.

(** The values [i] of [for (int i = 0; i < (int)queues.size(); i++)]. *)
Definition queue_indices (size : Z) : list nat :=
  seq 0 (Z.to_nat (to_int size)).

Definition initTransferQueues : list QueueState :=
  let transfer_shared := numTransferQueues <? numLoaders in
  map (fun i => {| queueIdx := i; shared := transfer_shared |})
      (queue_indices numTransferQueues).

(** [max((int)size - 2, 0)]: the compute queues left to the loaders once the
    two queues of [render] are set aside. *)
Definition num_transfer_compute_queues (size : Z) : Z :=
  Z.max (to_int size - 2) 0.

Definition initComputeQueues : list QueueState :=
  let num_transfer_compute_queues :=
    num_transfer_compute_queues numComputeQueues in
  let loaders_shared := num_transfer_compute_queues <? to_int numLoaders in
  map (fun i =>
         let shared := (num_transfer_compute_queues =? 0) ||
                       ((2 <=? Z.of_nat i) && loaders_shared) in
         {| queueIdx := i; shared := shared |})
      (queue_indices numComputeQueues).

(** [makeDevice] asks the instance for two compute queues and one more per
    loader, and for one transfer queue per loader. *)
Definition requested_compute_queues : Z := u32 (2 + numLoaders).
Definition requested_transfer_queues : Z := numLoaders.

(** [makeLoader] on a backend whose counter [num_loaders_] holds
    [loader_idx]: the counter is incremented, and the loader is given
    [transfer_queues_[loader_idx % transfer_queues_.size()]] and
    [compute_queues_[compute_queue_idx]]. *)
Definition makeLoader (transfer_queues_ compute_queues_ : list QueueState)
    (num_loaders_ : Z) : Z * MakeLoader :=
  let loader_idx := num_loaders_ in
  (num_loaders_ + 1,
   if negb (loader_idx <? to_int numLoaders) then AssertionFailed
   else
     let num_transfer_compute_queues :=
       num_transfer_compute_queues (Z.of_nat (length compute_queues_)) in
     let compute_queue_idx :=
       if num_transfer_compute_queues =? 0 then 0
       else Z.rem loader_idx num_transfer_compute_queues + 2 in
     if (length transfer_queues_ =? 0)%nat then Undefined
     else
       match transfer_queues_ !!
               Z.to_nat (loader_idx mod Z.of_nat (length transfer_queues_)),
             compute_queues_ !! Z.to_nat compute_queue_idx with
       | Some transfer_queue, Some compute_queue =>
           Loader transfer_queue compute_queue
       | _, _ => Undefined
       end).

(** The loader made by the [k]-th call of [makeLoader] on the backend. *)
Definition loader (k : Z) : MakeLoader :=
  snd (makeLoader initTransferQueues initComputeQueues k).

End Backend.

(** *** Which queues the loaders get *)

Lemma to_int_small x : 0 <= x < 2 ^ 31 -> to_int x = x.
Proof.
  intros H. unfold to_int.
  destruct (Z.ltb_spec x (2 ^ 31)); [reflexivity | lia].
Qed.

Lemma lookup_initTransferQueues nL nT (k : nat) :
  0 <= nT < 2 ^ 31 -> (k < Z.to_nat nT)%nat ->
  initTransferQueues nL nT !! k =
  Some {| queueIdx := k; shared := nT <? nL |}.
Proof.
  intros HT Hk. unfold initTransferQueues, queue_indices.
  rewrite to_int_small by exact HT.
  rewrite list_lookup_fmap, lookup_seq_lt by exact Hk. reflexivity.
Qed.

Lemma lookup_initComputeQueues nL nC (k : nat) :
  0 <= nC < 2 ^ 31 -> (k < Z.to_nat nC)%nat ->
  initComputeQueues nL nC !! k =
  Some {| queueIdx := k;
          shared := (Z.max (nC - 2) 0 =? 0) ||
                    ((2 <=? Z.of_nat k) && (Z.max (nC - 2) 0 <? to_int nL)) |}.
Proof.
  intros HC Hk. unfold initComputeQueues, queue_indices,
    num_transfer_compute_queues.
  rewrite to_int_small by exact HC.
  rewrite list_lookup_fmap, lookup_seq_lt by exact Hk. reflexivity.
Qed.

Lemma length_initTransferQueues nL nT :
  0 <= nT < 2 ^ 31 -> length (initTransferQueues nL nT) = Z.to_nat nT.
Proof.
  intros HT. unfold initTransferQueues, queue_indices.
  now rewrite length_map, length_seq, to_int_small.
Qed.

Lemma length_initComputeQueues nL nC :
  0 <= nC < 2 ^ 31 -> length (initComputeQueues nL nC) = Z.to_nat nC.
Proof.
  intros HC. unfold initComputeQueues, queue_indices.
  now rewrite length_map, length_seq, to_int_small.
Qed.

(** What [makeLoader] hands out on the queues of the backend, with the
    casts and the lookups resolved. *)
Lemma loader_queues nL nT nC i t c :
  0 <= nL < 2 ^ 31 -> 0 <= nT < 2 ^ 31 -> 0 <= nC < 2 ^ 31 -> 0 <= i ->
  loader nL nT nC i = Loader t c ->
  i < nL /\ 0 < nT /\
  t = {| queueIdx := Z.to_nat (i mod nT); shared := nT <? nL |} /\
  let n := Z.max (nC - 2) 0 in
  let idx := if n =? 0 then 0 else Z.rem i n + 2 in
  c = {| queueIdx := Z.to_nat idx;
         shared := (n =? 0) || ((2 <=? idx) && (n <? nL)) |}.
Proof.
  intros HL HT HC Hi. unfold loader, makeLoader. cbn [snd].
  rewrite (to_int_small nL) by exact HL.
  destruct (Z.ltb_spec i nL) as [Hlt | Hge]; cbn [negb]; [| discriminate].
  rewrite length_initTransferQueues, length_initComputeQueues by assumption.
  unfold num_transfer_compute_queues.
  rewrite !Z2Nat.id by lia. rewrite (to_int_small nC) by exact HC.
  destruct (Nat.eqb_spec (Z.to_nat nT) 0) as [H0 | Hn0]; [discriminate |].
  assert (HTpos : 0 < nT) by lia.
  set (n := Z.max (nC - 2) 0).
  set (idx := if n =? 0 then 0 else Z.rem i n + 2).
  pose proof (Z.mod_pos_bound i nT HTpos) as Hm.
  rewrite lookup_initTransferQueues by lia.
  destruct (initComputeQueues nL nC !! Z.to_nat idx) as [q |] eqn:Hq;
    [| discriminate].
  intros [= <- <-].
  assert (Hidx : (Z.to_nat idx < Z.to_nat nC)%nat).
  { apply lookup_lt_Some in Hq.
    now rewrite length_initComputeQueues in Hq by exact HC. }
  rewrite lookup_initComputeQueues in Hq by assumption.
  injection Hq as <-.
  assert (Hidx0 : 0 <= idx).
  { subst idx. destruct (Z.eqb_spec n 0) as [_ | Hn]; [lia |].
    pose proof (Z.rem_nonneg i n Hn Hi). lia. }
  rewrite Z2Nat.id by exact Hidx0.
  rewrite (to_int_small nL) by exact HL.
  fold n. repeat split; (lia || reflexivity).
Qed.

(** X15: queue sharing on the compute queues.  A loader that is given one of the
    two queues [render] submits to (index 0 or 1), or the compute queue of
    another loader, finds the queue flagged shared. *)
Theorem loaders_on_one_compute_queue_find_it_shared nL nT nC i j t1 c1 t2 c2 :
  0 <= nL < 2 ^ 31 -> 0 <= nT < 2 ^ 31 -> 0 <= nC < 2 ^ 31 ->
  0 <= i -> 0 <= j ->
  loader nL nT nC i = Loader t1 c1 ->
  (queueIdx c1 < 2)%nat \/
  (i <> j /\ loader nL nT nC j = Loader t2 c2 /\ queueIdx c1 = queueIdx c2) ->
  shared c1 = true.
Proof.
  intros HL HT HC Hi Hj Hl1 Hcase.
  destruct (loader_queues nL nT nC i t1 c1 HL HT HC Hi Hl1)
    as (Hlt1 & _ & _ & Hc1).
  cbv zeta in Hc1. subst c1. cbn [queueIdx shared] in *.
  set (n := Z.max (nC - 2) 0) in *.
  destruct (Z.eqb_spec n 0) as [_ | Hn]; [reflexivity |].
  assert (Hnpos : 0 < n) by lia.
  pose proof (Z.rem_bound_pos i n Hi Hnpos) as Hri.
  destruct Hcase as [Hq | (Hne & Hl2 & Hq)]; [lia |].
  destruct (loader_queues nL nT nC j t2 c2 HL HT HC Hj Hl2)
    as (Hlt2 & _ & _ & Hc2).
  cbv zeta in Hc2. subst c2. cbn [queueIdx shared] in *. fold n in Hq.
  destruct (Z.eqb_spec n 0) as [H0 | _]; [lia |].
  pose proof (Z.rem_bound_pos j n Hj Hnpos) as Hrj.
  assert (Hrem : Z.rem i n = Z.rem j n) by lia.
  assert (Hsh : n < nL).
  { destruct (Z.lt_ge_cases n nL) as [H | H]; [exact H | exfalso].
    rewrite !Z.rem_small in Hrem by lia. contradiction. }
  cbn [orb].
  destruct (Z.leb_spec 2 (Z.rem i n + 2)); [| lia].
  destruct (Z.ltb_spec n nL); [reflexivity | lia].
Qed.

(** Three loaders on a device with four compute queues: loaders 0 and 2 are
    both given queue 2. *)
Lemma loaders_on_one_compute_queue_find_it_shared_witness :
  loader 3 3 4 0 = Loader {| queueIdx := 0; shared := false |}
                          {| queueIdx := 2; shared := true |} /\
  loader 3 3 4 2 = Loader {| queueIdx := 2; shared := false |}
                          {| queueIdx := 2; shared := true |} /\
  shared {| queueIdx := 2; shared := true |} = true.
Proof.
  split; [reflexivity |]. split; [reflexivity |].
  apply (loaders_on_one_compute_queue_find_it_shared 3 3 4 0 2
           {| queueIdx := 0; shared := false |}
           {| queueIdx := 2; shared := true |}
           {| queueIdx := 2; shared := false |}
           {| queueIdx := 2; shared := true |});
    try lia; try reflexivity.
  right. split; [lia |]. split; reflexivity.
Defined.

(** X16: queue sharing on the transfer queues: when two loaders are given the
    same transfer queue, that queue is flagged shared. *)
Theorem loaders_on_one_transfer_queue_find_it_shared nL nT nC i j t1 c1 t2 c2 :
  0 <= nL < 2 ^ 31 -> 0 <= nT < 2 ^ 31 -> 0 <= nC < 2 ^ 31 ->
  0 <= i -> 0 <= j -> i <> j ->
  loader nL nT nC i = Loader t1 c1 ->
  loader nL nT nC j = Loader t2 c2 ->
  queueIdx t1 = queueIdx t2 ->
  shared t1 = true /\ shared t2 = true.
Proof.
  intros HL HT HC Hi Hj Hne Hl1 Hl2 Hq.
  destruct (loader_queues nL nT nC i t1 c1 HL HT HC Hi Hl1)
    as (Hlt1 & HTpos & Ht1 & _).
  destruct (loader_queues nL nT nC j t2 c2 HL HT HC Hj Hl2)
    as (Hlt2 & _ & Ht2 & _).
  subst t1 t2. cbn [queueIdx shared] in *.
  pose proof (Z.mod_pos_bound i nT HTpos).
  pose proof (Z.mod_pos_bound j nT HTpos).
  assert (Hmod : i mod nT = j mod nT) by lia.
  destruct (Z.ltb_spec nT nL) as [_ | Hge]; [split; reflexivity | exfalso].
  rewrite !Z.mod_small in Hmod by lia. contradiction.
Qed.

(** Three loaders on a device with two transfer queues: loaders 0 and 2 are
    both given queue 0. *)
Lemma loaders_on_one_transfer_queue_find_it_shared_witness :
  loader 3 2 2 0 = Loader {| queueIdx := 0; shared := true |}
                          {| queueIdx := 0; shared := true |} /\
  loader 3 2 2 2 = Loader {| queueIdx := 0; shared := true |}
                          {| queueIdx := 0; shared := true |} /\
  shared {| queueIdx := 0; shared := true |} = true /\
  shared {| queueIdx := 0; shared := true |} = true.
Proof.
  split; [reflexivity |]. split; [reflexivity |].
  apply (loaders_on_one_transfer_queue_find_it_shared 3 2 2 0 2
           {| queueIdx := 0; shared := true |}
           {| queueIdx := 0; shared := true |}
           {| queueIdx := 0; shared := true |}
           {| queueIdx := 0; shared := true |});
    (lia || reflexivity).
Defined.

(** X17: when the device grants the queues [makeDevice] asks for, every loader
    up to [numLoaders] is made, loader [i] on transfer queue [i] and compute
    queue [i + 2]; no queue is flagged shared, and the next call of
    [makeLoader] fails its assertion. *)
Theorem granted_queues_are_one_per_loader nL i :
  1 <= nL < 2 ^ 31 - 2 -> 0 <= i ->
  loader nL (requested_transfer_queues nL) (requested_compute_queues nL) i =
  if i <? nL
  then Loader {| queueIdx := Z.to_nat i; shared := false |}
              {| queueIdx := Z.to_nat (i + 2); shared := false |}
  else AssertionFailed.
Proof.
  intros HL Hi. unfold requested_transfer_queues, requested_compute_queues.
  assert (Hu : u32 (2 + nL) = 2 + nL) by (unfold u32; apply Z.mod_small; lia).
  rewrite Hu. unfold loader, makeLoader. cbn [snd].
  rewrite (to_int_small nL) by lia.
  destruct (Z.ltb_spec i nL) as [Hlt | Hge]; cbn [negb]; [| reflexivity].
  rewrite length_initTransferQueues, length_initComputeQueues by lia.
  unfold num_transfer_compute_queues.
  rewrite !Z2Nat.id by lia. rewrite (to_int_small (2 + nL)) by lia.
  replace (Z.max (2 + nL - 2) 0) with nL by lia.
  destruct (Z.eqb_spec nL 0) as [H0 | _]; [lia |].
  destruct (Nat.eqb_spec (Z.to_nat nL) 0) as [H0 | _]; [lia |].
  rewrite Z.mod_small, Z.rem_small by lia.
  rewrite lookup_initTransferQueues, lookup_initComputeQueues by lia.
  rewrite Z.ltb_irrefl.
  replace (Z.max (2 + nL - 2) 0) with nL by lia.
  destruct (Z.eqb_spec nL 0) as [H0 | _]; [lia |].
  rewrite (to_int_small nL) by lia. rewrite Z.ltb_irrefl.
  rewrite andb_false_r. reflexivity.
Qed.

Lemma granted_queues_are_one_per_loader_witness :
  loader 4 (requested_transfer_queues 4) (requested_compute_queues 4) 3 =
  Loader {| queueIdx := 3; shared := false |}
         {| queueIdx := 5; shared := false |}.
Proof. apply (granted_queues_are_one_per_loader 4 3); lia. Defined.

End Queues.

(** ** Framebuffer configuration
       ([getFramebufferConfig], [getProbeFramebufferConfig], [getLaunchSize],
        render.cpp:77-183, 1291-1298) *)

Module FramebufferSetup.

(** How a function with assertions and a loop ends. *)
Inductive Outcome (A : Type) :=
| Returns (a : A)
| AssertionFails (line : Z)   (* an [assert] of render.cpp, by its line *)
| Undefined                   (* [/] or [%] by zero *)
| StillLooping.               (* the loop has not ended within the fuel *)
Arguments Returns {A}.
Arguments AssertionFails {A}.
Arguments Undefined {A}.
Arguments StillLooping {A}.

#[local] Instance Outcome_ret : MRet Outcome := @Returns.
#[local] Instance Outcome_bind : MBind Outcome := fun A B f m =>
  match m with
  | Returns a => f a
  | AssertionFails line => AssertionFails line
  | Undefined => Undefined
  | StillLooping => StillLooping
  end.

Definition assert (cond : bool) (line : Z) : Outcome unit :=
  if cond then Returns tt else AssertionFails line.

(** [a / b] and [a % b] on [uint32_t]. *)
Definition udiv (a b : Z) : Outcome Z :=
  if b =? 0 then Undefined else Returns (a / b).
Definition umod (a b : Z) : Outcome Z :=
  if b =? 0 then Undefined else Returns (a mod b).

(** The fields of [RenderConfig] that the framebuffer configuration reads,
    all [uint32_t]. *)
Record RenderConfig := {
  batchSize : Z;
  imgWidth : Z;
  imgHeight : Z
}.

(** [FramebufferConfig], in the order of the aggregate that
    [getFramebufferConfig] returns. *)
Record FramebufferConfig := {
  fb_imgWidth : Z;
  fb_imgHeight : Z;
  miniBatchSize : Z;
  numImagesWidePerMiniBatch : Z;
  numImagesTallPerMiniBatch : Z;
  numImagesWidePerBatch : Z;
  numImagesTallPerBatch : Z;
  frameWidth : Z;
  frameHeight : Z;
  numTilesWide : Z;
  numTilesTall : Z;
  outputBytes : Z;
  hdrBytes : Z;
  normalBytes : Z;
  albedoBytes : Z;
  reservoirBytes : Z;
  illuminanceBytes : Z;
  adaptiveBytes : Z
}.

(** [ceil(sqrt(v))] for a [uint32_t] [v], computed in double precision.  The
    square root of an integer below 2^32 is either an integer, and then
    exact, or further from every integer than the rounding error of a
    double, so the result is the integer ceiling of the square root. *)
Definition ceil_sqrt (v : Z) : Z := Z.sqrt_up v.

(** [while (batch_size % wide != 0) wide++;] *)
Fixpoint widen (fuel : nat) (batch_size wide : Z) : Outcome Z :=
  match fuel with
  | O => StillLooping
  | S fuel =>
    r ← umod batch_size wide;
    if negb (r =? 0) then widen fuel batch_size (u32 (wide + 1))
    else mret wide
  end.

Section Config.

(** Constants of [VulkanConfig] and sizes of structures shared with the
    shaders; [divideRoundUp] is a function of the utilities.  None of them is
    part of the sources. *)
Variable minibatch_divisor : Z.
Variables localWorkgroupX localWorkgroupY localWorkgroupZ : Z.
Variable divideRoundUp : Z -> Z -> Z.
Variables sizeof_Reservoir sizeof_AdaptiveTile : Z.

Definition sizeof_uint16_t : Z := 2.
Definition sizeof_float : Z := 4.

(** The five per-pixel sizes, [uint32_t] values computed in [size_t]. *)
Definition pixel_bytes (per_pixel pixels_per_batch : Z) : Z :=
  u32 (u64 (per_pixel * pixels_per_batch)).

Definition getFramebufferConfig (cfg : RenderConfig)
    : Outcome FramebufferConfig :=
  let batch_size := batchSize cfg in
  q ← udiv batch_size minibatch_divisor;
  let minibatch_size := Z.max q batch_size in
  r ← umod batch_size minibatch_size;
  _ ← assert (r =? 0) 116;
  let batch_fb_images_wide := ceil_sqrt batch_size in
  batch_fb_images_wide ←
    widen (S (Z.to_nat batch_size)) batch_size batch_fb_images_wide;
  minibatch_fb_images ←
    (if minibatch_size <=? batch_fb_images_wide then
       r ← umod batch_fb_images_wide minibatch_size;
       _ ← assert (r =? 0) 126;
       mret (minibatch_size, 1)
     else
       q ← udiv minibatch_size batch_fb_images_wide;
       mret (batch_fb_images_wide, q));
  let '(minibatch_fb_images_wide, minibatch_fb_images_tall) :=
    minibatch_fb_images in
  _ ← assert (u32 (minibatch_fb_images_wide * minibatch_fb_images_tall)
              =? minibatch_size) 134;
  batch_fb_images_tall ← udiv batch_size batch_fb_images_wide;
  _ ← assert (u32 (batch_fb_images_wide * batch_fb_images_tall)
              =? batch_size) 138;
  let batch_fb_width := u32 (imgWidth cfg * batch_fb_images_wide) in
  let batch_fb_height := u32 (imgHeight cfg * batch_fb_images_tall) in
  let pixels_per_batch := u32 (batch_fb_width * batch_fb_height) in
  let output_bytes := pixel_bytes (4 * sizeof_uint16_t) pixels_per_batch in
  let hdr_bytes := pixel_bytes (4 * sizeof_float) pixels_per_batch in
  let normal_bytes := pixel_bytes (3 * sizeof_uint16_t) pixels_per_batch in
  let albedo_bytes := pixel_bytes (3 * sizeof_uint16_t) pixels_per_batch in
  let reservoir_bytes := pixel_bytes sizeof_Reservoir pixels_per_batch in
  let num_tiles_wide := divideRoundUp (imgWidth cfg) localWorkgroupX in
  let num_tiles_tall := divideRoundUp (imgHeight cfg) localWorkgroupY in
  let illuminance_bytes :=
    u32 (u64 (u64 (u64 (sizeof_float * num_tiles_wide) * num_tiles_tall)
              * batch_size)) in
  let adaptive_bytes :=
    u32 (u64 (u64 (u64 (sizeof_AdaptiveTile * num_tiles_wide) * num_tiles_tall)
              * batch_size)) in
  mret {| fb_imgWidth := imgWidth cfg;
          fb_imgHeight := imgHeight cfg;
          miniBatchSize := minibatch_size;
          numImagesWidePerMiniBatch := minibatch_fb_images_wide;
          numImagesTallPerMiniBatch := minibatch_fb_images_tall;
          numImagesWidePerBatch := batch_fb_images_wide;
          numImagesTallPerBatch := batch_fb_images_tall;
          frameWidth := batch_fb_width;
          frameHeight := batch_fb_height;
          numTilesWide := num_tiles_wide;
          numTilesTall := num_tiles_tall;
          outputBytes := output_bytes;
          hdrBytes := hdr_bytes;
          normalBytes := normal_bytes;
          albedoBytes := albedo_bytes;
          reservoirBytes := reservoir_bytes;
          illuminanceBytes := illuminance_bytes;
          adaptiveBytes := adaptive_bytes |}.

Definition getProbeFramebufferConfig (width height : Z) : FramebufferConfig :=
  let pixels_per_batch := u32 (width * height) in
  {| fb_imgWidth := width;
     fb_imgHeight := height;
     miniBatchSize := 1;
     numImagesWidePerMiniBatch := 1;
     numImagesTallPerMiniBatch := 1;
     numImagesWidePerBatch := 1;
     numImagesTallPerBatch := 1;
     frameWidth := width;
     frameHeight := height;
     numTilesWide := 1;
     numTilesTall := 1;
     outputBytes := pixel_bytes (4 * sizeof_uint16_t) pixels_per_batch;
     hdrBytes := pixel_bytes (4 * sizeof_float) pixels_per_batch;
     normalBytes := pixel_bytes (3 * sizeof_uint16_t) pixels_per_batch;
     albedoBytes := pixel_bytes (3 * sizeof_uint16_t) pixels_per_batch;
     reservoirBytes := pixel_bytes sizeof_Reservoir pixels_per_batch;
     illuminanceBytes := sizeof_float;
     adaptiveBytes := sizeof_AdaptiveTile |}.

(** [getLaunchSize]: the workgroups of the full-image dispatch. *)
Definition getLaunchSize (cfg : RenderConfig) : Z * Z * Z :=
  (divideRoundUp (imgWidth cfg) localWorkgroupX,
   divideRoundUp (imgHeight cfg) localWorkgroupY,
   divideRoundUp (batchSize cfg) localWorkgroupZ).

End Config.

(** *** The grid of images *)

Lemma u32_id x : 0 <= x < 2 ^ 32 -> u32 x = x.
Proof. intros H. unfold u32. now apply Z.mod_small. Qed.

Lemma udiv_defined a b : b <> 0 -> udiv a b = Returns (a / b).
Proof. intros H. unfold udiv. now destruct (Z.eqb_spec b 0). Qed.

Lemma umod_defined a b : b <> 0 -> umod a b = Returns (a mod b).
Proof. intros H. unfold umod. now destruct (Z.eqb_spec b 0). Qed.

Lemma bind_Returns {A B} (a : A) (f : A -> Outcome B) :
  Returns a ≫= f = f a.
Proof. reflexivity. Qed.

(** One step of a computation whose first action has returned. *)
Ltac step := rewrite bind_Returns; cbv beta.

(** The loop stops at the first divisor of [b] from [w] on. *)
Lemma widen_stops b : 1 <= b < 2 ^ 32 -> forall fuel w,
  1 <= w <= b -> (Z.to_nat (b - w) < fuel)%nat ->
  exists w', widen fuel b w = Returns w' /\ w <= w' <= b /\ (w' | b) /\
             forall v, w <= v < w' -> ~ (v | b).
Proof.
  intros Hb. induction fuel as [| fuel IH]; intros w Hw Hfuel; [lia |].
  cbn [widen]. unfold umod.
  destruct (Z.eqb_spec w 0) as [H0 | _]; [lia |].
  cbn [mbind Outcome_bind].
  destruct (Z.eqb_spec (b mod w) 0) as [Hdiv | Hnd]; cbn [negb].
  - exists w. split; [reflexivity |]. split; [lia |]. split.
    + apply Z.mod_divide; [lia | exact Hdiv].
    + intros v Hv. lia.
  - assert (Hlt : w < b).
    { destruct (Z.eq_dec w b) as [-> | Hne]; [| lia].
      rewrite Z.mod_same in Hnd by lia. contradiction. }
    rewrite u32_id by lia.
    destruct (IH (w + 1) ltac:(lia) ltac:(lia)) as (w' & Hr & Hle & Hd & Hmin).
    exists w'. split; [exact Hr |]. split; [lia |]. split; [exact Hd |].
    intros v Hv Hvd. destruct (Z.eq_dec v w) as [-> | Hne].
    + apply Hnd. apply Z.mod_divide; [lia | exact Hvd].
    + apply (Hmin v); [lia | exact Hvd].
Qed.

(** What [getFramebufferConfig] returns for a batch of at least one image:
    no assertion fails and the loop ends at [wide]. *)
Lemma getFramebufferConfig_returns d lwX lwY divideRoundUp sR sA cfg :
  1 <= d < 2 ^ 32 -> 1 <= batchSize cfg < 2 ^ 32 ->
  exists wide tall,
    wide * tall = batchSize cfg /\ 1 <= tall <= wide /\
    batchSize cfg <= wide * wide /\
    (forall w, 0 < w -> (w | batchSize cfg) -> batchSize cfg <= w * w ->
               wide <= w) /\
    getFramebufferConfig d lwX lwY divideRoundUp sR sA cfg =
    Returns
      (let pixels_per_batch :=
         u32 (u32 (imgWidth cfg * wide) * u32 (imgHeight cfg * tall)) in
       let num_tiles_wide := divideRoundUp (imgWidth cfg) lwX in
       let num_tiles_tall := divideRoundUp (imgHeight cfg) lwY in
       {| fb_imgWidth := imgWidth cfg;
          fb_imgHeight := imgHeight cfg;
          miniBatchSize := batchSize cfg;
          numImagesWidePerMiniBatch := wide;
          numImagesTallPerMiniBatch := tall;
          numImagesWidePerBatch := wide;
          numImagesTallPerBatch := tall;
          frameWidth := u32 (imgWidth cfg * wide);
          frameHeight := u32 (imgHeight cfg * tall);
          numTilesWide := num_tiles_wide;
          numTilesTall := num_tiles_tall;
          outputBytes := pixel_bytes (4 * sizeof_uint16_t) pixels_per_batch;
          hdrBytes := pixel_bytes (4 * sizeof_float) pixels_per_batch;
          normalBytes := pixel_bytes (3 * sizeof_uint16_t) pixels_per_batch;
          albedoBytes := pixel_bytes (3 * sizeof_uint16_t) pixels_per_batch;
          reservoirBytes := pixel_bytes sR pixels_per_batch;
          illuminanceBytes :=
            u32 (u64 (u64 (u64 (sizeof_float * num_tiles_wide)
                           * num_tiles_tall) * batchSize cfg));
          adaptiveBytes :=
            u32 (u64 (u64 (u64 (sA * num_tiles_wide)
                           * num_tiles_tall) * batchSize cfg)) |}).
Proof.
  intros Hd Hb. unfold getFramebufferConfig.
  set (b := batchSize cfg) in *.
  rewrite udiv_defined by lia. step.
  assert (Hq : b / d <= b) by (apply Z.div_le_upper_bound; nia).
  rewrite Z.max_r by exact Hq.
  rewrite umod_defined by lia. step.
  rewrite Z.mod_same by lia. cbn [Z.eqb assert]. step.
  unfold ceil_sqrt.
  assert (Hs1 : 1 <= Z.sqrt_up b) by (pose proof (Z.sqrt_up_pos b); lia).
  assert (Hs2 : Z.sqrt_up b <= b) by (apply Z.sqrt_up_le_lin; lia).
  destruct (widen_stops b Hb (S (Z.to_nat b)) (Z.sqrt_up b)
              ltac:(lia) ltac:(lia)) as (w & Hw & Hle & Hdiv & Hmin).
  rewrite Hw. step.
  destruct Hdiv as [t Ht].
  assert (Htpos : 1 <= t) by nia.
  assert (Hquot : b / w = t) by (rewrite Ht; apply Z.div_mul; lia).
  assert (Hsq : b <= w * w) by (apply Z.sqrt_up_le_square; lia).
  assert (Htw : t <= w) by nia.
  assert (Hshape :
    (if b <=? w
     then r ← umod w b; _ ← assert (r =? 0) 126; mret (b, 1)
     else q ← udiv b w; mret (w, q)) = Returns (w, t)).
  { destruct (Z.leb_spec b w) as [Hbw | Hbw].
    - assert (w = b) by lia. subst w.
      rewrite umod_defined by lia. step.
      rewrite Z.mod_same by lia. cbn [Z.eqb assert]. step.
      unfold mret, Outcome_ret. do 2 f_equal. nia.
    - rewrite udiv_defined by lia. step. now rewrite Hquot. }
  rewrite Hshape. step.
  assert (Hwt : u32 (w * t) = b) by (rewrite u32_id by nia; lia).
  rewrite Hwt, Z.eqb_refl. cbn [assert]. step.
  rewrite udiv_defined by lia. step.
  rewrite Hquot, Hwt, Z.eqb_refl. cbn [assert]. step.
  exists w, t. repeat split; try lia.
  intros v Hv Hvd Hvsq.
  destruct (Z.le_gt_cases w v) as [H | H]; [exact H | exfalso].
  apply (Hmin v); [| exact Hvd].
  split; [| exact H]. apply Z.sqrt_up_le_square; lia.
Qed.

(** X10: for a batch of at least one image no assertion of
    [getFramebufferConfig] fails and its loop ends.  The whole batch is one
    mini-batch; the images are laid out on a grid of [wide] by [tall] images
    with [wide * tall = batchSize], where [wide] is the least divisor of the
    batch size whose square reaches the batch size, so the grid is never
    taller than wide; and the full-image dispatch of [getLaunchSize] has one
    workgroup per tile in x and y. *)
Theorem getFramebufferConfig_tiles_the_batch
    d lwX lwY lwZ divideRoundUp sR sA cfg :
  1 <= d < 2 ^ 32 -> 1 <= batchSize cfg < 2 ^ 32 ->
  exists fb,
    getFramebufferConfig d lwX lwY divideRoundUp sR sA cfg = Returns fb /\
    miniBatchSize fb = batchSize cfg /\
    numImagesWidePerBatch fb * numImagesTallPerBatch fb = batchSize cfg /\
    numImagesWidePerMiniBatch fb = numImagesWidePerBatch fb /\
    numImagesTallPerMiniBatch fb = numImagesTallPerBatch fb /\
    1 <= numImagesTallPerBatch fb <= numImagesWidePerBatch fb /\
    (forall w, 0 < w -> (w | batchSize cfg) -> batchSize cfg <= w * w ->
               numImagesWidePerBatch fb <= w) /\
    batchSize cfg <= numImagesWidePerBatch fb * numImagesWidePerBatch fb /\
    (let '(x, y, _) := getLaunchSize lwX lwY lwZ divideRoundUp cfg in
     x = numTilesWide fb /\ y = numTilesTall fb).
Proof.
  intros Hd Hb.
  destruct (getFramebufferConfig_returns d lwX lwY divideRoundUp sR sA cfg
              Hd Hb) as (w & t & Hwt & Ht & Hsq & Hmin & ->).
  eexists. split; [reflexivity |].
  cbn [miniBatchSize numImagesWidePerBatch numImagesTallPerBatch
       numImagesWidePerMiniBatch numImagesTallPerMiniBatch
       numTilesWide numTilesTall getLaunchSize].
  repeat split; (lia || assumption).
Qed.

(** A batch of 12 images is laid out 4 wide and 3 tall. *)
Lemma getFramebufferConfig_tiles_the_batch_witness :
  exists fb,
    getFramebufferConfig 1 16 16 Z.div 32 16
      {| batchSize := 12; imgWidth := 64; imgHeight := 64 |} = Returns fb /\
    miniBatchSize fb = 12 /\
    numImagesWidePerBatch fb * numImagesTallPerBatch fb = 12 /\
    numImagesWidePerMiniBatch fb = numImagesWidePerBatch fb /\
    numImagesTallPerMiniBatch fb = numImagesTallPerBatch fb /\
    1 <= numImagesTallPerBatch fb <= numImagesWidePerBatch fb /\
    (forall w, 0 < w -> (w | 12) -> 12 <= w * w ->
               numImagesWidePerBatch fb <= w) /\
    12 <= numImagesWidePerBatch fb * numImagesWidePerBatch fb /\
    (let '(x, y, _) :=
       getLaunchSize 16 16 1 Z.div
         {| batchSize := 12; imgWidth := 64; imgHeight := 64 |} in
     x = numTilesWide fb /\ y = numTilesTall fb).
Proof.
  apply (getFramebufferConfig_tiles_the_batch 1 16 16 1 Z.div 32 16
           {| batchSize := 12; imgWidth := 64; imgHeight := 64 |});
    cbn [batchSize]; lia.
Defined.

(** *** Buffer sizes *)

(** X11: the byte sizes are 32-bit.  For a frame of fewer than 2^28 pixels the
    frame holds exactly the images of the batch and the output, HDR, normal
    and albedo buffers have 8, 16, 6 and 6 bytes per pixel.  From 2^28 pixels
    on, the HDR size has wrapped: it is less than 16 bytes per pixel. *)
Theorem framebuffer_bytes_are_32_bit d lwX lwY divideRoundUp sR sA cfg fb :
  1 <= d < 2 ^ 32 -> 1 <= batchSize cfg < 2 ^ 32 ->
  1 <= imgWidth cfg -> 1 <= imgHeight cfg ->
  getFramebufferConfig d lwX lwY divideRoundUp sR sA cfg = Returns fb ->
  let pixels := imgWidth cfg * imgHeight cfg * batchSize cfg in
  (pixels < 2 ^ 28 ->
   frameWidth fb * frameHeight fb = pixels /\
   outputBytes fb = 8 * pixels /\ hdrBytes fb = 16 * pixels /\
   normalBytes fb = 6 * pixels /\ albedoBytes fb = 6 * pixels) /\
  (2 ^ 28 <= pixels -> hdrBytes fb < 16 * pixels).
Proof.
  intros Hd Hb HW HH Hret pixels.
  destruct (getFramebufferConfig_returns d lwX lwY divideRoundUp sR sA cfg
              Hd Hb) as (w & t & Hwt & Ht & Hsq & Hmin & Heq).
  rewrite Heq in Hret. injection Hret as <-.
  cbn [frameWidth frameHeight outputBytes hdrBytes normalBytes albedoBytes].
  split.
  - intros Hsmall. subst pixels.
    assert (HWw : 0 <= imgWidth cfg * w < 2 ^ 28) by nia.
    assert (HHt : 0 <= imgHeight cfg * t < 2 ^ 28) by nia.
    rewrite (u32_id (imgWidth cfg * w)) by lia.
    rewrite (u32_id (imgHeight cfg * t)) by lia.
    assert (Hp : imgWidth cfg * w * (imgHeight cfg * t) =
                 imgWidth cfg * imgHeight cfg * batchSize cfg) by nia.
    rewrite Hp.
    set (P := imgWidth cfg * imgHeight cfg * batchSize cfg) in *.
    assert (HP : 0 <= P) by (subst P; nia).
    rewrite (u32_id P) by lia.
    unfold pixel_bytes, sizeof_uint16_t, sizeof_float.
    rewrite !u64_small by lia. rewrite !u32_id by lia. lia.
  - intros Hbig. unfold pixel_bytes.
    match goal with |- u32 ?x < _ => pose proof (Z.mod_pos_bound x (2 ^ 32)
      ltac:(lia)) as Hr; change (x mod 2 ^ 32) with (u32 x) in Hr end.
    lia.
Qed.

(** A batch of four 64 x 64 images. *)
Lemma framebuffer_bytes_are_32_bit_witness :
  exists fb,
    let cfg := {| batchSize := 4; imgWidth := 64; imgHeight := 64 |} in
    getFramebufferConfig 1 16 16 Z.div 32 16 cfg = Returns fb /\
    frameWidth fb * frameHeight fb = 16384 /\ hdrBytes fb = 262144.
Proof.
  eexists. cbv zeta. split; [vm_compute; reflexivity |].
  pose proof (framebuffer_bytes_are_32_bit 1 16 16 Z.div 32 16
                {| batchSize := 4; imgWidth := 64; imgHeight := 64 |} _
                ltac:(lia) ltac:(cbn; lia) ltac:(cbn; lia) ltac:(cbn; lia)
                eq_refl) as [H _].
  cbn [batchSize imgWidth imgHeight] in H.
  destruct (H ltac:(lia)) as (Hf & _ & Hh & _).
  split; [exact Hf | exact Hh].
Defined.

End FramebufferSetup.

(** ** The buffers of a batch and the descriptors that name them
       ([makeFramebuffer], [makePerBatchState], [makeRenderBatch],
        [getOutputPointer], [getAuxiliaryOutputs];
        render.cpp:641-1038, 1434-1479, 2963-2985) *)

Module BatchSetup.

Import FramebufferSetup.

(** A device pointer handed to the caller: null, or the CUDA import
    [exported[i]], which maps the memory of [outputs[backing]] over [bytes]
    bytes. *)
Inductive DevicePtr :=
| Null
| Imported (backing : nat) (bytes : Z)
| PastTheEnd.   (* [exported[i]] with [i] not below [exported.size()] *)

(** The vectors of [FramebufferState]: for every buffer the size it was
    made with. *)
Record FramebufferBuffers := {
  outputs : list Z;                (* outputs and backings grow together *)
  exported : list (nat * Z);       (* the backing imported, and the size *)
  reservoirs : list Z;
  adaptiveReadback : option Z;
  exposureReadback : option Z
}.

(** [outputs.emplace_back(...); backings.emplace_back(...)] for a buffer of
    [bytes] bytes. *)
Definition emplace_output (bytes : Z) (outputs : list Z) : list Z :=
  outputs ++ [bytes].

(** [exported.emplace_back(dev, cfg.gpuID, backings.back(), bytes)] *)
Definition emplace_exported (outputs : list Z) (bytes : Z)
    (exported : list (nat * Z)) : list (nat * Z) :=
  exported ++ [(Nat.pred (length outputs), bytes)].

(** [v[idx]] for an [int] index: nothing for a negative index or one past
    the end. *)
Definition at_index {A} (v : list A) (idx : Z) : option A :=
  if idx <? 0 then None else v !! Z.to_nat idx.

(** The buffers [makeFramebuffer] makes; the six indices it returns with
    them are [Render.makeFramebuffer]. *)
Definition makeFramebuffer_buffers (fb_cfg : FramebufferConfig)
    (auxiliaryOutputs tonemap adaptiveSampling : bool) : FramebufferBuffers :=
  let outputs := emplace_output (outputBytes fb_cfg) [] in
  let exported := emplace_exported outputs (outputBytes fb_cfg) [] in
  let outputs := emplace_output (hdrBytes fb_cfg) outputs in
  let '(outputs, exported) :=
    if auxiliaryOutputs then
      let outputs := emplace_output (normalBytes fb_cfg) outputs in
      let exported := emplace_exported outputs (normalBytes fb_cfg) exported in
      let outputs := emplace_output (albedoBytes fb_cfg) outputs in
      let exported := emplace_exported outputs (albedoBytes fb_cfg) exported in
      (outputs, exported)
    else (outputs, exported) in
  let outputs :=
    if tonemap then emplace_output (illuminanceBytes fb_cfg) outputs
    else outputs in
  let '(outputs, adaptive_readback, exposure_readback) :=
    if adaptiveSampling then
      (emplace_output (adaptiveBytes fb_cfg) outputs,
       Some (adaptiveBytes fb_cfg), Some (illuminanceBytes fb_cfg))
    else (outputs, None, None) in
  let reservoirs := [reservoirBytes fb_cfg; reservoirBytes fb_cfg] in
  {| outputs := outputs; exported := exported; reservoirs := reservoirs;
     adaptiveReadback := adaptive_readback;
     exposureReadback := exposure_readback |}.

(** [num_buffers] and [num_exported_buffers], the capacities reserved. *)
Definition num_buffers (auxiliaryOutputs tonemap adaptiveSampling : bool) : Z :=
  2 + (if auxiliaryOutputs then 2 else 0) + (if tonemap then 1 else 0) +
  (if adaptiveSampling then 1 else 0).

Definition num_exported_buffers (auxiliaryOutputs : bool) : Z :=
  1 + (if auxiliaryOutputs then 2 else 0).

(** [(half * )fb.exported[i].getDevicePointer()] *)
Definition getDevicePointer (fb : FramebufferBuffers) (i : nat) : DevicePtr :=
  match exported fb !! i with
  | Some (backing, bytes) => Imported backing bytes
  | None => PastTheEnd
  end.

(** The three pointers [makePerBatchState] stores in [PerBatchState]. *)
Record OutputPointers := {
  outputBuffer : DevicePtr;
  normalBuffer : DevicePtr;
  albedoBuffer : DevicePtr
}.

Definition makePerBatchState_pointers (fb : FramebufferBuffers)
    (auxiliary_outputs : bool) : OutputPointers :=
  let output_buffer := getDevicePointer fb 0 in
  let '(normal_buffer, albedo_buffer) :=
    if auxiliary_outputs
    then (getDevicePointer fb 1, getDevicePointer fb 2)
    else (Null, Null) in
  {| outputBuffer := output_buffer; normalBuffer := normal_buffer;
     albedoBuffer := albedo_buffer |}.

Definition getOutputPointer (state : OutputPointers) : DevicePtr :=
  outputBuffer state.

Definition getAuxiliaryOutputs (state : OutputPointers)
    : DevicePtr * DevicePtr :=
  (normalBuffer state, albedoBuffer state).

(** *** Buffer descriptors *)

(** The buffer a [VkDescriptorBufferInfo] names. *)
Inductive BufferRef :=
| DevParamBuffer                (* dev_param_buffer.buffer *)
| OutputBuffer (idx : Z)        (* fb.outputs[idx].buffer *)
| ReservoirBuffer (idx : Z)     (* fb.reservoirs[idx].buffer *)
| TileInputBuffer.              (* tile_input_buffer->buffer *)

Record BufferInfo := {
  buffer : BufferRef;
  offset : Z;
  range : Z
}.

Section PerBatch.

(** [sizeof(InputTile)] and [VulkanConfig::max_tiles]. *)
Variables sizeof_InputTile max_tiles : Z.

Variable param_cfg : ParamBuffer.ParamBufferConfig.
Variable fb_cfg : FramebufferConfig.
Variables auxiliary_outputs tonemap adaptive_sampling : bool.

Definition tile_input_bytes : Z := u64 (u64 (sizeof_InputTile * max_tiles) * 2).

(** The [VkDescriptorBufferInfo]s that [makePerBatchState] fills in, in
    source order. *)
Definition buffer_infos : list BufferInfo :=
  let fb := Render.makeFramebuffer auxiliary_outputs tonemap
                                   adaptive_sampling in
  let transform_info :=
    {| buffer := DevParamBuffer; offset := 0;
       range := ParamBuffer.totalTransformBytes param_cfg |} in
  let mat_info :=
    {| buffer := DevParamBuffer;
       offset := ParamBuffer.materialIndicesOffset param_cfg;
       range := ParamBuffer.totalMaterialIndexBytes param_cfg |} in
  let light_info :=
    {| buffer := DevParamBuffer;
       offset := ParamBuffer.lightsOffset param_cfg;
       range := ParamBuffer.totalLightParamBytes param_cfg |} in
  let env_info :=
    {| buffer := DevParamBuffer;
       offset := ParamBuffer.envOffset param_cfg;
       range := ParamBuffer.totalEnvParamBytes param_cfg |} in
  let out_info :=
    {| buffer := OutputBuffer (Render.outputIdx fb); offset := 0;
       range := outputBytes fb_cfg |} in
  let hdr_info :=
    {| buffer := OutputBuffer (Render.hdrIdx fb); offset := 0;
       range := hdrBytes fb_cfg |} in
  let cur_reservoir_info :=
    {| buffer := ReservoirBuffer 0; offset := 0;
       range := reservoirBytes fb_cfg |} in
  let prev_reservoir_info :=
    {| buffer := ReservoirBuffer 1; offset := 0;
       range := reservoirBytes fb_cfg |} in
  [ transform_info; mat_info; light_info; env_info; out_info; hdr_info;
    cur_reservoir_info; prev_reservoir_info ] ++
  (if auxiliary_outputs then
     [ {| buffer := OutputBuffer (Render.normalIdx fb); offset := 0;
          range := normalBytes fb_cfg |};
       {| buffer := OutputBuffer (Render.albedoIdx fb); offset := 0;
          range := albedoBytes fb_cfg |} ]
   else []) ++
  (if tonemap then
     [ {| buffer := OutputBuffer (Render.illuminanceIdx fb); offset := 0;
          range := illuminanceBytes fb_cfg |} ]
   else []) ++
  (if adaptive_sampling then
     [ {| buffer := TileInputBuffer; offset := 0;
          range := tile_input_bytes |};
       {| buffer := OutputBuffer (Render.adaptiveIdx fb); offset := 0;
          range := adaptiveBytes fb_cfg |} ]
   else []).

(** The size each buffer of a batch is made with: the parameter buffer and
    the tile input buffer by [makeRenderBatch], the others by
    [makeFramebuffer]. *)
Definition buffer_size (b : BufferRef) : option Z :=
  let fb := makeFramebuffer_buffers fb_cfg auxiliary_outputs tonemap
                                    adaptive_sampling in
  match b with
  | DevParamBuffer => Some (ParamBuffer.totalParamBytes param_cfg)
  | OutputBuffer idx => at_index (outputs fb) idx
  | ReservoirBuffer idx => at_index (reservoirs fb) idx
  | TileInputBuffer =>
      if adaptive_sampling then Some tile_input_bytes else None
  end.

End PerBatch.

(** *** Indices, pointers and descriptors against the buffers *)

(** X12: each index [makeFramebuffer] returns names the buffer made for that
    role, with the size configured for it, and an index of -1 names none;
    the vectors hold as many buffers as were reserved.  The pointers that
    [getOutputPointer] and [getAuxiliaryOutputs] hand out import exactly the
    output, normal and albedo buffers, over their whole size; without
    auxiliary outputs the two auxiliary pointers are null. *)
Theorem framebuffer_indices_name_their_buffers fb_cfg aux tm ad :
  let fb := makeFramebuffer_buffers fb_cfg aux tm ad in
  let ix := Render.makeFramebuffer aux tm ad in
  let state := makePerBatchState_pointers fb aux in
  (Z.of_nat (length (outputs fb)) = num_buffers aux tm ad /\
   Z.of_nat (length (exported fb)) = num_exported_buffers aux) /\
  (at_index (outputs fb) (Render.outputIdx ix) = Some (outputBytes fb_cfg) /\
   at_index (outputs fb) (Render.hdrIdx ix) = Some (hdrBytes fb_cfg) /\
   at_index (outputs fb) (Render.normalIdx ix) =
     (if aux then Some (normalBytes fb_cfg) else None) /\
   at_index (outputs fb) (Render.albedoIdx ix) =
     (if aux then Some (albedoBytes fb_cfg) else None) /\
   at_index (outputs fb) (Render.illuminanceIdx ix) =
     (if tm then Some (illuminanceBytes fb_cfg) else None) /\
   at_index (outputs fb) (Render.adaptiveIdx ix) =
     (if ad then Some (adaptiveBytes fb_cfg) else None)) /\
  (getOutputPointer state =
     Imported (Z.to_nat (Render.outputIdx ix)) (outputBytes fb_cfg) /\
   getAuxiliaryOutputs state =
     if aux
     then (Imported (Z.to_nat (Render.normalIdx ix)) (normalBytes fb_cfg),
           Imported (Z.to_nat (Render.albedoIdx ix)) (albedoBytes fb_cfg))
     else (Null, Null)).
Proof. destruct aux, tm, ad; cbv zeta; repeat split. Qed.

(** X13: every buffer descriptor that [makePerBatchState] fills in for a batch
    made by [makeRenderBatch] names a buffer that exists and stays within
    it: its offset is not negative and offset plus range does not exceed the
    size the buffer was made with. *)
Theorem descriptors_stay_within_their_buffers
    a sT sL sE mI mL batch_size sizeof_InputTile max_tiles fb_cfg aux tm ad
    info :
  ParamBuffer.params_in_range a sT sL sE mI mL ->
  0 <= batch_size < 2 ^ 32 ->
  let param_cfg := ParamBuffer.getParamBufferConfig a sT sL sE mI mL
                     batch_size in
  In info (buffer_infos sizeof_InputTile max_tiles param_cfg fb_cfg
             aux tm ad) ->
  exists size,
    buffer_size sizeof_InputTile max_tiles param_cfg fb_cfg aux tm ad
      (buffer info) = Some size /\
    0 <= offset info /\ offset info + range info <= size.
Proof.
  intros Hr Hb param_cfg Hin. subst param_cfg.
  rewrite (ParamBuffer.getParamBufferConfig_exact _ _ _ _ _ _ _ Hr Hb) in *.
  destruct Hr as (Ha & HsT & HsL & HsE & HmI & HmL).
  set (T := sT * mI) in *.
  set (M := ParamBuffer.sizeof_uint32_t * mI) in *.
  set (L := sL * mL) in *. set (E := sE * batch_size) in *.
  set (matOff := ParamBuffer.round_up a T) in *.
  set (lightsOff := ParamBuffer.round_up a (matOff + M)) in *.
  set (envOff := ParamBuffer.round_up a (lightsOff + L)) in *.
  assert (HT : 0 < T) by (subst T; nia).
  assert (HM : 0 < M) by (subst M; unfold ParamBuffer.sizeof_uint32_t; lia).
  assert (HL : 0 < L) by (subst L; nia).
  assert (HE : 0 <= E) by (subst E; nia).
  assert (H1 : T <= matOff) by (apply ParamBuffer.round_up_ge; lia).
  assert (H2 : matOff + M <= lightsOff) by (apply ParamBuffer.round_up_ge; lia).
  assert (H3 : lightsOff + L <= envOff) by (apply ParamBuffer.round_up_ge; lia).
  assert (H4 : envOff + E <= ParamBuffer.round_up a (envOff + E))
    by (apply ParamBuffer.round_up_ge; lia).
  unfold buffer_infos in Hin.
  cbn [ParamBuffer.totalTransformBytes ParamBuffer.materialIndicesOffset
       ParamBuffer.totalMaterialIndexBytes ParamBuffer.lightsOffset
       ParamBuffer.totalLightParamBytes ParamBuffer.envOffset
       ParamBuffer.totalEnvParamBytes] in Hin.
  destruct aux, tm, ad; cbn [app In] in Hin;
    repeat (destruct Hin as [<- | Hin]; [| ]); try contradiction;
    cbn [buffer offset range buffer_size ParamBuffer.totalParamBytes];
    (eexists; split; [reflexivity | lia]).
Qed.

Lemma descriptors_stay_within_their_buffers_witness :
  let param_cfg := ParamBuffer.getParamBufferConfig 64 64 32 144 1024 1024 4 in
  let fb_cfg := getProbeFramebufferConfig 32 16 32 32 in
  let info := {| buffer := DevParamBuffer;
                 offset := ParamBuffer.lightsOffset param_cfg;
                 range := ParamBuffer.totalLightParamBytes param_cfg |} in
  exists size,
    buffer_size 16 1024 param_cfg fb_cfg true true true (buffer info)
      = Some size /\
    0 <= offset info /\ offset info + range info <= size.
Proof.
  apply (descriptors_stay_within_their_buffers 64 64 32 144 1024 1024 4
           16 1024 (getProbeFramebufferConfig 32 16 32 32) true true true).
  - unfold ParamBuffer.params_in_range. lia.
  - lia.
  - cbn [buffer_infos app In]. tauto.
Defined.

(** X14: the two ray-tracing descriptor sets of a batch expose the same resource
    under every binding other than the two reservoir bindings. *)
Theorem rt_sets_differ_only_in_the_reservoirs param_cfg fb aux tm ad binding :
  binding <> Render.cur_reservoir_binding ->
  binding <> Render.prev_reservoir_binding ->
  let rtSets := Render.makePerBatchState_rtSets param_cfg fb aux tm ad in
  Render.bound_at rtSets 0 binding = Render.bound_at rtSets 1 binding.
Proof.
  intros Hc Hp rtSets.
  assert (Hsets : exists m0 m1,
    rtSets = [m0; m1] /\
    delete Render.cur_reservoir_binding
      (delete Render.prev_reservoir_binding m0) =
    delete Render.cur_reservoir_binding
      (delete Render.prev_reservoir_binding m1)).
  { subst rtSets. destruct aux, tm, ad;
      do 2 eexists; (split; [vm_compute; reflexivity | vm_compute; reflexivity]). }
  destruct Hsets as (m0 & m1 & -> & Hd).
  unfold Render.bound_at. cbn [Z.to_nat lookup list_lookup mbind option_bind].
  change (m0 !! binding = m1 !! binding).
  rewrite <- (lookup_delete_ne m0 Render.prev_reservoir_binding binding)
    by congruence.
  rewrite <- (lookup_delete_ne _ Render.cur_reservoir_binding binding)
    by congruence.
  rewrite Hd.
  now rewrite !lookup_delete_ne by congruence.
Qed.

Lemma rt_sets_differ_only_in_the_reservoirs_witness :
  let param_cfg := ParamBuffer.getParamBufferConfig 64 64 32 144 1024 1024 2 in
  let fb := Render.makeFramebuffer true true true in
  let rtSets := Render.makePerBatchState_rtSets param_cfg fb true true true in
  Render.bound_at rtSets 0 13 = Render.bound_at rtSets 1 13.
Proof.
  apply (rt_sets_differ_only_in_the_reservoirs
           (ParamBuffer.getParamBufferConfig 64 64 32 144 1024 1024 2)
           (Render.makeFramebuffer true true true) true true true 13);
    unfold Render.cur_reservoir_binding, Render.prev_reservoir_binding; lia.
Defined.

End BatchSetup.

(** ** What a render call records
       ([VulkanBackend::render], [VulkanBackend::waitForBatch];
        render.cpp:1580-2071, 2953-2961) *)

Module RenderRun.

Import Render.

(** [VulkanBackend::waitForBatch]: the fence of the batch is the one made by
    [makePerBatchState], never null. *)
Definition waitForBatch (s : State) : State :=
  emit [WaitForFence; ResetFence] s.

(** *** The commands of one call *)

(** The commands of the lambda [startRenderSetup]. *)
Definition setup_cmds (cfg_ : Config) (frame_counter curBuffer : Z)
    : list Cmd :=
  [ ResetCommandPool; BeginCommandBuffer; BindPipeline RtPipeline;
    PushConstants frame_counter; BindDescriptorSets 0 (RtSet curBuffer);
    BindDescriptorSets 2 EnvMapSet ] ++
  (if RenderMode_eqb (mode cfg_) Biased
   then [BindDescriptorSets 3 ProbeSet] else []) ++
  [ BindDescriptorSets 1 SharedSceneSet ].

(** The commands of the lambda [submitCmd]. *)
Definition submit_cmds (cfg_ : Config) (queue : Z) : list Cmd :=
  [EndCommandBuffer] ++ (if present_ cfg_ then [AcquireNext] else []) ++
  [QueueSubmit queue] ++ (if present_ cfg_ then [Present queue] else []).

(** One TLAS build for every dirty environment among [l], in order. *)
Definition tlas_cmds (es : list Environment) (l : list nat) : list Cmd :=
  i ← l;
  match es !! i with
  | Some env => if isDirty env then [BuildTLAS i] else []
  | None => []
  end.

(** The work items of the first adaptive pass, in the order they are
    written. *)
Definition work_items (adaptive_samples_per_thread : Z) (cfg_ : Config)
    : list InputTile :=
  '(batch_idx, tile_x, tile_y) ← tiles cfg_;
  sample_idx ← sample_offsets adaptive_samples_per_thread cfg_;
  [ {| batchIdx := batch_idx; xOffset := tile_x; yOffset := tile_y;
       sampleOffset := sample_idx |} ].

(** Everything one call of [render] records and submits. *)
Definition render_cmds (adaptive_samples_per_thread : Z) (cfg_ : Config)
    (s : State) : list Cmd :=
  let fb := makeFramebuffer (auxiliaryOutputs cfg_) (tonemap cfg_)
                            (adaptiveSampling cfg_) in
  let next_frame := u32 (frame_counter_ s + batchSize cfg_) in
  let '(x, y, z) := launch_size_ cfg_ in
  setup_cmds cfg_ (frame_counter_ s) (curBuffer s) ++
  tlas_cmds (envs s) (int_range (batchSize cfg_)) ++
  [PipelineBarrier; CopyParams] ++
  (if adaptiveSampling cfg_ then
     [FillBuffer (adaptiveIdx fb); FillBuffer (hdrIdx fb)] ++
     (if tonemap cfg_ then [FillBuffer (illuminanceIdx fb)] else []) ++
     (if auxiliaryOutputs cfg_
      then [FillBuffer (normalIdx fb); FillBuffer (albedoIdx fb)] else []) ++
     [ PipelineBarrier;
       Dispatch (Z.of_nat (length (work_items adaptive_samples_per_thread
                                                cfg_))) 1 1;
       PipelineBarrier; CopyToReadback (adaptiveIdx fb);
       CopyToReadback (illuminanceIdx fb) ] ++
     submit_cmds cfg_ (cur_queue_ s) ++ [WaitForFence; ResetFence] ++
     setup_cmds cfg_ next_frame (curBuffer s)
   else [PipelineBarrier; Dispatch x y z]) ++
  (if denoise cfg_ && RenderMode_eqb (mode cfg_) PathTracer then
     submit_cmds cfg_ (cur_queue_ s) ++ [WaitForFence; ResetFence; Denoise] ++
     setup_cmds cfg_ next_frame (curBuffer s)
   else []) ++
  (if tonemap cfg_ then
     [ PipelineBarrier; BindPipeline ExposurePipeline;
       BindDescriptorSets 0 ExposureSet; Dispatch 1 1 (batchSize cfg_);
       PipelineBarrier; BindPipeline TonemapPipeline;
       BindDescriptorSets 0 TonemapSet; Dispatch x y z ]
   else []) ++
  submit_cmds cfg_ (cur_queue_ s).

(** How many times a call submits its command buffer. *)
Definition submits_per_call (cfg_ : Config) : nat :=
  (1 + (if adaptiveSampling cfg_ then 1 else 0) +
   (if denoise cfg_ && RenderMode_eqb (mode cfg_) PathTracer then 1 else 0))%nat.

(** *** The life cycle of the command buffer and of the fence *)

Inductive Fence := Unsignaled | InFlight | Signaled.
Inductive CommandBuffer := Initial | Recording | Executable | InExecution.

(** The rules of the device for the one command buffer and the one fence of
    a batch: recording happens between begin and end; only an ended buffer
    is submitted, with an unsignaled fence; the pool is not reset, and the
    fence is neither reset nor submitted again, while a submission is in
    flight; waiting on a fence that no submission will signal never
    returns.  The denoiser, handed the pool, the buffer and the fence, is
    taken to leave them as it needs them: not in flight. *)
Definition device_step (st : CommandBuffer * Fence) (c : Cmd)
    : option (CommandBuffer * Fence) :=
  let '(cb, fence) := st in
  match c with
  | ResetCommandPool =>
      match cb with InExecution => None | _ => Some (Initial, fence) end
  | BeginCommandBuffer =>
      match cb with Initial => Some (Recording, fence) | _ => None end
  | EndCommandBuffer =>
      match cb with Recording => Some (Executable, fence) | _ => None end
  | QueueSubmit _ =>
      match cb, fence with
      | Executable, Unsignaled => Some (InExecution, InFlight)
      | _, _ => None
      end
  | WaitForFence =>
      match fence with
      | Unsignaled => None
      | _ => Some (match cb with InExecution => Executable | _ => cb end,
                   Signaled)
      end
  | ResetFence =>
      match fence with InFlight => None | _ => Some (cb, Unsignaled) end
  | Denoise =>
      match cb, fence with
      | InExecution, _ | _, InFlight => None
      | _, _ => Some (Executable, Unsignaled)
      end
  | AcquireNext | Present _ => Some st
  | BindPipeline _ | PushConstants _ | BindDescriptorSets _ _ | BuildTLAS _
  | PipelineBarrier | CopyParams | FillBuffer _ | CopyToReadback _
  | Dispatch _ _ _ =>
      match cb with Recording => Some st | _ => None end
  end.

Definition device_run (st : CommandBuffer * Fence) (cs : list Cmd)
    : option (CommandBuffer * Fence) :=
  foldl (fun st c => st ≫= fun st => device_step st c) (Some st) cs.

(** A batch whose command buffer is not in flight and whose fence is
    unsignaled: one just made, or one waited for. *)
Definition idle (st : CommandBuffer * Fence) : Prop :=
  fst st <> InExecution /\ snd st = Unsignaled.

(** The tile table after the work items [items] were written from index
    [i] on. *)
Fixpoint write_table (items : list InputTile) (i : Z)
    (table : gmap Z InputTile) : gmap Z InputTile :=
  match items with
  | [] => table
  | item :: items => write_table items (i + 1) (<[i := item]> table)
  end.

(** The environments after the TLAS loop and the packing loop of a call on
    a batch of [n] environments. *)
Definition envs_after_render (n : Z) (es : list Environment)
    : list Environment :=
  imap (fun i env => if decide (i ∈ int_range n)
                     then save_camera (rebuilt env) else env) es.

(** *** The loops of [render], as updates of the state *)

Lemma state_eta s :
  s = {| frame_counter_ := frame_counter_ s; cur_queue_ := cur_queue_ s;
         curBuffer := curBuffer s; envs := envs s;
         tileInputPtr := tileInputPtr s; cur_tile_idx := cur_tile_idx s;
         trace := trace s; numSubmits := numSubmits s |}.
Proof. now destruct s. Qed.

Lemma emit_nil s : emit [] s = s.
Proof. destruct s. unfold emit. cbn. now rewrite app_nil_r. Qed.

Lemma emit_emit cs1 cs2 s : emit cs2 (emit cs1 s) = emit (cs1 ++ cs2) s.
Proof. unfold emit. cbn. now rewrite app_assoc. Qed.

Lemma set_envs_same s : set_envs (envs s) s = s.
Proof. now destruct s. Qed.

Lemma build_loop_eq l : NoDup l -> forall s,
  exists es, foldl build_if_dirty s l =
             set_envs es (emit (tlas_cmds (envs s) l) s).
Proof.
  induction l as [| i l IH]; intros Hnd s.
  - exists (envs s). cbn. now rewrite emit_nil, set_envs_same.
  - apply NoDup_cons in Hnd as [Hi Hnd].
    cbn [foldl]. destruct (IH Hnd (build_if_dirty s i)) as [es ->].
    exists es.
    assert (Hsame : tlas_cmds (envs (build_if_dirty s i)) l =
                    tlas_cmds (envs s) l).
    { unfold tlas_cmds. apply Forall_bind_ext, Forall_forall.
      intros j Hj. rewrite envs_build_if_dirty.
      rewrite decide_False; [reflexivity |]. intros ->. contradiction. }
    rewrite Hsame.
    change (tlas_cmds (envs s) (i :: l)) with
      (match envs s !! i with
       | Some env => if isDirty env then [BuildTLAS i] else []
       | None => []
       end ++ tlas_cmds (envs s) l).
    unfold build_if_dirty.
    destruct (envs s !! i) as [env |]; [destruct (isDirty env) |].
    + unfold set_envs, emit. cbn. now rewrite <- app_assoc.
    + reflexivity.
    + reflexivity.
Qed.

Lemma tlas_build_loop_eq cfg_ s :
  tlas_build_loop cfg_ s =
  set_envs (envs (tlas_build_loop cfg_ s))
           (emit (tlas_cmds (envs s) (int_range (batchSize cfg_))) s).
Proof.
  unfold tlas_build_loop, int_range.
  destruct (build_loop_eq _ (NoDup_seq 0 (Z.to_nat (to_int (batchSize cfg_)))) s)
    as [es Hes].
  rewrite Hes at 1. now rewrite Hes.
Qed.

Lemma pack_envs_eq cfg_ s :
  pack_envs cfg_ s = set_envs (envs (pack_envs cfg_ s)) s.
Proof.
  unfold pack_envs. generalize (int_range (batchSize cfg_)) as l.
  intros l. revert s. induction l as [| i l IH]; intros s.
  - cbn. now rewrite set_envs_same.
  - cbn [foldl]. rewrite IH. reflexivity.
Qed.

(** Writing a list of work items: they go to consecutive entries of the
    tile table, from [cur_tile_idx] on. *)
Definition write_items (items : list InputTile) (s : State) : State :=
  foldl (fun s item => writeTile (batchIdx item) (xOffset item) (yOffset item)
                                 (sampleOffset item) s) s items.

Lemma write_items_eq items : forall s,
  write_items items s =
  set_cur_tile_idx (cur_tile_idx s + Z.of_nat (length items))
    (set_tileInputPtr (write_table items (cur_tile_idx s) (tileInputPtr s)) s).
Proof.
  induction items as [| item items IH]; intros s.
  - cbn. rewrite Z.add_0_r. now destruct s.
  - unfold write_items in *. cbn [foldl]. rewrite IH.
    destruct item. unfold writeTile, set_cur_tile_idx, set_tileInputPtr.
    cbn. f_equal. lia.
Qed.

Lemma foldl_bind {A B S} (f : S -> B -> S) (g : A -> list B) (l : list A) :
  forall s, foldl f s (l ≫= g) = foldl (fun s a => foldl f s (g a)) s l.
Proof.
  induction l as [| a l IH]; intros s; [reflexivity |].
  cbn [foldl]. rewrite <- IH.
  change ((a :: l) ≫= g) with (g a ++ (l ≫= g)). now rewrite foldl_app.
Qed.

Lemma foldl_same {A S} (f g : S -> A -> S) (l : list A) :
  (forall s a, f s a = g s a) -> forall s, foldl f s l = foldl g s l.
Proof.
  intros Hfg. induction l as [| a l IH]; intros s; [reflexivity |].
  cbn [foldl]. now rewrite Hfg, IH.
Qed.

Lemma for_each_tile_write_tile_samples aspt cfg_ s :
  for_each_tile cfg_ (write_tile_samples aspt cfg_) s =
  write_items (work_items aspt cfg_) s.
Proof.
  unfold for_each_tile, write_items, work_items.
  rewrite foldl_bind. apply foldl_same.
  intros s0 [[b x] y]. unfold write_tile_samples.
  rewrite foldl_bind. reflexivity.
Qed.

(** A per-tile step that writes the work items of every tile again, as the
    test of [processAdaptiveTile] would for tiles that never converge:
    every loop body then writes as many work items as the first pass. *)
Lemma reemitting_step_writes_every_tile {float} (gpu : nat -> Readback float)
    aspt cfg_ s :
  cur_tile_idx
    (process_tiles gpu cfg_ (fun _ => write_tile_samples aspt cfg_) s) =
  Z.of_nat (length (work_items aspt cfg_)).
Proof.
  unfold process_tiles.
  rewrite for_each_tile_write_tile_samples, write_items_eq.
  reflexivity.
Qed.

(** With that step, the loop of the example batch is left at the cap, after
    10000 bodies. *)
Example reemitting_step_runs_to_the_cap :
  let process := fun _ : Readback Q =>
                   write_tile_samples 4 example_adaptive_cfg in
  let fb := makeFramebuffer false true true in
  let r := adaptive_loop example_readback example_adaptive_cfg process fb
             (Z.to_nat max_adaptive_iters) example_batch in
  adaptive_for example_readback example_adaptive_cfg process fb
    (S (Z.to_nat max_adaptive_iters)) 0 example_batch = Some r /\
  iterations r = Z.to_nat max_adaptive_iters /\
  exit r = CapReached.
Proof.
  cbv zeta. split.
  - apply adaptive_for_ends; [unfold max_adaptive_iters |]; lia.
  - rewrite adaptive_loop_reaches_cap; [split; reflexivity |].
    intros k _. unfold num_tiles_in.
    rewrite reemitting_step_writes_every_tile.
    vm_compute. discriminate.
Qed.

(** An entry of the tile table after work items were written. *)
Lemma lookup_write_table items : forall i table j,
  write_table items i table !! j =
  if decide (i <= j < i + Z.of_nat (length items))
  then items !! Z.to_nat (j - i) else table !! j.
Proof.
  induction items as [| item items IH]; intros i table j.
  - cbn [write_table length]. rewrite decide_False by lia. reflexivity.
  - cbn [write_table length]. rewrite IH.
    destruct (decide (i + 1 <= j < i + 1 + Z.of_nat (length items)))
      as [Hin | Hout].
    + rewrite decide_True by lia.
      replace (Z.to_nat (j - i)) with (S (Z.to_nat (j - (i + 1)))) by lia.
      reflexivity.
    + destruct (decide (j = i)) as [-> | Hne].
      * rewrite decide_True by lia. rewrite lookup_insert_eq.
        now rewrite Z.sub_diag.
      * rewrite decide_False by lia. now rewrite lookup_insert_ne.
Qed.

(** *** One call, as an update of the state *)

Section Call.

Context {float : Type} {float_ops : FloatOps float}.
Variable adaptive_samples_per_thread : Z.
Variable gpu : nat -> Readback float.
Variable cfg_ : Config.

Local Abbreviation render := (render adaptive_samples_per_thread gpu cfg_).

(** The convergence loop runs one body, which writes no work item. *)
Lemma convergence_loop_final fb s :
  final (convergence_loop adaptive_samples_per_thread gpu cfg_ fb s) =
  set_frame_counter (u32 (frame_counter_ s + batchSize cfg_))
    (set_cur_tile_idx 0 s).
Proof.
  unfold convergence_loop.
  replace (Z.to_nat max_adaptive_iters) with (S (Z.to_nat 9999))
    by (unfold max_adaptive_iters; lia).
  cbn [adaptive_loop]. unfold for_each_tile.
  rewrite foldl_unchanged by (intros s0 [[b x] y]; reflexivity).
  reflexivity.
Qed.

(** The state when the sampling pass of [render] is over. *)
Definition sampled (s : State) : State :=
  let fb := makeFramebuffer (auxiliaryOutputs cfg_) (tonemap cfg_)
                            (adaptiveSampling cfg_) in
  let x := emit [CopyParams]
             (pack_envs cfg_
                (emit [PipelineBarrier]
                   (tlas_build_loop cfg_ (startRenderSetup cfg_ s)))) in
  if adaptiveSampling cfg_ then
    let y := adaptive_first_pass adaptive_samples_per_thread cfg_ fb x in
    startRenderSetup cfg_
      (set_frame_counter (u32 (frame_counter_ y + batchSize cfg_))
         (set_cur_tile_idx 0 y))
  else
    let '(lx, ly, lz) := launch_size_ cfg_ in
    let x := emit [PipelineBarrier; Dispatch lx ly lz] x in
    set_frame_counter (u32 (frame_counter_ x + batchSize cfg_)) x.

Lemma render_unfold s : render s = after_sampling cfg_ (sampled s).
Proof.
  unfold Render.render, sampled.
  destruct (adaptiveSampling cfg_).
  - now rewrite convergence_loop_final.
  - reflexivity.
Qed.

(** Computes one field of the state after [render]. *)
Ltac render_field :=
  rewrite render_unfold; unfold sampled, after_sampling, render_cmds,
    submits_per_call;
  destruct (launch_size_ cfg_) as [[lx ly] lz];
  destruct (adaptiveSampling cfg_) eqn:Had;
  [ unfold adaptive_first_pass;
    rewrite for_each_tile_write_tile_samples, write_items_eq | ];
  rewrite (pack_envs_eq cfg_);
  rewrite (tlas_build_loop_eq cfg_ (startRenderSetup cfg_ _));
  destruct (denoise cfg_ && RenderMode_eqb (mode cfg_) PathTracer),
    (tonemap cfg_);
  cbn [trace emit set_envs set_frame_counter set_cur_tile_idx
       set_tileInputPtr startRenderSetup submitCmd count_submit flip_buffers
       wait_and_reset adaptiveReadback frame_counter_ cur_queue_ curBuffer
       envs tileInputPtr cur_tile_idx numSubmits Z.add];
  unfold setup_cmds, submit_cmds;
  rewrite <- ?app_assoc; try reflexivity; try lia.

(** The state a call of [render] leaves, field by field. *)
Lemma render_eq s :
  render s =
  {| frame_counter_ := u32 (frame_counter_ s + batchSize cfg_);
     cur_queue_ := Z.land (cur_queue_ s + 1) 1;
     curBuffer := Z.land (curBuffer s + 1) 1;
     envs := envs (render s);
     tileInputPtr :=
       if adaptiveSampling cfg_
       then write_table (work_items adaptive_samples_per_thread cfg_) 0
                        (tileInputPtr s)
       else tileInputPtr s;
     cur_tile_idx := if adaptiveSampling cfg_ then 0 else cur_tile_idx s;
     trace := trace s ++ render_cmds adaptive_samples_per_thread cfg_ s;
     numSubmits := (numSubmits s + submits_per_call cfg_)%nat |}.
Proof.
  etransitivity; [apply state_eta |].
  f_equal; render_field.
Qed.

(** The commands recorded between two states of a batch. *)
Definition recorded (s s' : State) : list Cmd :=
  drop (length (trace s)) (trace s').

Lemma recorded_render s :
  recorded s (render s) = render_cmds adaptive_samples_per_thread cfg_ s.
Proof.
  unfold recorded. rewrite render_eq. cbn [trace].
  apply drop_app_length.
Qed.

Lemma recorded_waitForBatch_render s :
  recorded s (waitForBatch (render s)) =
  render_cmds adaptive_samples_per_thread cfg_ s ++ [WaitForFence; ResetFence].
Proof.
  unfold recorded, waitForBatch. rewrite render_eq. cbn [trace emit].
  rewrite <- app_assoc. apply drop_app_length.
Qed.

Lemma recorded_render_render s :
  recorded s (render (render s)) =
  render_cmds adaptive_samples_per_thread cfg_ s ++
  render_cmds adaptive_samples_per_thread cfg_ (render s).
Proof.
  unfold recorded. rewrite (render_eq (render s)). cbn [trace].
  rewrite (render_eq s) at 1. cbn [trace].
  rewrite <- app_assoc. apply drop_app_length.
Qed.


End Call.


(** *** The device rules along a call *)

Lemma device_run_app st cs1 cs2 :
  device_run st (cs1 ++ cs2) = device_run st cs1 ≫= fun st => device_run st cs2.
Proof.
  unfold device_run. rewrite foldl_app.
  destruct (foldl _ (Some st) cs1) as [st' |]; [reflexivity |].
  cbn. induction cs2 as [| c cs2 IH]; [reflexivity | exact IH].
Qed.

Lemma device_run_tlas f es l :
  device_run (Recording, f) (tlas_cmds es l) = Some (Recording, f).
Proof.
  induction l as [| i l IH]; [reflexivity |].
  change (tlas_cmds es (i :: l)) with
    (match es !! i with
     | Some env => if isDirty env then [BuildTLAS i] else []
     | None => []
     end ++ tlas_cmds es l).
  rewrite device_run_app.
  destruct (es !! i) as [env |]; [destruct (isDirty env) |]; exact IH.
Qed.

Lemma device_run_setup cfg_ fc cb c :
  c <> InExecution ->
  device_run (c, Unsignaled) (setup_cmds cfg_ fc cb) =
  Some (Recording, Unsignaled).
Proof.
  intros Hc. unfold setup_cmds.
  destruct (RenderMode_eqb (mode cfg_) Biased), c;
    try contradiction; reflexivity.
Qed.

Lemma device_run_submit cfg_ q :
  device_run (Recording, Unsignaled) (submit_cmds cfg_ q) =
  Some (InExecution, InFlight).
Proof. unfold submit_cmds. now destruct (present_ cfg_). Qed.

(** From an idle batch, the commands of one call are all allowed, and the
    call returns with its last submission in flight. *)
Lemma device_run_render aspt cfg_ s c :
  c <> InExecution ->
  device_run (c, Unsignaled) (render_cmds aspt cfg_ s) =
  Some (InExecution, InFlight).
Proof.
  intros Hc. unfold render_cmds.
  destruct (launch_size_ cfg_) as [[lx ly] lz].
  rewrite device_run_app, device_run_setup by exact Hc. cbn [mbind option_bind].
  rewrite device_run_app, device_run_tlas. cbn [mbind option_bind].
  rewrite device_run_app. cbn [device_run foldl device_step mbind option_bind].
  change (foldl _ (Some ?st) ?cs) with (device_run st cs).
  assert (Hsampling : forall cs,
    device_run (Recording, Unsignaled) cs = Some (InExecution, InFlight) ->
    device_run (Recording, Unsignaled)
      ((if adaptiveSampling cfg_ then
          [FillBuffer (adaptiveIdx (makeFramebuffer (auxiliaryOutputs cfg_)
                         (tonemap cfg_) (adaptiveSampling cfg_)));
           FillBuffer (hdrIdx (makeFramebuffer (auxiliaryOutputs cfg_)
                         (tonemap cfg_) (adaptiveSampling cfg_)))] ++
          (if tonemap cfg_
           then [FillBuffer (illuminanceIdx (makeFramebuffer
                   (auxiliaryOutputs cfg_) (tonemap cfg_)
                   (adaptiveSampling cfg_)))]
           else []) ++
          (if auxiliaryOutputs cfg_
           then [FillBuffer (normalIdx (makeFramebuffer
                   (auxiliaryOutputs cfg_) (tonemap cfg_)
                   (adaptiveSampling cfg_)));
                 FillBuffer (albedoIdx (makeFramebuffer
                   (auxiliaryOutputs cfg_) (tonemap cfg_)
                   (adaptiveSampling cfg_)))]
           else []) ++
          [PipelineBarrier;
           Dispatch (Z.of_nat (length (work_items aspt cfg_))) 1 1;
           PipelineBarrier;
           CopyToReadback (adaptiveIdx (makeFramebuffer
             (auxiliaryOutputs cfg_) (tonemap cfg_) (adaptiveSampling cfg_)));
           CopyToReadback (illuminanceIdx (makeFramebuffer
             (auxiliaryOutputs cfg_) (tonemap cfg_)
             (adaptiveSampling cfg_)))] ++
          submit_cmds cfg_ (cur_queue_ s) ++ [WaitForFence; ResetFence] ++
          setup_cmds cfg_ (u32 (frame_counter_ s + batchSize cfg_))
                     (curBuffer s)
        else [PipelineBarrier; Dispatch lx ly lz]) ++ cs) =
    Some (InExecution, InFlight)).
  { intros cs Hcs. rewrite device_run_app.
    destruct (adaptiveSampling cfg_).
    - assert (Hfirst : forall fills,
        device_run (Recording, Unsignaled) fills =
          Some (Recording, Unsignaled) ->
        device_run (Recording, Unsignaled)
          (fills ++ submit_cmds cfg_ (cur_queue_ s) ++
           [WaitForFence; ResetFence] ++
           setup_cmds cfg_ (u32 (frame_counter_ s + batchSize cfg_))
                      (curBuffer s)) = Some (Recording, Unsignaled)).
      { intros fills Hf. rewrite device_run_app, Hf. cbn [mbind option_bind].
        rewrite device_run_app, device_run_submit. cbn [mbind option_bind].
        rewrite device_run_app.
        cbn [device_run foldl device_step mbind option_bind].
        change (foldl _ (Some ?st) ?cs) with (device_run st cs).
        now apply device_run_setup. }
      rewrite !app_assoc. rewrite <- (app_assoc _ (submit_cmds _ _)).
      rewrite <- (app_assoc _ (submit_cmds _ _ ++ _)).
      rewrite <- !(app_assoc (submit_cmds _ _)).
      rewrite Hfirst; [exact Hcs |].
      now destruct (tonemap cfg_), (auxiliaryOutputs cfg_).
    - exact Hcs. }
  apply Hsampling. rewrite device_run_app.
  assert (Hden :
    device_run (Recording, Unsignaled)
      (if denoise cfg_ && RenderMode_eqb (mode cfg_) PathTracer
       then submit_cmds cfg_ (cur_queue_ s) ++
            [WaitForFence; ResetFence; Denoise] ++
            setup_cmds cfg_ (u32 (frame_counter_ s + batchSize cfg_))
                       (curBuffer s)
       else []) = Some (Recording, Unsignaled)).
  { destruct (denoise cfg_ && RenderMode_eqb (mode cfg_) PathTracer);
      [| reflexivity].
    rewrite device_run_app, device_run_submit. cbn [mbind option_bind].
    rewrite device_run_app.
    cbn [device_run foldl device_step mbind option_bind].
    change (foldl _ (Some ?st) ?cs) with (device_run st cs).
    now apply device_run_setup. }
  rewrite Hden. cbn [mbind option_bind].
  rewrite device_run_app.
  assert (Htm :
    device_run (Recording, Unsignaled)
      (if tonemap cfg_
       then [PipelineBarrier; BindPipeline ExposurePipeline;
             BindDescriptorSets 0 ExposureSet; Dispatch 1 1 (batchSize cfg_);
             PipelineBarrier; BindPipeline TonemapPipeline;
             BindDescriptorSets 0 TonemapSet; Dispatch lx ly lz]
       else []) = Some (Recording, Unsignaled))
    by now destruct (tonemap cfg_).
  rewrite Htm. cbn [mbind option_bind].
  apply device_run_submit.
Qed.

Lemma device_run_stuck cs :
  foldl (fun st c => st ≫= fun st => device_step st c) None cs = None.
Proof. induction cs as [| c cs IH]; [reflexivity | exact IH]. Qed.

(** The buffers of [fb.outputs] that [render] hands to the denoiser. *)
Definition denoise_inputs (cfg_ : Config) : list Z :=
  let fb := makeFramebuffer (auxiliaryOutputs cfg_) (tonemap cfg_)
                            (adaptiveSampling cfg_) in
  if denoise cfg_ && RenderMode_eqb (mode cfg_) PathTracer
  then [hdrIdx fb; albedoIdx fb; normalIdx fb] else [].

(** The index into [fb.outputs] that a recorded command evaluates. *)
Definition outputs_used (c : Cmd) : list Z :=
  match c with
  | FillBuffer idx | CopyToReadback idx => [idx]
  | _ => []
  end.

Lemma outputs_used_tlas es l : tlas_cmds es l ≫= outputs_used = [].
Proof.
  induction l as [| i l IH]; [reflexivity |].
  change (tlas_cmds es (i :: l)) with
    (match es !! i with
     | Some env => if isDirty env then [BuildTLAS i] else []
     | None => []
     end ++ tlas_cmds es l).
  rewrite bind_app, IH.
  now destruct (es !! i) as [env |]; [destruct (isDirty env) |].
Qed.

Lemma outputs_used_setup cfg_ fc cb : setup_cmds cfg_ fc cb ≫= outputs_used = [].
Proof. unfold setup_cmds. now destruct (RenderMode_eqb (mode cfg_) Biased). Qed.

Lemma outputs_used_submit cfg_ q : submit_cmds cfg_ q ≫= outputs_used = [].
Proof. unfold submit_cmds. now destruct (present_ cfg_). Qed.

Lemma outputs_used_render_cmds aspt cfg_ s :
  render_cmds aspt cfg_ s ≫= outputs_used =
  let fb := makeFramebuffer (auxiliaryOutputs cfg_) (tonemap cfg_)
                            (adaptiveSampling cfg_) in
  if adaptiveSampling cfg_
  then [adaptiveIdx fb; hdrIdx fb] ++
       (if tonemap cfg_ then [illuminanceIdx fb] else []) ++
       (if auxiliaryOutputs cfg_ then [normalIdx fb; albedoIdx fb] else []) ++
       [adaptiveIdx fb; illuminanceIdx fb]
  else [].
Proof.
  unfold render_cmds. destruct (launch_size_ cfg_) as [[lx ly] lz].
  rewrite !bind_app, outputs_used_setup, outputs_used_tlas,
    outputs_used_submit.
  assert (Hden :
    (if denoise cfg_ && RenderMode_eqb (mode cfg_) PathTracer
     then submit_cmds cfg_ (cur_queue_ s) ++
          [WaitForFence; ResetFence; Denoise] ++
          setup_cmds cfg_ (u32 (frame_counter_ s + batchSize cfg_))
                     (curBuffer s)
     else []) ≫= outputs_used = []).
  { destruct (denoise cfg_ && RenderMode_eqb (mode cfg_) PathTracer);
      [| reflexivity].
    now rewrite !bind_app, outputs_used_setup, outputs_used_submit. }
  rewrite Hden.
  assert (Htm :
    (if tonemap cfg_
     then [PipelineBarrier; BindPipeline ExposurePipeline;
           BindDescriptorSets 0 ExposureSet; Dispatch 1 1 (batchSize cfg_);
           PipelineBarrier; BindPipeline TonemapPipeline;
           BindDescriptorSets 0 TonemapSet; Dispatch lx ly lz]
     else []) ≫= outputs_used = []) by now destruct (tonemap cfg_).
  rewrite Htm. cbn [app]. rewrite !app_nil_r.
  destruct (adaptiveSampling cfg_); [| reflexivity].
  destruct (tonemap cfg_), (auxiliaryOutputs cfg_); cbn [app];
    repeat (rewrite bind_cons || rewrite bind_app);
    rewrite outputs_used_setup, outputs_used_submit; reflexivity.
Qed.

Section Protocol.

Context {float : Type} {float_ops : FloatOps float}.
Variable adaptive_samples_per_thread : Z.
Variable gpu : nat -> Readback float.
Variable cfg_ : Config.

Local Abbreviation render := (render adaptive_samples_per_thread gpu cfg_).

(** X5: a call of [render] on an idle batch keeps to the rules of the device,
    and returns with its last submission in flight, not waited for.
    [waitForBatch] after it makes the batch idle again, so render and wait
    can alternate for ever from a fresh batch.  A second call of [render]
    without the wait breaks the rules: it resets the command pool of a
    command buffer that is still executing. *)
Theorem render_keeps_the_device_rules s c :
  c <> InExecution ->
  device_run (c, Unsignaled) (recorded s (render s)) =
    Some (InExecution, InFlight) /\
  device_run (c, Unsignaled) (recorded s (waitForBatch (render s))) =
    Some (Executable, Unsignaled) /\
  device_run (c, Unsignaled) (recorded s (render (render s))) = None /\
  (forall n frame_counter cur_queue es,
     exists c',
       c' <> InExecution /\
       device_run (Initial, Unsignaled)
         (trace (Nat.iter n (fun s => waitForBatch (render s))
                   (makeRenderBatch frame_counter cur_queue es))) =
       Some (c', Unsignaled)).
Proof.
  intros Hc. split; [| split; [| split]].
  - rewrite recorded_render. now apply device_run_render.
  - rewrite recorded_waitForBatch_render, device_run_app.
    now rewrite device_run_render.
  - rewrite recorded_render_render, device_run_app.
    rewrite device_run_render by exact Hc. cbn [mbind option_bind].
    unfold render_cmds. destruct (launch_size_ cfg_) as [[lx ly] lz].
    unfold setup_cmds. cbn [app device_run foldl device_step mbind option_bind].
    apply device_run_stuck.
  - intros n fc q es. induction n as [| n (c' & Hc' & IH)].
    + exists Initial. split; [discriminate | reflexivity].
    + exists Executable. split; [discriminate |].
      change (Nat.iter (S n) ?f ?x) with (f (Nat.iter n f x)). cbv beta.
      set (s0 := Nat.iter n _ _) in *.
      unfold waitForBatch. rewrite render_eq. cbn [trace emit].
      rewrite <- app_assoc, device_run_app, IH. cbn [mbind option_bind].
      rewrite device_run_app, device_run_render by exact Hc'.
      reflexivity.
Qed.

(** X6: every index into [fb.outputs] that a call of [render] evaluates, in a
    recorded fill or copy or for the denoiser, names a buffer of the
    framebuffer exactly when adaptive sampling comes with tonemapping and
    denoising with auxiliary outputs; otherwise the call evaluates
    [fb.outputs[-1]]. *)
Theorem render_indexes_existing_outputs fb_cfg s :
  let fb := BatchSetup.makeFramebuffer_buffers fb_cfg (auxiliaryOutputs cfg_)
              (tonemap cfg_) (adaptiveSampling cfg_) in
  (forall idx,
     In idx ((recorded s (render s) ≫= outputs_used) ++ denoise_inputs cfg_) ->
     is_Some (BatchSetup.at_index (BatchSetup.outputs fb) idx)) <->
  (adaptiveSampling cfg_ = true -> tonemap cfg_ = true) /\
  (denoise cfg_ && RenderMode_eqb (mode cfg_) PathTracer = true ->
   auxiliaryOutputs cfg_ = true).
Proof.
  intros fb. subst fb. rewrite recorded_render, outputs_used_render_cmds.
  unfold denoise_inputs.
  destruct (adaptiveSampling cfg_), (tonemap cfg_), (auxiliaryOutputs cfg_),
    (denoise cfg_ && RenderMode_eqb (mode cfg_) PathTracer);
    cbv zeta; cbn [app makeFramebuffer adaptiveIdx hdrIdx illuminanceIdx
                   normalIdx albedoIdx Z.add];
    (split;
     [ intros H; split; intros Ht; try reflexivity; try discriminate Ht;
       exfalso;
       (destruct (H (-1)) as [x Hx]; [cbn [In]; tauto | discriminate Hx])
     | intros [H1 H2] idx Hin;
       try (specialize (H1 eq_refl); discriminate H1);
       try (specialize (H2 eq_refl); discriminate H2);
       cbn [In] in Hin;
       repeat (destruct Hin as [<- | Hin]; [eexists; reflexivity |]);
       contradiction ]).
Qed.

End Protocol.

Lemma render_keeps_the_device_rules_witness :
  let render := Render.render (float_ops := rational_ops) 4 example_readback
                  example_cfg in
  device_run (Initial, Unsignaled)
    (recorded example_batch (render example_batch)) =
    Some (InExecution, InFlight) /\
  device_run (Initial, Unsignaled)
    (recorded example_batch (waitForBatch (render example_batch))) =
    Some (Executable, Unsignaled) /\
  device_run (Initial, Unsignaled)
    (recorded example_batch (render (render example_batch))) = None.
Proof.
  destruct (render_keeps_the_device_rules (float_ops := rational_ops) 4
              example_readback example_cfg example_batch Initial
              ltac:(discriminate)) as (H1 & H2 & H3 & _).
  exact (conj H1 (conj H2 H3)).
Defined.

(** *** The environments and the tile table after a call *)

Lemma length_bind_const {A B} (g : A -> list B) (n : nat) (l : list A) :
  (forall a, length (g a) = n) -> length (l ≫= g) = (length l * n)%nat.
Proof.
  intros Hg. induction l as [| a l IH]; [reflexivity |].
  change ((a :: l) ≫= g) with (g a ++ (l ≫= g)).
  rewrite length_app, Hg, IH. cbn. lia.
Qed.

Lemma length_int_range n :
  0 <= n < 2 ^ 31 -> length (int_range n) = Z.to_nat n.
Proof.
  intros Hn. unfold int_range, to_int. rewrite length_seq.
  destruct (Z.ltb_spec n (2 ^ 31)); [reflexivity | lia].
Qed.

Lemma elem_of_int_range_Z n (v : nat) :
  0 <= n < 2 ^ 31 -> v ∈ int_range n <-> 0 <= Z.of_nat v < n.
Proof.
  intros Hn. rewrite elem_of_int_range. unfold to_int.
  destruct (Z.ltb_spec n (2 ^ 31)); lia.
Qed.

Section AfterCall.

Context {float : Type} {float_ops : FloatOps float}.
Variable adaptive_samples_per_thread : Z.
Variable gpu : nat -> Readback float.
Variable cfg_ : Config.

Local Abbreviation render := (render adaptive_samples_per_thread gpu cfg_).

(** X7: after a call of [render], every environment of the batch has had its
    TLAS built if it was dirty, is clean, and has the camera of this call
    saved as its previous camera; environments past the batch size are left
    as they were. *)
Theorem render_saves_the_cameras s :
  envs (render s) = envs_after_render (batchSize cfg_) (envs s) /\
  (forall i env' , envs (render s) !! i = Some env' ->
     i ∈ int_range (batchSize cfg_) ->
     prevCam env' = camera env' /\ isDirty env' = false).
Proof.
  assert (Heq : envs (render s) = envs_after_render (batchSize cfg_) (envs s)).
  { apply list_eq. intros i. unfold envs_after_render.
    rewrite list_lookup_imap, render_envs.
    unfold pack_envs, tlas_build_loop.
    rewrite (envs_foldl_pointwise save_camera pack_env)
      by (apply envs_pack_env || apply NoDup_seq).
    cbn [envs emit].
    rewrite (envs_foldl_pointwise rebuilt build_if_dirty)
      by (apply envs_build_if_dirty || apply NoDup_seq).
    cbn [envs startRenderSetup emit].
    destruct (decide (i ∈ int_range (batchSize cfg_))) as [Hin | Hout].
    - destruct (envs s !! i); reflexivity.
    - destruct (envs s !! i); reflexivity. }
  split; [exact Heq |].
  intros i env' Hi Hin. rewrite Heq in Hi. unfold envs_after_render in Hi.
  apply list_lookup_imap_Some in Hi as (env & _ & ->).
  rewrite decide_True by exact Hin.
  unfold rebuilt. destruct (isDirty env) eqn:Hd; cbn; [tauto |].
  split; [reflexivity | exact Hd].
Qed.

(** The work items of the first pass, with every loop bound an [int]: how
    many there are, that no two are the same, which they are, where they
    are written, and the dispatch that follows. *)
Lemma first_pass_work_items s :
  adaptiveSampling cfg_ = true ->
  0 < adaptive_samples_per_thread ->
  0 <= batchSize cfg_ < 2 ^ 31 -> 0 <= numTilesTall cfg_ < 2 ^ 31 ->
  0 <= numTilesWide cfg_ < 2 ^ 31 -> 0 <= spp cfg_ < 2 ^ 31 ->
  let items := work_items adaptive_samples_per_thread cfg_ in
  Z.of_nat (length items) =
    batchSize cfg_ * numTilesTall cfg_ * numTilesWide cfg_ *
    ((spp cfg_ + adaptive_samples_per_thread - 1)
     / adaptive_samples_per_thread) /\
  NoDup items /\
  (forall item, item ∈ items <->
     0 <= batchIdx item < batchSize cfg_ /\
     0 <= xOffset item < numTilesWide cfg_ /\
     0 <= yOffset item < numTilesTall cfg_ /\
     0 <= sampleOffset item < spp cfg_ /\
     (adaptive_samples_per_thread | sampleOffset item)) /\
  (forall j, tileInputPtr (render s) !! j =
     if decide (0 <= j < Z.of_nat (length items))
     then items !! Z.to_nat j else tileInputPtr s !! j) /\
  Dispatch (Z.of_nat (length items)) 1 1 ∈ recorded s (render s).
Proof.
  intros Had Hpos Hbs Htall Hwide Hspp items.
  set (n := (spp cfg_ + adaptive_samples_per_thread - 1)
            / adaptive_samples_per_thread).
  assert (Hn : 0 <= n) by (apply Z.div_pos; lia).
  assert (Hsamples : forall v,
    v ∈ sample_offsets adaptive_samples_per_thread cfg_ <->
    0 <= v < spp cfg_ /\ (adaptive_samples_per_thread | v)).
  { intros v. unfold sample_offsets.
    rewrite Queues.to_int_small by exact Hspp. fold n.
    rewrite list_elem_of_fmap. setoid_rewrite elem_of_seq. split.
    - intros (k & -> & Hk).
      assert (Hkn : Z.of_nat k < n) by lia.
      assert (Z.of_nat k * adaptive_samples_per_thread < spp cfg_).
      { subst n.
        pose proof (Z.div_mod (spp cfg_ + adaptive_samples_per_thread - 1)
                      adaptive_samples_per_thread ltac:(lia)) as Hdm.
        pose proof (Z.mod_pos_bound
                      (spp cfg_ + adaptive_samples_per_thread - 1)
                      adaptive_samples_per_thread Hpos) as Hm.
        nia. }
      split; [nia |]. exists (Z.of_nat k). reflexivity.
    - intros [Hv [k ->]].
      exists (Z.to_nat k). split; [nia |].
      assert (Hk : k + 1 <= n)
        by (subst n; apply Z.div_le_lower_bound; nia).
      nia. }
  assert (Htiles : forall b x y,
    (b, x, y) ∈ tiles cfg_ <->
    0 <= b < batchSize cfg_ /\ 0 <= x < numTilesWide cfg_ /\
    0 <= y < numTilesTall cfg_).
  { intros b x y. unfold tiles.
    rewrite list_elem_of_bind. setoid_rewrite list_elem_of_bind.
    setoid_rewrite list_elem_of_bind. setoid_rewrite list_elem_of_singleton.
    setoid_rewrite elem_of_int_range_Z; try assumption. split.
    - intros (bi & (ty & (tx & [= -> -> ->] & Hx) & Hy) & Hb). lia.
    - intros (Hb & Hx & Hy).
      exists (Z.to_nat b). split; [| lia].
      exists (Z.to_nat y). split; [| lia].
      exists (Z.to_nat x). split; [| lia].
      f_equal; [f_equal |]; lia. }
  split; [| split; [| split; [| split]]].
  - subst items. unfold work_items.
    rewrite (length_bind_const _
               (length (sample_offsets adaptive_samples_per_thread cfg_))).
    + unfold tiles.
      rewrite (length_bind_const _ (Z.to_nat (numTilesTall cfg_) *
                                    Z.to_nat (numTilesWide cfg_))).
      * rewrite length_int_range by exact Hbs.
        unfold sample_offsets. rewrite length_map, length_seq.
        rewrite Queues.to_int_small by exact Hspp. fold n. nia.
      * intros b.
        rewrite (length_bind_const _ (Z.to_nat (numTilesWide cfg_))).
        -- now rewrite length_int_range by exact Htall.
        -- intros y. rewrite (length_bind_const _ 1%nat) by reflexivity.
           rewrite length_int_range by exact Hwide. lia.
    + intros [[b x] y]. now rewrite (length_bind_const _ 1%nat), Nat.mul_1_r.
  - subst items. unfold work_items. apply NoDup_bind.
    + intros [[b1 x1] y1] [[b2 x2] y2] item _ _.
      rewrite !list_elem_of_bind.
      intros (k1 & H1 & _) (k2 & H2 & _).
      apply list_elem_of_singleton in H1, H2. subst item.
      now injection H2 as -> -> ->.
    + intros [[b x] y] _. apply NoDup_bind.
      * intros k1 k2 item _ _ H1 H2.
        apply list_elem_of_singleton in H1, H2. subst item.
        now injection H2.
      * intros k _. apply NoDup_singleton.
      * unfold sample_offsets. apply NoDup_fmap_2_strong.
        -- intros k1 k2 _ _ Hk. nia.
        -- apply NoDup_seq.
    + unfold tiles. apply NoDup_bind.
      * intros b1 b2 [[b x] y] _ _.
        rewrite !list_elem_of_bind. setoid_rewrite list_elem_of_bind.
        setoid_rewrite list_elem_of_singleton.
        intros (? & (? & [= -> _ _] & _) & _) (? & (? & [= Hb _ _] & _) & _).
        lia.
      * intros b _. apply NoDup_bind.
        -- intros y1 y2 [[b' x] y] _ _.
           rewrite !list_elem_of_bind. setoid_rewrite list_elem_of_singleton.
           intros (? & [= _ _ ->] & _) (? & [= _ _ Hy] & _). lia.
        -- intros y _. apply NoDup_bind.
           ++ intros x1 x2 [[b' x] y'] _ _.
              rewrite !list_elem_of_singleton.
              intros [= _ -> _] [= _ Hx _]. lia.
           ++ intros x _. apply NoDup_singleton.
           ++ apply NoDup_seq.
        -- apply NoDup_seq.
      * apply NoDup_seq.
  - intros [b x y k]. subst items. unfold work_items.
    rewrite list_elem_of_bind. cbn [batchIdx xOffset yOffset sampleOffset].
    split.
    + intros ([[b' x'] y'] & Hin & Ht).
      apply list_elem_of_bind in Hin as (k' & Hk & Hs).
      apply list_elem_of_singleton in Hk. injection Hk as -> -> -> ->.
      apply Htiles in Ht. apply Hsamples in Hs. tauto.
    + intros (Hb & Hx & Hy & Hk & Hd).
      exists (b, x, y). split; [| apply Htiles; tauto].
      apply list_elem_of_bind. exists k. split.
      * now apply list_elem_of_singleton.
      * apply Hsamples. tauto.
  - intros j. rewrite render_eq. cbn [tileInputPtr]. rewrite Had.
    rewrite lookup_write_table. fold items.
    rewrite Z.sub_0_r.
    destruct (decide (0 <= j < 0 + Z.of_nat (length items)));
      destruct (decide (0 <= j < Z.of_nat (length items)));
      (reflexivity || lia).
  - rewrite recorded_render. unfold render_cmds.
    destruct (launch_size_ cfg_) as [[lx ly] lz]. rewrite Had.
    cbv iota. fold items.
    rewrite !elem_of_app. right. right. right. left.
    right. right. right. left.
    rewrite !elem_of_cons. right. left. reflexivity.
Qed.

(** X8: the first pass of adaptive sampling, when the sample loop does not
    overflow its [int] counter and the number of work items, the product of
    the batch size, the two tile counts and the number of sample groups,
    fits the counter [int cur_tile_idx] and the [2 * max_tiles] entries of
    the host buffer: it writes one work item for every image of the batch,
    every tile of the image and every group of
    [adaptive_samples_per_thread] samples, each combination once, to the
    entries of the tile table from 0 on, leaves the rest of the table alone,
    writes nothing outside the host buffer, and dispatches as many work
    groups as there are work items, a number that [int num_tiles] holds. *)
Theorem first_pass_covers_every_tile max_tiles s :
  adaptiveSampling cfg_ = true ->
  0 < adaptive_samples_per_thread ->
  0 <= batchSize cfg_ < 2 ^ 31 -> 0 <= numTilesTall cfg_ < 2 ^ 31 ->
  0 <= numTilesWide cfg_ < 2 ^ 31 ->
  0 <= spp cfg_ -> spp cfg_ + adaptive_samples_per_thread <= 2 ^ 31 ->
  let num_tiles :=
    batchSize cfg_ * numTilesTall cfg_ * numTilesWide cfg_ *
    ((spp cfg_ + adaptive_samples_per_thread - 1)
     / adaptive_samples_per_thread) in
  num_tiles <= 2 * max_tiles -> num_tiles < 2 ^ 31 ->
  let items := work_items adaptive_samples_per_thread cfg_ in
  Z.of_nat (length items) = num_tiles /\
  NoDup items /\
  (forall item, item ∈ items <->
     0 <= batchIdx item < batchSize cfg_ /\
     0 <= xOffset item < numTilesWide cfg_ /\
     0 <= yOffset item < numTilesTall cfg_ /\
     0 <= sampleOffset item < spp cfg_ /\
     (adaptive_samples_per_thread | sampleOffset item)) /\
  (forall j, tileInputPtr (render s) !! j =
     if decide (0 <= j < num_tiles)
     then items !! Z.to_nat j else tileInputPtr s !! j) /\
  (forall j, tileInputPtr (render s) !! j <> tileInputPtr s !! j ->
     0 <= j < 2 * max_tiles) /\
  Dispatch num_tiles 1 1 ∈ recorded s (render s) /\
  0 <= num_tiles < 2 ^ 31.
Proof.
  intros Had Hpos Hbs Htall Hwide Hspp Hstep num_tiles Hfit Hint items.
  destruct (first_pass_work_items s Had Hpos Hbs Htall Hwide ltac:(lia))
    as (Hlen & Hnd & Hin & Htable & Hdispatch).
  fold items in Hlen, Hnd, Hin, Htable, Hdispatch.
  fold num_tiles in Hlen. rewrite Hlen in Htable, Hdispatch.
  split; [exact Hlen |]. split; [exact Hnd |]. split; [exact Hin |].
  split; [exact Htable |]. split; [| split; [exact Hdispatch | lia]].
  intros j Hj. rewrite Htable in Hj.
  destruct (decide (0 <= j < num_tiles)); [lia | contradiction].
Qed.

End AfterCall.

(** A 2 x 2 grid of tiles, two images, 16 samples in groups of 4: 32 work
    items, which fill a host buffer of 2 * 16 entries. *)
Lemma first_pass_covers_every_tile_witness :
  Z.of_nat (length (work_items 4 example_adaptive_cfg)) = 32 /\
  {| batchIdx := 1; xOffset := 1; yOffset := 0; sampleOffset := 12 |}
    ∈ work_items 4 example_adaptive_cfg /\
  Dispatch 32 1 1 ∈
    recorded example_batch
      (Render.render (float_ops := rational_ops) 4 example_readback
         example_adaptive_cfg example_batch).
Proof.
  destruct (first_pass_covers_every_tile (float_ops := rational_ops) 4
              example_readback example_adaptive_cfg 16 example_batch
              eq_refl ltac:(lia) ltac:(cbn; lia) ltac:(cbn; lia)
              ltac:(cbn; lia) ltac:(cbn; lia) ltac:(cbn; lia)
              ltac:(vm_compute; congruence) ltac:(vm_compute; reflexivity))
    as (Hlen & _ & Hin & _ & _ & Hdispatch & _).
  split; [exact Hlen |]. split; [| exact Hdispatch].
  apply Hin. cbn. repeat split; try lia. exists 3. reflexivity.
Defined.

End RenderRun.

(** ** Packing the environments into the parameter buffer
       (the loop [// Write environment data into linear buffers] of
        [render] and [bakeProbe], render.cpp:1668-1722, 2148-2214, with the
        pointers set up by [makePerBatchState], render.cpp:811-824) *)

Module Packing.

(** What the loop reads of an environment: [env.getNumInstances()],
    [env.getInstanceMaterials().size()] and [env_backend.lights.size()]. *)
Record EnvSizes := {
  numInstances : Z;
  numMaterials : Z;
  numLights : Z
}.

(** The pointer a write goes through. *)
Inductive Region := Transforms | Materials | Lights | Envs.

(** A write into the staging buffer: the bytes from [first] on, counted
    from [base_ptr]. *)
Record Write := {
  region : Region;
  first : Z;
  bytes : Z
}.

(** What the loop leaves for one environment: its writes, in order, and the
    components y, z and w of [packed_env.data]. *)
Record Packed := {
  writes : list Write;
  data_y : Z;
  data_z : Z;
  data_w : Z
}.

Record Offsets := {
  inst_offset : Z;
  material_offset : Z;
  light_offset : Z
}.

Section Pack.

Variables sizeof_InstanceTransform sizeof_PackedLight sizeof_PackedEnv : Z.
Variable param_cfg : ParamBuffer.ParamBufferConfig.

(** Where each pointer of [PerBatchState] points, from [base_ptr], and the
    bytes its sub-region has. *)
Definition region_first (r : Region) : Z :=
  match r with
  | Transforms => 0
  | Materials => ParamBuffer.materialIndicesOffset param_cfg
  | Lights => ParamBuffer.lightsOffset param_cfg
  | Envs => ParamBuffer.envOffset param_cfg
  end.

Definition region_bytes (r : Region) : Z :=
  match r with
  | Transforms => ParamBuffer.totalTransformBytes param_cfg
  | Materials => ParamBuffer.totalMaterialIndexBytes param_cfg
  | Lights => ParamBuffer.totalLightParamBytes param_cfg
  | Envs => ParamBuffer.totalEnvParamBytes param_cfg
  end.

(** One body of the loop. *)
Definition pack_env (batch_idx : Z) (st : Offsets) (env : EnvSizes)
    : Offsets * Packed :=
  let packed_env :=
    {| region := Envs;
       first := region_first Envs + sizeof_PackedEnv * batch_idx;
       bytes := sizeof_PackedEnv |} in
  let num_instances := numInstances env in
  let transforms :=
    {| region := Transforms;
       first := region_first Transforms +
                sizeof_InstanceTransform * inst_offset st;
       bytes := u64 (sizeof_InstanceTransform * num_instances) |} in
  let inst_offset' := u32 (inst_offset st + num_instances) in
  let materials :=
    {| region := Materials;
       first := region_first Materials +
                ParamBuffer.sizeof_uint32_t * material_offset st;
       bytes := u64 (numMaterials env * ParamBuffer.sizeof_uint32_t) |} in
  let data_y := material_offset st in
  let material_offset' := u32 (material_offset st + numMaterials env) in
  let lights :=
    {| region := Lights;
       first := region_first Lights + sizeof_PackedLight * light_offset st;
       bytes := u64 (numLights env * sizeof_PackedLight) |} in
  let data_z := light_offset st in
  let data_w := u32 (numLights env) in
  let light_offset' := u32 (light_offset st + numLights env) in
  ({| inst_offset := inst_offset'; material_offset := material_offset';
      light_offset := light_offset' |},
   {| writes := [packed_env; transforms; materials; lights];
      data_y := data_y; data_z := data_z; data_w := data_w |}).

(** The loop from [batch_idx] on, over the environments still to pack. *)
Fixpoint pack_loop (batch_idx : Z) (st : Offsets) (envs : list EnvSizes)
    : list Packed :=
  match envs with
  | [] => []
  | env :: envs =>
    let '(st, packed) := pack_env batch_idx st env in
    packed :: pack_loop (batch_idx + 1) st envs
  end.

(** The loop over the environments of a batch. *)
Definition pack (envs : list EnvSizes) : list Packed :=
  pack_loop 0 {| inst_offset := 0; material_offset := 0; light_offset := 0 |}
            envs.

End Pack.

(** The sum of [f] over environments. *)
Definition total (f : EnvSizes -> Z) (envs : list EnvSizes) : Z :=
  foldr (fun env acc => f env + acc) 0 envs.

(** *** Where the loop writes *)

Definition nonneg (env : EnvSizes) : Prop :=
  0 <= numInstances env /\ 0 <= numMaterials env /\ 0 <= numLights env.

Lemma total_nonneg f envs :
  Forall (fun env => 0 <= f env) envs -> 0 <= total f envs.
Proof. induction 1 as [| env envs He _ IH]; unfold total in *; cbn; lia. Qed.

Lemma total_split f envs : forall k env,
  envs !! k = Some env ->
  total f envs = total f (take k envs) + f env + total f (drop (S k) envs).
Proof.
  induction envs as [| e envs IH]; intros k env Hk; [discriminate |].
  destruct k as [| k].
  - injection Hk as ->. unfold total. cbn. rewrite drop_0. lia.
  - cbn in Hk. specialize (IH k env Hk). unfold total in *. cbn.
    change (drop (S k) envs) with (skipn (S k) envs) in IH. lia.
Qed.

(** The body that packs environment [k] runs on the sums of the sizes of
    the environments before it. *)
Lemma pack_loop_lookup sT sL sE pc envs : forall b st k env,
  Forall nonneg envs ->
  0 <= inst_offset st -> 0 <= material_offset st -> 0 <= light_offset st ->
  inst_offset st + total numInstances envs < 2 ^ 32 ->
  material_offset st + total numMaterials envs < 2 ^ 32 ->
  light_offset st + total numLights envs < 2 ^ 32 ->
  envs !! k = Some env ->
  pack_loop sT sL sE pc b st envs !! k =
  Some (snd (pack_env sT sL sE pc (b + Z.of_nat k)
               {| inst_offset :=
                    inst_offset st + total numInstances (take k envs);
                  material_offset :=
                    material_offset st + total numMaterials (take k envs);
                  light_offset :=
                    light_offset st + total numLights (take k envs) |}
               env)).
Proof.
  induction envs as [| e envs IH]; intros b st k env Hnn Hi Hm Hl HI HM HL Hk;
    [discriminate |].
  apply Forall_cons in Hnn as [(Hei & Hem & Hel) Hnn].
  pose proof (total_nonneg numInstances envs
    ltac:(eapply Forall_impl; [exact Hnn | intros ? (? & ? & ?); assumption])).
  pose proof (total_nonneg numMaterials envs
    ltac:(eapply Forall_impl; [exact Hnn | intros ? (? & ? & ?); assumption])).
  pose proof (total_nonneg numLights envs
    ltac:(eapply Forall_impl; [exact Hnn | intros ? (? & ? & ?); assumption])).
  cbn [total foldr] in HI, HM, HL.
  fold (total numInstances envs) in HI. fold (total numMaterials envs) in HM.
  fold (total numLights envs) in HL.
  destruct k as [| k].
  - injection Hk as ->. cbn [pack_loop lookup list_lookup take total foldr].
    destruct st as [i m l]. cbn [inst_offset material_offset light_offset] in *.
    rewrite !Z.add_0_r. reflexivity.
  - cbn in Hk. cbn [pack_loop]. unfold pack_env at 1. cbn [lookup list_lookup].
    rewrite (IH _ _ k env Hnn); cbn [inst_offset material_offset light_offset];
      rewrite ?FramebufferSetup.u32_id by lia; try lia; try exact Hk.
    cbn [take total foldr].
    fold (total numInstances (take k envs)).
    fold (total numMaterials (take k envs)).
    fold (total numLights (take k envs)).
    do 3 f_equal; [lia | f_equal; lia].
Qed.

(** X9: when the environments of a batch hold no more instances, material
    indices and lights than the capacities the parameter buffer was laid
    out for, the packing loop writes each environment's transforms,
    material indices and lights right behind those of the environments
    before it, hands the shader the element offsets of the material indices
    and the lights, and keeps every write inside the sub-region of its
    pointer and inside the buffer. *)
Theorem packing_stays_within_the_regions a sT sL sE mI mL envs k env :
  ParamBuffer.params_in_range a sT sL sE mI mL ->
  Z.of_nat (length envs) < 2 ^ 32 ->
  Forall nonneg envs ->
  total numInstances envs <= mI ->
  total numMaterials envs <= mI ->
  total numLights envs <= mL ->
  envs !! k = Some env ->
  let param_cfg := ParamBuffer.getParamBufferConfig a sT sL sE mI mL
                     (Z.of_nat (length envs)) in
  let before := take k envs in
  exists packed,
    pack sT sL sE param_cfg envs !! k = Some packed /\
    data_y packed = total numMaterials before /\
    data_z packed = total numLights before /\
    data_w packed = numLights env /\
    writes packed =
      [ {| region := Envs;
           first := ParamBuffer.envOffset param_cfg + sE * Z.of_nat k;
           bytes := sE |};
        {| region := Transforms;
           first := sT * total numInstances before;
           bytes := sT * numInstances env |};
        {| region := Materials;
           first := ParamBuffer.materialIndicesOffset param_cfg +
                    4 * total numMaterials before;
           bytes := 4 * numMaterials env |};
        {| region := Lights;
           first := ParamBuffer.lightsOffset param_cfg +
                    sL * total numLights before;
           bytes := sL * numLights env |} ] /\
    Forall (fun w =>
              region_first param_cfg (region w) <= first w /\
              0 <= bytes w /\
              first w + bytes w <=
                region_first param_cfg (region w) +
                region_bytes param_cfg (region w) /\
              first w + bytes w <= ParamBuffer.totalParamBytes param_cfg)
           (writes packed).
Proof.
  intros Hr Hlen Hnn HI HM HL Hk param_cfg before.
  assert (Hb : 0 <= Z.of_nat (length envs) < 2 ^ 32) by lia.
  pose proof (ParamBuffer.getParamBufferConfig_exact _ _ _ _ _ _ _ Hr Hb)
    as Hcfg. cbv zeta in Hcfg. fold param_cfg in Hcfg.
  destruct Hr as (Ha & HsT & HsL & HsE & HmI & HmL).
  assert (HnI : Forall (fun e => 0 <= numInstances e) envs)
    by (eapply Forall_impl; [exact Hnn | intros ? (? & ? & ?); assumption]).
  assert (HnM : Forall (fun e => 0 <= numMaterials e) envs)
    by (eapply Forall_impl; [exact Hnn | intros ? (? & ? & ?); assumption]).
  assert (HnL : Forall (fun e => 0 <= numLights e) envs)
    by (eapply Forall_impl; [exact Hnn | intros ? (? & ? & ?); assumption]).
  pose proof (total_split numInstances envs k env Hk) as SI.
  pose proof (total_split numMaterials envs k env Hk) as SM.
  pose proof (total_split numLights envs k env Hk) as SL.
  pose proof (total_nonneg numInstances (take k envs)
                (Forall_take _ k _ HnI)) as PI.
  pose proof (total_nonneg numMaterials (take k envs)
                (Forall_take _ k _ HnM)) as PM.
  pose proof (total_nonneg numLights (take k envs)
                (Forall_take _ k _ HnL)) as PL.
  pose proof (total_nonneg numInstances (drop (S k) envs)
                (Forall_drop _ (S k) _ HnI)) as DI.
  pose proof (total_nonneg numMaterials (drop (S k) envs)
                (Forall_drop _ (S k) _ HnM)) as DM.
  pose proof (total_nonneg numLights (drop (S k) envs)
                (Forall_drop _ (S k) _ HnL)) as DL.
  destruct (proj1 (Forall_forall _ _) Hnn env
              ltac:(eapply list_elem_of_lookup_2; exact Hk))
    as (Hei & Hem & Hel).
  fold before in SI, SM, SL, PI, PM, PL.
  set (tI := total numInstances before) in *.
  set (tM := total numMaterials before) in *.
  set (tL := total numLights before) in *.
  assert (Hkl : Z.of_nat k < Z.of_nat (length envs))
    by (apply lookup_lt_Some in Hk; lia).
  unfold pack.
  rewrite (pack_loop_lookup sT sL sE param_cfg envs 0 _ k env Hnn);
    cbn [inst_offset material_offset light_offset]; try lia; try exact Hk.
  fold before. rewrite !Z.add_0_l. fold tI tM tL.
  eexists. split; [reflexivity |].
  unfold pack_env. cbn [snd data_y data_z data_w writes].
  unfold ParamBuffer.sizeof_uint32_t.
  rewrite (FramebufferSetup.u32_id (numLights env)) by lia.
  rewrite !u64_small by nia.
  rewrite Hcfg.
  cbn [region_first region_bytes ParamBuffer.totalTransformBytes
       ParamBuffer.materialIndicesOffset ParamBuffer.totalMaterialIndexBytes
       ParamBuffer.lightsOffset ParamBuffer.totalLightParamBytes
       ParamBuffer.envOffset ParamBuffer.totalEnvParamBytes
       ParamBuffer.totalParamBytes].
  set (T := sT * mI).
  set (M := ParamBuffer.sizeof_uint32_t * mI).
  set (L := sL * mL). set (E := sE * Z.of_nat (length envs)).
  set (matOff := ParamBuffer.round_up a T).
  set (lightsOff := ParamBuffer.round_up a (matOff + M)).
  set (envOff := ParamBuffer.round_up a (lightsOff + L)).
  assert (H1 : T <= matOff) by (apply ParamBuffer.round_up_ge; lia).
  assert (H2 : matOff + M <= lightsOff) by (apply ParamBuffer.round_up_ge; lia).
  assert (H3 : lightsOff + L <= envOff) by (apply ParamBuffer.round_up_ge; lia).
  assert (H4 : envOff + E <= ParamBuffer.round_up a (envOff + E))
    by (apply ParamBuffer.round_up_ge; lia).
  assert (HT0 : 0 <= T) by (subst T; nia).
  assert (HM0 : 0 <= M) by (subst M; unfold ParamBuffer.sizeof_uint32_t; lia).
  assert (HL0 : 0 <= L) by (subst L; nia).
  assert (HE0 : 0 <= E) by (subst E; nia).
  repeat split; try reflexivity.
  - cbn [inst_offset material_offset light_offset].
    repeat (f_equal; try lia).
  - cbn [inst_offset material_offset light_offset].
    repeat (apply Forall_cons; split); try apply Forall_nil_2;
      cbn [region first bytes region_first region_bytes
           ParamBuffer.totalTransformBytes ParamBuffer.materialIndicesOffset
           ParamBuffer.totalMaterialIndexBytes ParamBuffer.lightsOffset
           ParamBuffer.totalLightParamBytes ParamBuffer.envOffset
           ParamBuffer.totalEnvParamBytes ParamBuffer.totalParamBytes];
      subst T M L E; unfold ParamBuffer.sizeof_uint32_t in *;
      repeat split; nia.
Qed.

(** Two environments of 3 and 5 instances in a buffer laid out for 1024
    instances and lights. *)
Lemma packing_stays_within_the_regions_witness :
  let envs := [ {| numInstances := 3; numMaterials := 3; numLights := 1 |};
                {| numInstances := 5; numMaterials := 5; numLights := 2 |} ] in
  let param_cfg := ParamBuffer.getParamBufferConfig 64 48 32 144 1024 1024 2 in
  exists packed,
    pack 48 32 144 param_cfg envs !! 1%nat = Some packed /\
    data_y packed = 3 /\ data_z packed = 1 /\ data_w packed = 2.
Proof.
  cbv zeta.
  destruct (packing_stays_within_the_regions 64 48 32 144 1024 1024
              [ {| numInstances := 3; numMaterials := 3; numLights := 1 |};
                {| numInstances := 5; numMaterials := 5; numLights := 2 |} ]
              1 {| numInstances := 5; numMaterials := 5; numLights := 2 |})
    as (packed & Hp & Hy & Hz & Hw & _).
  - unfold ParamBuffer.params_in_range. lia.
  - cbn. lia.
  - repeat constructor; cbn; lia.
  - cbn. lia.
  - cbn. lia.
  - cbn. lia.
  - reflexivity.
  - exists packed. repeat split; assumption.
Defined.

End Packing.

(** ** Rendering one probe
       ([VulkanBackend::bakeProbe], render.cpp:2073-2456, on the state made
        by [makeProbeGenState], render.cpp:1511-1555) *)

Module BakeProbe.

(** Calls made on the device and the queue by [bakeProbe]. *)
Inductive Cmd :=
| Shared (c : Render.Cmd)
    (* a call that [render] makes as well *)
| BindBakePipeline
    (* cmdBindPipeline(render_cmd, ..., pipelines_.bake.hdl) *)
| PushConstants (frame_counter probeIdx : Z)
| FillBytes (output bytes : Z)
    (* cmdFillBuffer(render_cmd, fb.outputs[output].buffer, 0, bytes, 0) *)
| MakeProbeTextureData.
    (* the copy into the probe texture: recorded into a command buffer of
       its own, submitted to compute_queues_[0] with a fence of its own and
       waited for *)

(** The backend, the environments of the batch, and the state of
    [probe_gen_]. *)
Record State := {
  (* VulkanBackend *)
  frame_counter_ : Z;
  cur_queue_ : Z;
  (* probe_gen_->state *)
  curBuffer : Z;
  (* batch.getEnvironments() *)
  envs : list Render.Environment;
  (* everything recorded into the command buffer of probe_gen_ and
     submitted so far *)
  trace : list Cmd
}.

Definition emit (cs : list Cmd) (s : State) : State :=
  {| frame_counter_ := frame_counter_ s; cur_queue_ := cur_queue_ s;
     curBuffer := curBuffer s; envs := envs s; trace := trace s ++ cs |}.

Definition set_envs (es : list Render.Environment) (s : State) : State :=
  {| frame_counter_ := frame_counter_ s; cur_queue_ := cur_queue_ s;
     curBuffer := curBuffer s; envs := es; trace := trace s |}.

Definition set_frame_counter (fc : Z) (s : State) : State :=
  {| frame_counter_ := fc; cur_queue_ := cur_queue_ s;
     curBuffer := curBuffer s; envs := envs s; trace := trace s |}.

Definition set_curBuffer (b : Z) (s : State) : State :=
  {| frame_counter_ := frame_counter_ s; cur_queue_ := cur_queue_ s;
     curBuffer := b; envs := envs s; trace := trace s |}.

Definition sizeof_half : Z := 2.
Definition sizeof_float : Z := 4.

Section BakeCall.

Variable cfg_ : Render.Config.
(** [probe_width_] and [probe_height_], both [uint32_t]. *)
Variables probe_width_ probe_height_ : Z.

(** The lambda [startRenderSetup] of [bakeProbe]. *)
Definition startRenderSetup (s : State) : State :=
  emit [ Shared Render.ResetCommandPool; Shared Render.BeginCommandBuffer;
         BindBakePipeline;
         Shared (Render.BindDescriptorSets 0 (Render.RtSet (curBuffer s)));
         Shared (Render.BindDescriptorSets 2 Render.EnvMapSet);
         Shared (Render.BindDescriptorSets 1 Render.SharedSceneSet) ] s.

(** The body of the TLAS build loop for one [batch_idx]. *)
Definition build_if_dirty (s : State) (batch_idx : nat) : State :=
  match envs s !! batch_idx with
  | Some env =>
    if Render.isDirty env then
      set_envs (<[batch_idx := Render.clearDirty (Render.tlas_build env)]>
                  (envs s))
               (emit [Shared (Render.BuildTLAS batch_idx)] s)
    else s
  | None => s   (* past the end of the batch: not a defined execution *)
  end.

Definition tlas_build_loop (s : State) : State :=
  foldl build_if_dirty s (Render.int_range (Render.batchSize cfg_)).

(** [// Write environment data into linear buffers]: of the packing only
    the update of [prevCam] changes the state kept here. *)
Definition pack_env (s : State) (batch_idx : nat) : State :=
  set_envs (alter Render.save_camera batch_idx (envs s)) s.

Definition pack_envs (s : State) : State :=
  foldl pack_env s (Render.int_range (Render.batchSize cfg_)).

(** The lambda [submitCmd] of [bakeProbe]. *)
Definition submitCmd (s : State) : State :=
  emit ([Shared Render.EndCommandBuffer] ++
        (if Render.present_ cfg_ then [Shared Render.AcquireNext] else []) ++
        [Shared (Render.QueueSubmit (cur_queue_ s))] ++
        (if Render.present_ cfg_
         then [Shared (Render.Present (cur_queue_ s))] else [])) s.

(** [waitForFenceInfinitely(dev, batch_state.fence); resetFence(...)] *)
Definition wait_and_reset (s : State) : State :=
  emit [Shared Render.WaitForFence; Shared Render.ResetFence] s.

(** [probe_width_ * probe_height_ * 4 * sizeof(T)]: the product is taken on
    32 bits up to the factor 4 and on 64 bits with the size. *)
Definition fill_bytes (sizeof_T : Z) : Z :=
  u64 (u32 (u32 (probe_width_ * probe_height_) * 4) * sizeof_T).

(** The values of [i] in [for (int i = 0; i < (int)cfg_.spp; i += 64)]. *)
Definition pass_starts : list Z :=
  map (fun k => Z.of_nat k * 64)
      (seq 0 (Z.to_nat ((to_int (Render.spp cfg_) + 63) / 64))).

(** One body of that loop; [frame_counter] is the member of [push_const]
    set before the loop. *)
Definition pass (frame_counter : Z) (s : State) (i : Z) : State :=
  let '(x, y, z) := Render.launch_size_ cfg_ in
  let s := emit [ PushConstants frame_counter (u32 (i * 64));
                  Shared (Render.Dispatch x y z) ] s in
  let s := submitCmd s in
  let s := wait_and_reset s in
  startRenderSetup s.

Definition bakeProbe (s : State) : State :=
  let fb := Render.makeFramebuffer (Render.auxiliaryOutputs cfg_)
              (Render.tonemap cfg_) (Render.adaptiveSampling cfg_) in
  let prev_cur_buffer := curBuffer s in
  let s := set_curBuffer 0 s in
  let s := startRenderSetup s in
  let s := tlas_build_loop s in
  let s := emit [Shared Render.PipelineBarrier] s in
  let s := pack_envs s in
  let s := emit [Shared Render.CopyParams] s in
  let s := emit [ Shared Render.PipelineBarrier;
                  FillBytes (Render.outputIdx fb) (fill_bytes sizeof_half);
                  FillBytes (Render.hdrIdx fb) (fill_bytes sizeof_float);
                  Shared Render.PipelineBarrier ] s in
  let frame_counter := frame_counter_ s in
  let s := foldl (pass frame_counter) s pass_starts in
  let s := set_frame_counter
             (u32 (frame_counter_ s + Render.batchSize cfg_)) s in
  let s := submitCmd s in
  let s := wait_and_reset s in
  let s := emit [MakeProbeTextureData] s in
  set_curBuffer prev_cur_buffer s.

(** *** The commands of one call *)

Definition setup_cmds : list Cmd :=
  [ Shared Render.ResetCommandPool; Shared Render.BeginCommandBuffer;
    BindBakePipeline;
    Shared (Render.BindDescriptorSets 0 (Render.RtSet 0));
    Shared (Render.BindDescriptorSets 2 Render.EnvMapSet);
    Shared (Render.BindDescriptorSets 1 Render.SharedSceneSet) ].

Definition submit_wait_cmds (queue : Z) : list Cmd :=
  [Shared Render.EndCommandBuffer] ++
  (if Render.present_ cfg_ then [Shared Render.AcquireNext] else []) ++
  [Shared (Render.QueueSubmit queue)] ++
  (if Render.present_ cfg_ then [Shared (Render.Present queue)] else []) ++
  [Shared Render.WaitForFence; Shared Render.ResetFence].

Definition pass_cmds (frame_counter queue i : Z) : list Cmd :=
  let '(x, y, z) := Render.launch_size_ cfg_ in
  [ PushConstants frame_counter (u32 (i * 64));
    Shared (Render.Dispatch x y z) ] ++
  submit_wait_cmds queue ++ setup_cmds.

(** Everything one call of [bakeProbe] records and submits. *)
Definition bake_cmds (s : State) : list Cmd :=
  setup_cmds ++
  (Shared <$> RenderRun.tlas_cmds (envs s)
                (Render.int_range (Render.batchSize cfg_))) ++
  [ Shared Render.PipelineBarrier; Shared Render.CopyParams;
    Shared Render.PipelineBarrier;
    FillBytes 0 (fill_bytes sizeof_half);
    FillBytes 1 (fill_bytes sizeof_float);
    Shared Render.PipelineBarrier ] ++
  (pass_starts ≫= pass_cmds (frame_counter_ s) (cur_queue_ s)) ++
  submit_wait_cmds (cur_queue_ s) ++
  [MakeProbeTextureData].

(** The commands recorded between two states. *)
Definition recorded (s s' : State) : list Cmd :=
  drop (length (trace s)) (trace s').

End BakeCall.

(** The rules of the device ([RenderRun.device_step]) for the commands of
    [bakeProbe]: the bake pipeline, the push constants and the fills are
    recorded; the texture copy reads the output of the submissions, none of
    which may still be executing. *)
Definition device_step (st : RenderRun.CommandBuffer * RenderRun.Fence)
    (c : Cmd) : option (RenderRun.CommandBuffer * RenderRun.Fence) :=
  match c with
  | Shared c => RenderRun.device_step st c
  | BindBakePipeline | PushConstants _ _ | FillBytes _ _ =>
      match fst st with RenderRun.Recording => Some st | _ => None end
  | MakeProbeTextureData =>
      match fst st with RenderRun.InExecution => None | _ => Some st end
  end.

Definition device_run (st : RenderRun.CommandBuffer * RenderRun.Fence)
    (cs : list Cmd) : option (RenderRun.CommandBuffer * RenderRun.Fence) :=
  foldl (fun st c => st ≫= fun st => device_step st c) (Some st) cs.


(** *** The loops, as updates of the state *)

Lemma bake_state_eta s :
  s = {| frame_counter_ := frame_counter_ s; cur_queue_ := cur_queue_ s;
         curBuffer := curBuffer s; envs := envs s; trace := trace s |}.
Proof. now destruct s. Qed.

Lemma bake_emit_nil s : emit [] s = s.
Proof. destruct s. unfold emit. cbn. now rewrite app_nil_r. Qed.

Lemma bake_set_envs_same s : set_envs (envs s) s = s.
Proof. now destruct s. Qed.


Lemma bake_envs_build_if_dirty s i j :
  envs (build_if_dirty s i) !! j =
  if decide (j = i) then Render.rebuilt <$> envs s !! j else envs s !! j.
Proof.
  unfold build_if_dirty, Render.rebuilt.
  destruct (envs s !! i) as [env |] eqn:Hi.
  - destruct (Render.isDirty env) eqn:Hd; cbn [envs set_envs emit].
    + destruct (decide (j = i)) as [-> | Hne].
      * rewrite list_lookup_insert_eq by (eapply lookup_lt_Some; exact Hi).
        rewrite Hi. cbn. now rewrite Hd.
      * now rewrite list_lookup_insert_ne by congruence.
    + destruct (decide (j = i)) as [-> | Hne]; [| reflexivity].
      rewrite Hi. cbn. now rewrite Hd.
  - destruct (decide (j = i)) as [-> | Hne]; [| reflexivity].
    now rewrite Hi.
Qed.


Lemma bake_build_loop_eq l : NoDup l -> forall s,
  exists es, foldl build_if_dirty s l =
             set_envs es (emit (Shared <$> RenderRun.tlas_cmds (envs s) l) s).
Proof.
  induction l as [| i l IH]; intros Hnd s.
  - exists (envs s). cbn. now rewrite bake_emit_nil, bake_set_envs_same.
  - apply NoDup_cons in Hnd as [Hi Hnd].
    cbn [foldl]. destruct (IH Hnd (build_if_dirty s i)) as [es ->].
    exists es.
    assert (Hsame : RenderRun.tlas_cmds (envs (build_if_dirty s i)) l =
                    RenderRun.tlas_cmds (envs s) l).
    { unfold RenderRun.tlas_cmds. apply Forall_bind_ext, Forall_forall.
      intros j Hj. rewrite bake_envs_build_if_dirty.
      rewrite decide_False; [reflexivity |]. intros ->. contradiction. }
    rewrite Hsame.
    change (RenderRun.tlas_cmds (envs s) (i :: l)) with
      (match envs s !! i with
       | Some env =>
           if Render.isDirty env then [Render.BuildTLAS i] else []
       | None => []
       end ++ RenderRun.tlas_cmds (envs s) l).
    rewrite fmap_app.
    unfold build_if_dirty.
    destruct (envs s !! i) as [env |]; [destruct (Render.isDirty env) |].
    + unfold set_envs, emit. cbn. now rewrite <- app_assoc.
    + reflexivity.
    + reflexivity.
Qed.

Lemma pack_loop_eq l : forall s,
  foldl pack_env s l = set_envs (envs (foldl pack_env s l)) s.
Proof.
  induction l as [| i l IH]; intros s.
  - cbn. now rewrite bake_set_envs_same.
  - cbn [foldl]. rewrite IH. reflexivity.
Qed.

Lemma passes_eq cfg_ fc l : forall s,
  curBuffer s = 0 ->
  foldl (pass cfg_ fc) s l =
  emit (l ≫= pass_cmds cfg_ fc (cur_queue_ s)) s.
Proof.
  induction l as [| i l IH]; intros s Hb.
  - cbn. now rewrite bake_emit_nil.
  - cbn [foldl]. rewrite IH.
    + change ((i :: l) ≫= pass_cmds cfg_ fc (cur_queue_ s)) with
        (pass_cmds cfg_ fc (cur_queue_ s) i ++
         (l ≫= pass_cmds cfg_ fc (cur_queue_ s))).
      unfold pass, pass_cmds, submit_wait_cmds, setup_cmds.
      destruct (Render.launch_size_ cfg_) as [[x y] z].
      unfold startRenderSetup, wait_and_reset, submitCmd, emit.
      cbn [frame_counter_ cur_queue_ curBuffer envs trace].
      rewrite Hb. f_equal. rewrite <- !app_assoc. reflexivity.
    + unfold pass. destruct (Render.launch_size_ cfg_) as [[x y] z].
      exact Hb.
Qed.


Section Call.

Variable cfg_ : Render.Config.
Variables probe_width_ probe_height_ : Z.

Local Abbreviation bakeProbe := (bakeProbe cfg_ probe_width_ probe_height_).
Local Abbreviation bake_cmds := (bake_cmds cfg_ probe_width_ probe_height_).


Ltac bake_field :=
  unfold BakeProbe.bakeProbe, tlas_build_loop, pack_envs, Render.int_range;
  match goal with
  | |- context [foldl build_if_dirty ?s0 (seq 0 ?n)] =>
      let es := fresh "es" in
      let Hes := fresh "Hes" in
      destruct (bake_build_loop_eq (seq 0 n) (NoDup_seq 0 n) s0) as [es Hes];
      rewrite Hes
  end;
  rewrite pack_loop_eq;
  rewrite passes_eq by reflexivity;
  cbn [frame_counter_ cur_queue_ curBuffer envs trace emit set_envs
       set_frame_counter set_curBuffer startRenderSetup submitCmd
       wait_and_reset Render.makeFramebuffer Render.outputIdx Render.hdrIdx].

(** The state a call of [bakeProbe] leaves, field by field. *)
Lemma bakeProbe_eq s :
  bakeProbe s =
  {| frame_counter_ := u32 (frame_counter_ s + Render.batchSize cfg_);
     cur_queue_ := cur_queue_ s;
     curBuffer := curBuffer s;
     envs := envs (bakeProbe s);
     trace := trace s ++ bake_cmds s |}.
Proof.
  etransitivity; [apply bake_state_eta |].
  f_equal; try reflexivity; bake_field; try reflexivity.
  unfold BakeProbe.bake_cmds, submit_wait_cmds, setup_cmds, Render.int_range.
  rewrite <- !app_assoc. cbn [app].
  now destruct (Render.auxiliaryOutputs cfg_), (Render.tonemap cfg_),
    (Render.adaptiveSampling cfg_).
Qed.

End Call.

(** *** What a call records *)

(** Membership in a list that is written out: the element is one of those
    listed. *)
Ltac member H :=
  repeat (apply elem_of_cons in H as [H | H];
          [first [discriminate H
                 | injection H as ?; subst; reflexivity] |]);
  now apply elem_of_nil in H.

Section Records.

Variable cfg_ : Render.Config.
Variables probe_width_ probe_height_ : Z.

Local Abbreviation bakeProbe := (bakeProbe cfg_ probe_width_ probe_height_).
Local Abbreviation bake_cmds := (bake_cmds cfg_ probe_width_ probe_height_).

Lemma recorded_bakeProbe s : recorded s (bakeProbe s) = bake_cmds s.
Proof.
  unfold recorded. rewrite bakeProbe_eq. cbn [trace].
  apply drop_app_length.
Qed.


End Records.

(** *** The device rules along a call *)








Section Protocol.

Variable cfg_ : Render.Config.
Variables probe_width_ probe_height_ : Z.

Local Abbreviation bakeProbe := (bakeProbe cfg_ probe_width_ probe_height_).


(** X20: the two fills of a call cover the output buffer and the HDR buffer of
    the probe framebuffer, each over the whole size [makeFramebuffer] gave
    it, when the probe has fewer than 2^28 pixels. *)
Theorem bakeProbe_fills_whole_buffers sizeof_Reservoir sizeof_AdaptiveTile s :
  0 <= probe_width_ -> 0 <= probe_height_ ->
  probe_width_ * probe_height_ < 2 ^ 28 ->
  let probe_config :=
    FramebufferSetup.getProbeFramebufferConfig sizeof_Reservoir
      sizeof_AdaptiveTile probe_width_ probe_height_ in
  let fb :=
    BatchSetup.makeFramebuffer_buffers probe_config
      (Render.auxiliaryOutputs cfg_) (Render.tonemap cfg_)
      (Render.adaptiveSampling cfg_) in
  forall output bytes,
    FillBytes output bytes ∈ recorded s (bakeProbe s) ->
    BatchSetup.at_index (BatchSetup.outputs fb) output = Some bytes /\
    (output = 0 /\ bytes = 8 * (probe_width_ * probe_height_) \/
     output = 1 /\ bytes = 16 * (probe_width_ * probe_height_)).
Proof.
  intros Hw Hh Hsmall probe_config fb output bytes Hin.
  assert (Hp : 0 <= probe_width_ * probe_height_) by nia.
  assert (Hfill : forall sz, 0 <= sz <= 4 ->
    fill_bytes probe_width_ probe_height_ sz =
    4 * sz * (probe_width_ * probe_height_)).
  { intros sz Hsz. unfold fill_bytes.
    rewrite (FramebufferSetup.u32_id (probe_width_ * probe_height_)) by lia.
    rewrite FramebufferSetup.u32_id by lia.
    rewrite u64_small by nia. lia. }
  assert (Hfb : BatchSetup.at_index (BatchSetup.outputs fb) 0 =
                  Some (8 * (probe_width_ * probe_height_)) /\
                BatchSetup.at_index (BatchSetup.outputs fb) 1 =
                  Some (16 * (probe_width_ * probe_height_))).
  { subst fb probe_config.
    unfold FramebufferSetup.getProbeFramebufferConfig,
      FramebufferSetup.pixel_bytes, FramebufferSetup.sizeof_uint16_t,
      FramebufferSetup.sizeof_float.
    rewrite (FramebufferSetup.u32_id (probe_width_ * probe_height_)) by lia.
    rewrite !u64_small by lia. rewrite !FramebufferSetup.u32_id by lia.
    destruct (Render.auxiliaryOutputs cfg_), (Render.tonemap cfg_),
      (Render.adaptiveSampling cfg_); split; cbn; f_equal; lia. }
  rewrite recorded_bakeProbe in Hin. unfold bake_cmds in Hin.
  rewrite !elem_of_app in Hin.
  destruct Hin as [Hin | [Hin | [Hin | [Hin | [Hin | Hin]]]]].
  - unfold setup_cmds in Hin. member Hin.
  - apply list_elem_of_fmap in Hin as (c & Hc & _). discriminate Hc.
  - rewrite (Hfill sizeof_half), (Hfill sizeof_float) in Hin
      by (unfold sizeof_half, sizeof_float; lia).
    unfold sizeof_half, sizeof_float in Hin.
    repeat (apply elem_of_cons in Hin as [Hin | Hin];
            [first [discriminate Hin | injection Hin as -> ->] |]).
    + split; [rewrite (proj1 Hfb); f_equal; lia | left; lia].
    + split; [rewrite (proj2 Hfb); f_equal; lia | right; lia].
    + now apply elem_of_nil in Hin.
  - apply list_elem_of_bind in Hin as (i & Hin & _).
    unfold pass_cmds, submit_wait_cmds, setup_cmds in Hin.
    destruct (Render.launch_size_ cfg_) as [[x y] z].
    destruct (Render.present_ cfg_); cbn [app] in Hin; member Hin.
  - unfold submit_wait_cmds in Hin.
    destruct (Render.present_ cfg_); cbn [app] in Hin; member Hin.
  - member Hin.
Qed.

End Protocol.

(** The probe state as [makeProbeGenState] leaves it, on a backend with
    frame counter and queue index 0, for a batch of two environments, the
    first one dirty. *)
Definition example_state : State :=
  {| frame_counter_ := 0; cur_queue_ := 0; curBuffer := 0;
     envs := Render.envs Render.example_batch; trace := [] |}.


(** The probes of [bake]: 32 x 32 pixels. *)
Lemma bakeProbe_fills_whole_buffers_witness :
  FillBytes 1 16384 ∈
    recorded example_state (bakeProbe Render.example_cfg 32 32 example_state)
  /\
  BatchSetup.at_index
    (BatchSetup.outputs
       (BatchSetup.makeFramebuffer_buffers
          (FramebufferSetup.getProbeFramebufferConfig 32 16 32 32)
          false true false)) 1 = Some 16384.
Proof.
  assert (Hin : FillBytes 1 16384 ∈
                recorded example_state
                  (bakeProbe Render.example_cfg 32 32 example_state)).
  { vm_compute. repeat constructor. }
  split; [exact Hin |].
  exact (proj1 (bakeProbe_fills_whole_buffers Render.example_cfg 32 32 32 16
                  example_state ltac:(lia) ltac:(lia) ltac:(lia)
                  1 16384 Hin)).
Defined.

End BakeProbe.

(** ** The probe grid and damaged probe files
       ([VulkanBackend::bake], [deserializeProbeFromFile];
        render.cpp:2460-2570) *)

Module ProbeFile.

Import ProbeBake.

(** The cells of the grid in the order of the loop nest that [bake] keeps
    under [#if 0]: z outermost, x innermost. *)
Definition grid_cells : list GridPos :=
  z ← seqZ 0 3; y ← seqZ 0 3; x ← seqZ 0 3; [(x, y, z)].

(** [PROBE_DIM.x * PROBE_DIM.y * PROBE_DIM.z] *)
Definition PROBE_COUNT : Z :=
  u32 (let '(dx, dy, dz) := PROBE_DIM in dx * dy * dz).


(** *** The grid *)

(** X21: with [n] probes in memory, no more than the grid has cells, [bake]
    renders the cells from the [n]-th on, in the order of [grid_cells]: a
    bake from nothing renders every cell once.  Cell (x, y, z) has index
    x + 3 y + 9 z. *)
Theorem bake_renders_the_cells_left (n : nat) :
  (n <= 27)%nat ->
  positions_to_bake PROBE_COUNT n = drop n grid_cells /\
  NoDup grid_cells /\
  (forall x y z, 0 <= x < 3 -> 0 <= y < 3 -> 0 <= z < 3 ->
     grid_cells !! Z.to_nat (x + 3 * y + 9 * z) = Some (x, y, z) /\
     grid_position (x + 3 * y + 9 * z) = (x, y, z)).
Proof.
  intros Hn. split; [| split].
  - do 28 (destruct n as [| n]; [vm_compute; reflexivity |]). lia.
  - assert (H : bool_decide (NoDup grid_cells) = true)
      by (vm_compute; reflexivity).
    now apply bool_decide_eq_true in H.
  - intros x y z Hx Hy Hz.
    assert (Hc : forall v, 0 <= v < 3 -> v = 0 \/ v = 1 \/ v = 2) by lia.
    destruct (Hc x Hx) as [-> | [-> | ->]];
      destruct (Hc y Hy) as [-> | [-> | ->]];
      destruct (Hc z Hz) as [-> | [-> | ->]]; split; reflexivity.
Qed.

Lemma bake_renders_the_cells_left_witness :
  positions_to_bake PROBE_COUNT 25 = [(1, 2, 2); (2, 2, 2)].
Proof.
  apply (proj1 (bake_renders_the_cells_left 25 ltac:(lia))).
Defined.

(** *** Files that are not what [bake] writes *)

Lemma int_of_bytes_le_split x :
  - 2 ^ 31 <= x < 2 ^ 31 -> int_of_bytes (le_split 4 x) = x.
Proof.
  intros Hx. unfold int_of_bytes, to_int. rewrite le_combine_split.
  change (2 ^ (Z.of_nat 4 * 8)) with (2 ^ 32).
  destruct (Z.lt_ge_cases x 0) as [Hneg | Hpos].
  - replace (x mod 2 ^ 32) with (x + 2 ^ 32)
      by (apply Z.mod_unique with (q := -1); lia).
    destruct (Z.ltb_spec (x + 2 ^ 32) (2 ^ 31)); lia.
  - rewrite Z.mod_small by lia.
    destruct (Z.ltb_spec x (2 ^ 31)); lia.
Qed.

Lemma ivec3_of_bytes_ivec3_bytes x y z :
  - 2 ^ 31 <= x < 2 ^ 31 -> - 2 ^ 31 <= y < 2 ^ 31 ->
  - 2 ^ 31 <= z < 2 ^ 31 ->
  ivec3_of_bytes (ivec3_bytes (x, y, z)) = (x, y, z) /\
  length (ivec3_bytes (x, y, z)) = 12%nat.
Proof.
  intros Hx Hy Hz. unfold ivec3_of_bytes, ivec3_bytes. split.
  - rewrite take_app_length' by (symmetry; apply length_le_split).
    rewrite drop_app_length' by (symmetry; apply length_le_split).
    rewrite take_app_length' by (symmetry; apply length_le_split).
    change 8%nat with (4 + 4)%nat. rewrite <- drop_drop.
    rewrite drop_app_length' by (symmetry; apply length_le_split).
    rewrite drop_app_length' by (symmetry; apply length_le_split).
    rewrite take_ge by (rewrite length_le_split; lia).
    now rewrite !int_of_bytes_le_split.
  - now rewrite !length_app, !length_le_split.
Qed.

Section Files.

Variable probe_req_size : Z.
Variable indeterminate : byte.
Variable uninitialised_size : Z.

Local Abbreviation record_of := (record_of indeterminate).
Local Abbreviation deserializeProbeFromFile :=
  (deserializeProbeFromFile probe_req_size indeterminate uninitialised_size).
Local Abbreviation read_probes :=
  (read_probes probe_req_size indeterminate uninitialised_size).
Local Abbreviation load_probes :=
  (load_probes probe_req_size indeterminate uninitialised_size).
Local Abbreviation well_formed := (well_formed probe_req_size).

(** X22: a file that starts with the dimensions of another grid fails the
    assertion, whatever follows them; no probe is read. *)
Theorem other_dimensions_fail_the_assertion x y z rest acc :
  - 2 ^ 31 <= x < 2 ^ 31 -> - 2 ^ 31 <= y < 2 ^ 31 ->
  - 2 ^ 31 <= z < 2 ^ 31 ->
  (x, y, z) <> PROBE_DIM ->
  load_probes (ivec3_bytes (x, y, z) ++ rest) acc = inr AssertionFailed.
Proof.
  intros Hx Hy Hz Hdim. unfold ProbeBake.load_probes.
  destruct (ivec3_of_bytes_ivec3_bytes x y z Hx Hy Hz) as [Hround Hlen].
  pose proof (read_open (ivec3_bytes (x, y, z)) rest
                (repeat indeterminate 12)) as R.
  rewrite Hlen in R. rewrite R. clear R.
  change (drop 12 (repeat indeterminate 12)) with (@nil byte).
  rewrite app_nil_r, Hround.
  now rewrite bool_decide_false by exact Hdim.
Qed.




End Files.

(** A file with the dimensions 3 x 3 x 4. *)
Lemma other_dimensions_fail_the_assertion_witness :
  load_probes 16384 x00 16384 (ivec3_bytes (3, 3, 4) ++ [x01; x02]) [] =
  inr AssertionFailed.
Proof.
  apply (other_dimensions_fail_the_assertion 16384 x00 16384 3 3 4);
    (lia || discriminate).
Defined.


End ProbeFile.

(** ** Handles in memory: which handle destroys a backend object
       (the move constructors, move assignments and destructors of
        rlpbr_core/common.cpp, on objects that may be one and the same) *)

Module Ownership.

Import Handles.

(** The handle classes of common.cpp that destroy what they point to. *)
Inductive HandleClass := EnvironmentHandle | LoaderHandle | RendererHandle.

Definition object (k : HandleClass) : Type :=
  match k with
  | EnvironmentHandle => EnvironmentImpl.t
  | LoaderHandle => LoaderImpl.t
  | RendererHandle => RendererImpl.t
  end.

Definition state_ (k : HandleClass) : object k -> ptr :=
  match k with
  | EnvironmentHandle => EnvironmentImpl.state_
  | LoaderHandle => LoaderImpl.state_
  | RendererHandle => RendererImpl.state_
  end.

Definition destroy_ptr_ (k : HandleClass) : object k -> ptr :=
  match k with
  | EnvironmentHandle => EnvironmentImpl.destroy_ptr_
  | LoaderHandle => LoaderImpl.destroy_ptr_
  | RendererHandle => RendererImpl.destroy_ptr_
  end.

(** The move constructor, run on storage that held [raw]. *)
Definition move_ctor (k : HandleClass)
    : object k -> object k -> object k * object k :=
  match k with
  | EnvironmentHandle => fun _ o => EnvironmentImpl.move_ctor o
  | LoaderHandle => fun _ o => LoaderImpl.move_ctor o
  | RendererHandle => RendererImpl.move_ctor
  end.

Definition move_assign (k : HandleClass)
    : object k -> object k -> object k * object k * list DestroyCall :=
  match k with
  | EnvironmentHandle => EnvironmentImpl.move_assign
  | LoaderHandle => LoaderImpl.move_assign
  | RendererHandle => RendererImpl.move_assign
  end.

Definition dtor (k : HandleClass) : object k -> list DestroyCall :=
  match k with
  | EnvironmentHandle => EnvironmentImpl.dtor
  | LoaderHandle => LoaderImpl.dtor
  | RendererHandle => RendererImpl.dtor
  end.

(** What a program does with the handles of one class. *)
Inductive Op (k : HandleClass) :=
| MoveConstruct (dst : nat) (raw : object k) (src : nat)
    (* new (dst) T(std::move( *src)), on storage holding [raw] *)
| MoveAssign (dst src : nat)
    (* *dst = std::move( *src); [dst] and [src] may be the same object *)
| Destruct (a : nat).
    (* the lifetime of *a ends *)
Arguments MoveConstruct {k}.
Arguments MoveAssign {k}.
Arguments Destruct {k}.

(** The handles alive, by address. *)
Abbreviation Memory k := (gmap nat (object k)).

Section Memory.

Variable k : HandleClass.

(** One operation: the memory after it and the destroy calls it makes;
    nothing when it touches an object outside its lifetime.  In an
    assignment the members of [*dst] are written before [src->state_] is
    nulled, so that for [dst = src] the object is left as the source is. *)
Definition step (m : Memory k) (op : Op k)
    : option (Memory k * list DestroyCall) :=
  match op with
  | MoveConstruct dst raw src =>
      match m !! dst, m !! src with
      | None, Some o =>
          let '(d, o') := move_ctor k raw o in
          Some (<[src := o']> (<[dst := d]> m), [])
      | _, _ => None
      end
  | MoveAssign dst src =>
      match m !! dst, m !! src with
      | Some this, Some o =>
          let '(d, o', calls) := move_assign k this o in
          Some (<[src := o']> (<[dst := d]> m), calls)
      | _, _ => None
      end
  | Destruct a =>
      match m !! a with
      | Some h => Some (delete a m, dtor k h)
      | None => None
      end
  end.

Fixpoint run (m : Memory k) (ops : list (Op k))
    : option (Memory k * list DestroyCall) :=
  match ops with
  | [] => Some (m, [])
  | op :: ops =>
      '(m, calls) ← step m op;
      '(m', calls') ← run m ops;
      Some (m', calls ++ calls')
  end.

(** Some live handle points to [s] and would destroy it with [d]. *)
Definition holds (m : Memory k) (s d : ptr) : Prop :=
  exists a h, m !! a = Some h /\ state_ k h = s /\ destroy_ptr_ k h = d.

Definition held (m : Memory k) (s : ptr) : Prop := exists d, holds m s d.

(** No two live handles point to the same backend object. *)
Definition owns_uniquely (m : Memory k) : Prop :=
  forall a b ha hb,
    m !! a = Some ha -> m !! b = Some hb ->
    state_ k ha <> nullptr -> state_ k ha = state_ k hb -> a = b.

(** What the destroy calls [calls] made between [m] and [m'] account for. *)
Definition accounted (m m' : Memory k) (calls : list DestroyCall) : Prop :=
  owns_uniquely m' /\
  NoDup (destroyed_state <$> calls) /\
  (forall c, c ∈ calls ->
     destroyed_state c <> nullptr /\
     holds m (destroyed_state c) (destroy_fn c) /\
     ~ held m' (destroyed_state c)) /\
  (forall s d, s <> nullptr -> holds m' s d -> holds m s d) /\
  (forall s, s <> nullptr -> held m s ->
     held m' s \/ s ∈ destroyed_state <$> calls).

End Memory.

Arguments step {k}.
Arguments run {k}.
Arguments holds {k}.
Arguments held {k}.
Arguments owns_uniquely {k}.
Arguments accounted {k}.

(** *** The special member functions, as far as ownership goes *)

Lemma is_set_true p : is_set p = true <-> p <> nullptr.
Proof.
  unfold is_set. destruct (Z.eqb_spec p nullptr); cbn; split; congruence.
Qed.

Lemma dtor_calls k h :
  dtor k h =
  if is_set (state_ k h)
  then [ {| destroy_fn := destroy_ptr_ k h; destroyed_state := state_ k h |} ]
  else [].
Proof. destruct k; reflexivity. Qed.

Lemma move_ctor_moves k raw o d o' :
  move_ctor k raw o = (d, o') ->
  state_ k d = state_ k o /\ destroy_ptr_ k d = destroy_ptr_ k o /\
  state_ k o' = nullptr.
Proof. destruct k; intros [= <- <-]; repeat split. Qed.

Lemma move_assign_moves k this o d o' calls :
  move_assign k this o = (d, o', calls) ->
  state_ k d = state_ k o /\ destroy_ptr_ k d = destroy_ptr_ k o /\
  state_ k o' = nullptr /\ calls = dtor k this.
Proof. destruct k; intros [= <- <- <-]; repeat split. Qed.

Lemma elem_of_dtor k h c :
  c ∈ dtor k h <->
  state_ k h <> nullptr /\
  c = {| destroy_fn := destroy_ptr_ k h; destroyed_state := state_ k h |}.
Proof.
  rewrite dtor_calls. destruct (is_set (state_ k h)) eqn:E.
  - apply is_set_true in E. rewrite list_elem_of_singleton. tauto.
  - assert (~ state_ k h <> nullptr) by (rewrite <- is_set_true; congruence).
    rewrite elem_of_nil. tauto.
Qed.

Lemma NoDup_dtor k h : NoDup (destroyed_state <$> dtor k h).
Proof.
  rewrite dtor_calls. destruct (is_set _); cbn.
  - apply NoDup_singleton.
  - apply NoDup_nil_2.
Qed.

(** *** One operation *)

Ltac lookups :=
  repeat match goal with
  | H : <[_ := _]> _ !! _ = Some _ |- _ =>
      apply (lookup_insert_Some (M := gmap nat)) in H as [[? ?] | [? H]]
  | H : delete _ _ !! _ = Some _ |- _ =>
      apply (lookup_delete_Some (M := gmap nat)) in H as [? H]
  end; subst.

(** Two live handles on one object are one handle. *)
Ltac same_owner Hown :=
  match goal with
  | Ha : ?m !! ?a = Some ?ha, Hb : ?m !! ?b = Some ?hb |- _ =>
      assert (a = b) by (apply (Hown a b ha hb Ha Hb); congruence);
      congruence
  end.

Ltac settle Hown := lookups; first [congruence | same_owner Hown].

Lemma accounted_step k (m : Memory k) op m' calls :
  owns_uniquely m -> step m op = Some (m', calls) -> accounted m m' calls.
Proof.
  intros Hown Hstep. destruct op as [dst raw src | dst src | a];
    unfold step in Hstep.
  - (* move construction *)
    destruct (m !! dst) as [x |] eqn:Hdst; [discriminate Hstep |].
    destruct (m !! src) as [o |] eqn:Hsrc; [| discriminate].
    destruct (move_ctor k raw o) as [d o'] eqn:Hmove.
    injection Hstep as <- <-.
    apply move_ctor_moves in Hmove as (Hs & Hd & Hnull).
    assert (Hne : dst <> src) by congruence.
    split; [| split; [| split; [| split]]].
    + intros a b ha hb Ha Hb Hset Heq. settle Hown.
    + apply NoDup_nil_2.
    + intros c Hc. apply elem_of_nil in Hc. contradiction.
    + intros s fn Hset (a & h & Ha & <- & <-). lookups; try congruence.
      * exists src, o. rewrite Hs, Hd. auto.
      * exists a, h. auto.
    + intros s Hset (fn & a & h & Ha & <- & <-). left.
      destruct (decide (a = src)) as [-> | Hasrc].
      * assert (h = o) by congruence. subst h.
        exists (destroy_ptr_ k d), dst, d.
        rewrite lookup_insert_ne, lookup_insert_eq by congruence. auto.
      * assert (Hadst : a <> dst) by congruence.
        exists (destroy_ptr_ k h), a, h.
        rewrite !lookup_insert_ne by congruence. auto.
  - (* move assignment *)
    destruct (m !! dst) as [this |] eqn:Hdst; [| discriminate Hstep].
    destruct (m !! src) as [o |] eqn:Hsrc; [| discriminate].
    destruct (move_assign k this o) as [[d o'] calls0] eqn:Hmove.
    injection Hstep as <- <-.
    apply move_assign_moves in Hmove as (Hs & Hd & Hnull & ->).
    split; [| split; [| split; [| split]]].
    + intros a b ha hb Ha Hb Hset Heq. settle Hown.
    + apply NoDup_dtor.
    + intros c [Hset ->]%elem_of_dtor. cbn.
      split; [exact Hset |]. split; [exists dst, this; auto |].
      intros (fn & a & h & Ha & Heq & _). settle Hown.
    + intros s fn Hset (a & h & Ha & <- & <-). lookups; try congruence.
      * exists src, o. rewrite Hs, Hd. auto.
      * exists a, h. auto.
    + intros s Hset (fn & a & h & Ha & <- & <-).
      destruct (decide (a = dst)) as [-> | Hadst].
      * assert (h = this) by congruence. subst h. right.
        apply list_elem_of_fmap. eexists. split; [| apply elem_of_dtor; eauto].
        reflexivity.
      * left. destruct (decide (a = src)) as [-> | Hasrc].
        -- assert (h = o) by congruence. subst h.
           exists (destroy_ptr_ k d), dst, d.
           rewrite lookup_insert_ne, lookup_insert_eq by congruence. auto.
        -- exists (destroy_ptr_ k h), a, h.
           rewrite !lookup_insert_ne by congruence. auto.
  - (* destruction *)
    destruct (m !! a) as [h |] eqn:Ha; [| discriminate].
    injection Hstep as <- <-.
    split; [| split; [| split; [| split]]].
    + intros x y hx hy Hx Hy Hset Heq. settle Hown.
    + apply NoDup_dtor.
    + intros c [Hset ->]%elem_of_dtor. cbn.
      split; [exact Hset |]. split; [exists a, h; auto |].
      intros (fn & b & hb & Hb & Heq & _). settle Hown.
    + intros s fn Hset (b & hb & Hb & <- & <-). lookups.
      exists b, hb. auto.
    + intros s Hset (fn & b & hb & Hb & <- & <-).
      destruct (decide (b = a)) as [-> | Hba].
      * assert (hb = h) by congruence. subst hb. right.
        apply list_elem_of_fmap. eexists. split; [| apply elem_of_dtor; eauto].
        reflexivity.
      * left. exists (destroy_ptr_ k hb), b, hb.
        rewrite lookup_delete_ne by congruence. auto.
Qed.

(** *** Sequences of operations *)

Lemma accounted_refl k (m : Memory k) : owns_uniquely m -> accounted m m [].
Proof.
  intros Hown. split; [exact Hown |]. split; [apply NoDup_nil_2 |].
  split; [| split].
  - intros c Hc. apply elem_of_nil in Hc. contradiction.
  - auto.
  - auto.
Qed.

Lemma accounted_trans k (m m1 m2 : Memory k) c1 c2 :
  accounted m m1 c1 -> accounted m1 m2 c2 -> accounted m m2 (c1 ++ c2).
Proof.
  intros (Hown1 & Hnd1 & Hc1 & Hfrom1 & Hall1) (Hown2 & Hnd2 & Hc2 & Hfrom2 & Hall2).
  split; [exact Hown2 |]. split; [| split; [| split]].
  - rewrite fmap_app. apply NoDup_app. split; [exact Hnd1 |].
    split; [| exact Hnd2].
    intros s (x & -> & Hx)%list_elem_of_fmap (y & Hxy & Hy)%list_elem_of_fmap.
    destruct (Hc1 x Hx) as (_ & _ & Hnot).
    destruct (Hc2 y Hy) as (_ & Hheld & _).
    apply Hnot. rewrite Hxy. eexists. exact Hheld.
  - intros c [Hc | Hc]%elem_of_app.
    + destruct (Hc1 c Hc) as (Hset & Hheld & Hnot).
      split; [exact Hset |]. split; [exact Hheld |].
      intros [fn Hh]. apply Hnot. exists fn. now apply Hfrom2.
    + destruct (Hc2 c Hc) as (Hset & Hheld & Hnot).
      split; [exact Hset |]. split; [| exact Hnot]. now apply Hfrom1.
  - intros s fn Hset Hh. now apply Hfrom1, Hfrom2.
  - intros s Hset Hh. rewrite fmap_app, elem_of_app.
    destruct (Hall1 s Hset Hh) as [Hh1 | Hin]; [| tauto].
    destruct (Hall2 s Hset Hh1) as [Hh2 | Hin]; tauto.
Qed.

(** X24: however a program move-constructs, move-assigns (an object to itself
    included) and destructs the handles of a class, starting with no two
    handles on one backend object: no two handles come to point to the same
    object; each destroy call is for an object some handle held at the
    start, made with the destroy operation that came with it, the object is
    destroyed once, and no live handle is left pointing to it; and every
    object held at the start is either destroyed or still held. *)
Theorem backends_are_destroyed_once k (m : Memory k) ops m' calls :
  owns_uniquely m ->
  run m ops = Some (m', calls) ->
  owns_uniquely m' /\
  NoDup (destroyed_state <$> calls) /\
  (forall c, c ∈ calls ->
     destroyed_state c <> nullptr /\
     holds m (destroyed_state c) (destroy_fn c) /\
     ~ held m' (destroyed_state c)) /\
  (forall s d, s <> nullptr -> holds m' s d -> holds m s d) /\
  (forall s, s <> nullptr -> held m s ->
     held m' s \/ s ∈ destroyed_state <$> calls).
Proof.
  change (owns_uniquely m -> run m ops = Some (m', calls) ->
          accounted m m' calls).
  revert m m' calls.
  induction ops as [| op ops IH]; intros m m' calls Hown Hrun; cbn in Hrun.
  - injection Hrun as <- <-. now apply accounted_refl.
  - destruct (step m op) as [[m1 c1] |] eqn:Hstep; [| discriminate].
    cbn in Hrun.
    destruct (run m1 ops) as [[m2 c2] |] eqn:Hrest; [| discriminate].
    cbn in Hrun. injection Hrun as <- <-.
    pose proof (accounted_step k m op m1 c1 Hown Hstep) as H1.
    apply (accounted_trans k m m1 m2); [exact H1 |].
    apply IH; [apply H1 | exact Hrest].
Qed.

(** Two loaders: the first is assigned to itself, which destroys its
    backend object and leaves it empty; the second is then moved into it and
    both are destructed. *)
Definition example_loader (fn s : ptr) : LoaderImpl.t :=
  {| LoaderImpl.destroy_ptr_ := fn; LoaderImpl.load_scene_ptr_ := fn + 1;
     LoaderImpl.load_env_maps_ptr_ := fn + 2; LoaderImpl.state_ := s |}.

Definition example_memory : Memory LoaderHandle :=
  <[1%nat := example_loader 10 100]> (<[2%nat := example_loader 20 200]> ∅).

Definition example_ops : list (Op LoaderHandle) :=
  [MoveAssign 1 1; MoveAssign 1 2; Destruct 2; Destruct 1].

Lemma backends_are_destroyed_once_witness :
  run example_memory example_ops =
    Some (∅, [ {| destroy_fn := 10; destroyed_state := 100 |};
               {| destroy_fn := 20; destroyed_state := 200 |} ]) /\
  NoDup (destroyed_state <$>
           [ {| destroy_fn := 10; destroyed_state := 100 |};
             {| destroy_fn := 20; destroyed_state := 200 |} ]).
Proof.
  assert (Hrun : run example_memory example_ops =
    Some (∅, [ {| destroy_fn := 10; destroyed_state := 100 |};
               {| destroy_fn := 20; destroyed_state := 200 |} ])).
  { vm_compute. reflexivity. }
  split; [exact Hrun |].
  refine (proj1 (proj2 (backends_are_destroyed_once LoaderHandle example_memory
                          example_ops _ _ _ Hrun))).
  intros a b ha hb Ha Hb _ Heq.
  unfold example_memory in Ha, Hb.
  apply lookup_insert_Some in Ha as [[<- <-] | [? Ha]];
    apply lookup_insert_Some in Hb as [[<- <-] | [? Hb]];
    try reflexivity;
    repeat match goal with
    | H : <[_ := _]> _ !! _ = Some _ |- _ =>
        apply lookup_insert_Some in H as [[<- <-] | [? H]]
    | H : ∅ !! _ = Some _ |- _ => rewrite lookup_empty in H; discriminate H
    end; try reflexivity; try discriminate Heq; congruence.
Defined.

End Ownership.

(** ** What the conversion tool reports and what it lets through
       ([main], bin/preprocess.cpp) *)

Module PreprocessAxes.

Import Preprocess.

Local Open Scope string_scope.

(** The first of the axis arguments that is not a direction keyword. *)
Definition first_invalid (axes : list string) : option string :=
  head (filter (fun k => k ∉ keywords) axes).

(** The determinant of the rotation part of a transform: the first three
    components of its first three columns. *)
Definition det3 (m : mat4) : Z :=
  let '(a, b, c) := (col0 m, col1 m, col2 m) in
  (vx a * (vy b * vz c - vz b * vy c)
   - vx b * (vy a * vz c - vz a * vy c)
   + vx c * (vy a * vz b - vz a * vy b))%Z.

(** Two axes on one line: the same axis, or opposite ones. *)
Definition on_one_line (u v : vec4) : Prop :=
  u = v \/ u = mk_vec4 (- vx v) (- vy v) (- vz v) (- vw v).

(** The six axes [convertArg] returns. *)
Definition unit_axes : list vec4 :=
  [ mk_vec4 0 1 0 0; mk_vec4 0 (-1) 0 0; mk_vec4 1 0 0 0;
    mk_vec4 (-1) 0 0 0; mk_vec4 0 0 1 0; mk_vec4 0 0 (-1) 0 ].

Lemma convertArg_unit_axis argv k :
  In k keywords -> exists v, convertArg argv k = inl v /\ In v unit_axes.
Proof.
  intros Hk. unfold keywords in Hk. cbn [In] in Hk.
  destruct Hk as [<- | [<- | [<- | [<- | [<- | [<- | []]]]]]];
    eexists; (split; [reflexivity |]); unfold unit_axes; cbn [In]; tauto.
Qed.

Lemma main_six argv prog src dst x y z :
  argv = [prog; src; dst; x; y; z] ->
  main argv =
  match convertArg argv x with
  | inr msg => ([Cerr msg], Exited EXIT_FAILURE)
  | inl cx =>
    match convertArg argv y with
    | inr msg => ([Cerr msg], Exited EXIT_FAILURE)
    | inl cy =>
      match convertArg argv z with
      | inr msg => ([Cerr msg], Exited EXIT_FAILURE)
      | inl cz =>
          let m := {| col0 := cx; col1 := cy; col2 := cz;
                      col3 := mk_vec4 0 0 0 1 |} in
          ([CoutTransform m; Dump src m dst], Returned 0)
      end
    end
  end.
Proof.
  intros ->. set (argv := [prog; src; dst; x; y; z]).
  unfold main. change (Z.of_nat (length argv)) with 6%Z.
  cbn [Z.ltb Z.eqb Z.compare Pos.compare Pos.compare_cont Pos.eqb negb].
  change (arg argv 3) with x. change (arg argv 4) with y.
  change (arg argv 5) with z. change (arg argv 1) with src.
  change (arg argv 2) with dst.
  destruct (convertArg argv x); [| reflexivity].
  destruct (convertArg argv y); [| reflexivity].
  destruct (convertArg argv z); reflexivity.
Qed.

Lemma convertArg_invalid argv k :
  k ∉ keywords ->
  convertArg argv k =
  inr (arg argv 0 +:+ ": Invalid axes argument " +:+ dquote +:+ k
       +:+ dquote +:+ endl).
Proof.
  intros Hk. unfold convertArg.
  repeat match goal with
  | |- context [String.eqb k ?s] =>
      destruct (String.eqb_spec k s) as [-> | _];
      [ exfalso; apply Hk; unfold keywords;
        repeat (apply elem_of_cons; (left; reflexivity) || right) | ]
  end.
  reflexivity.
Qed.

(** X25: every failure of the tool writes one line to [cerr] that starts with the
    name the program was run under: the usage line for fewer than two
    positional arguments; a line asking for zero or all axes for one, two or
    more than three axis arguments; and, for three axis arguments, the first
    of them, in the order X, Y, Z, that is not a direction keyword, quoted.
    Later axis arguments are not looked at. *)
Theorem main_reports_the_first_invalid_axis prog :
  (forall args, (length args < 2)%nat ->
     main (prog :: args) =
     ([Cerr (prog +:+ " SRC DST [X_AXIS Y_AXIS Z_AXIS]" +:+ endl)],
      Exited EXIT_FAILURE)) /\
  (forall src dst axes, axes <> [] -> length axes <> 3%nat ->
     main (prog :: src :: dst :: axes) =
     ([Cerr (prog +:+ ": Need to specify zero or all source axes" +:+ endl)],
      Exited EXIT_FAILURE)) /\
  (forall src dst x y z bad,
     first_invalid [x; y; z] = Some bad ->
     main [prog; src; dst; x; y; z] =
     ([Cerr (prog +:+ ": Invalid axes argument " +:+ dquote +:+ bad
             +:+ dquote +:+ endl)],
      Exited EXIT_FAILURE)).
Proof.
  split; [| split].
  - intros args Hlen. unfold main. cbn [length].
    destruct (Z.ltb_spec (Z.of_nat (S (length args))) 3) as [_ | H]; [| lia].
    reflexivity.
  - intros src dst axes Hne Hlen. unfold main. cbn [length].
    destruct (Z.ltb_spec (Z.of_nat (S (S (S (length axes))))) 3) as [H | _];
      [lia |].
    destruct (Z.ltb_spec 3 (Z.of_nat (S (S (S (length axes)))))) as [_ | H];
      [| destruct axes; [congruence | cbn [length] in H; lia]].
    destruct (Z.eqb_spec (Z.of_nat (S (S (S (length axes))))) 6) as [H | _];
      [lia |].
    reflexivity.
  - intros src dst x y z bad Hbad.
    rewrite (main_six _ prog src dst x y z eq_refl).
    set (argv := [prog; src; dst; x; y; z]).
    unfold first_invalid in Hbad. cbn [filter list_filter] in Hbad.
    destruct (decide (x ∉ keywords)) as [Hx | Hx].
    { injection Hbad as <-. now rewrite convertArg_invalid. }
    apply dec_stable in Hx.
    destruct (convertArg_unit_axis argv x) as (cx & -> & _);
      [now apply list_elem_of_In |].
    destruct (decide (y ∉ keywords)) as [Hy | Hy].
    { injection Hbad as <-. now rewrite convertArg_invalid. }
    apply dec_stable in Hy.
    destruct (convertArg_unit_axis argv y) as (cy & -> & _);
      [now apply list_elem_of_In |].
    destruct (decide (z ∉ keywords)) as [Hz | Hz].
    { injection Hbad as <-. now rewrite convertArg_invalid. }
    discriminate Hbad.
Qed.

(** X26: any three direction keywords are accepted; the tool does not check that
    they name three different axes.  The transform it dumps has determinant
    1, -1 or 0, and 0 exactly when two of the keywords name axes on one
    line: then the converted scene is flat. *)
Theorem axes_need_not_span_space prog src dst x y z :
  In x keywords -> In y keywords -> In z keywords ->
  exists m,
    main [prog; src; dst; x; y; z] =
      ([CoutTransform m; Dump src m dst], Returned 0) /\
    (det3 m = 1 \/ det3 m = -1 \/ det3 m = 0)%Z /\
    (det3 m = 0%Z <->
     on_one_line (col0 m) (col1 m) \/ on_one_line (col0 m) (col2 m) \/
     on_one_line (col1 m) (col2 m)).
Proof.
  intros Hx Hy Hz.
  rewrite (main_six _ prog src dst x y z eq_refl).
  set (argv := [prog; src; dst; x; y; z]).
  destruct (convertArg_unit_axis argv x Hx) as (cx & -> & Hcx).
  destruct (convertArg_unit_axis argv y Hy) as (cy & -> & Hcy).
  destruct (convertArg_unit_axis argv z Hz) as (cz & -> & Hcz).
  eexists. split; [reflexivity |].
  cbn [col0 col1 col2].
  unfold unit_axes in Hcx, Hcy, Hcz. cbn [In] in Hcx, Hcy, Hcz.
  destruct Hcx as [<- | [<- | [<- | [<- | [<- | [<- | []]]]]]];
    destruct Hcy as [<- | [<- | [<- | [<- | [<- | [<- | []]]]]]];
    destruct Hcz as [<- | [<- | [<- | [<- | [<- | [<- | []]]]]]];
    (split; [vm_compute; tauto |]);
    unfold on_one_line; cbn; split;
    first [ intros H; discriminate H
          | intros [[H | H] | [[H | H] | [H | H]]]; discriminate H
          | intros _; tauto ].
Qed.

(** "up up left": the Y axis twice. *)
Lemma axes_need_not_span_space_witness :
  exists m,
    main ["convert"; "a.glb"; "a.bps"; "up"; "up"; "left"] =
      ([CoutTransform m; Dump "a.glb" m "a.bps"], Returned 0) /\
    det3 m = 0%Z.
Proof.
  destruct (axes_need_not_span_space "convert" "a.glb" "a.bps"
              "up" "up" "left") as (m & Hm & _ & Hdet);
    [unfold keywords; cbn [In]; tauto .. |].
  exists m. split; [exact Hm |].
  apply Hdet. left.
  injection Hm as <-. left. reflexivity.
Defined.

End PreprocessAxes.

(** ** When ZSobol sampling is selected
       ([makeRenderState], render.cpp:185-236) *)

Module SamplingChoice.

Import RenderSetup.

(** The number of base-4 digits of the sample index, without the machine
    arithmetic: the bit count of the longer image side less one, and half
    the bit count of the sample count, rounded down. *)
Definition index_digits (cfg : RenderConfig) : Z :=
  Z.log2 (Z.max (imgWidth cfg) (imgHeight cfg) - 1) + 1 +
  (Z.log2 (spp cfg) + 1) / 2.

Lemma log2_u32 v : 0 < v < 2 ^ 32 -> 0 <= Z.log2 v < 32.
Proof.
  intros Hv. split; [apply Z.log2_nonneg |].
  apply Z.log2_lt_pow2; lia.
Qed.

Lemma log2Int_log2 clz0 v : 0 < v -> log2Int clz0 v = Z.log2 v.
Proof.
  intros Hv. unfold log2Int, builtin_clz.
  destruct (Z.eqb_spec v 0); lia.
Qed.

(** X27: for an image of at least two pixels on its longer side and at least
    one sample per pixel, on a configuration that the adaptive-sampling
    guard lets through: the 32-bit computations of [makeRenderState] do not
    wrap, the index has [index_digits] base-4 digits, the index shift is the
    binary logarithm of the sample count, rounded up to an even number,
    and ZSobol sampling is selected exactly when the digits are at most 16
    and uniform sampling is not forced.  The warning is written exactly
    when the digits exceed 16, forced or not. *)
Theorem zsobol_needs_at_most_16_digits aspt AdaptiveSample ForceUniform clz0 cfg :
  1 <= spp cfg < 2 ^ 32 ->
  0 <= imgWidth cfg < 2 ^ 32 -> 0 <= imgHeight cfg < 2 ^ 32 ->
  2 <= Z.max (imgWidth cfg) (imgHeight cfg) ->
  spp_too_low aspt AdaptiveSample cfg = false ->
  makeRenderState aspt AdaptiveSample ForceUniform clz0 cfg =
  Continues
    (if index_digits cfg <=? 16 then [] else zsobol_warning)
    (if (index_digits cfg <=? 16) &&
        negb (has_flag (flags cfg) ForceUniform)
     then "ZSOBOL_SAMPLING"%string else "UNIFORM_SAMPLING"%string)
    (index_digits cfg)
    (2 * ((Z.log2 (spp cfg) + 1) / 2)).
Proof.
  intros Hspp Hw Hh Hmax Hguard.
  pose proof (log2_u32 (spp cfg) ltac:(lia)) as Hls.
  pose proof (log2_u32 (Z.max (imgWidth cfg) (imgHeight cfg) - 1)
                ltac:(lia)) as Hlm.
  assert (Hlog : log2_spp clz0 cfg = Z.log2 (spp cfg)).
  { unfold log2_spp. rewrite log2Int_log2 by lia. apply FramebufferSetup.u32_id. lia. }
  assert (Hhalf : 0 <= (Z.log2 (spp cfg) + 1) / 2 <= 16).
  { split; [apply Z.div_pos; lia |].
    apply Z.div_le_upper_bound; lia. }
  assert (Hdigits : num_index_digits_base4 clz0 cfg = index_digits cfg).
  { unfold num_index_digits_base4, index_digits. rewrite Hlog.
    rewrite (FramebufferSetup.u32_id (Z.max _ _ - 1)) by lia.
    rewrite log2Int_log2 by lia.
    rewrite (FramebufferSetup.u32_id (Z.log2 (spp cfg) + 1)) by lia.
    apply FramebufferSetup.u32_id. lia. }
  assert (Hshift : index_shift clz0 cfg = 2 * ((Z.log2 (spp cfg) + 1) / 2)).
  { unfold index_shift. rewrite Hlog.
    set (l := Z.log2 (spp cfg)) in *.
    destruct (Z.odd l) eqn:Hodd.
    - rewrite FramebufferSetup.u32_id by lia.
      apply Z.odd_spec in Hodd as [q Hq].
      replace (l + 1) with ((q + 1) * 2) by lia.
      rewrite Z.div_mul by lia. lia.
    - assert (He : Z.even l = true)
        by (rewrite <- Z.negb_odd, Hodd; reflexivity).
      apply Z.even_spec in He as [q Hq].
      replace (l + 1) with (1 + q * 2) by lia.
      rewrite Z.div_add by lia. change (1 / 2) with 0. lia. }
  unfold makeRenderState, index_fits. rewrite Hguard, Hdigits, Hshift.
  assert (Hrange : 0 <= index_digits cfg <= 48)
    by (unfold index_digits; lia).
  rewrite (FramebufferSetup.u32_id (index_digits cfg * 2)) by lia.
  assert (Hfit : (index_digits cfg * 2 <=? 32) = (index_digits cfg <=? 16)).
  { destruct (Z.leb_spec (index_digits cfg * 2) 32),
             (Z.leb_spec (index_digits cfg) 16); (reflexivity || lia). }
  rewrite Hfit.
  destruct (index_digits cfg <=? 16), (has_flag (flags cfg) ForceUniform);
    reflexivity.
Qed.

(** 1024 x 768 pixels: 10 digits for the pixel, and room for 6 more, which
    8191 samples per pixel fill and 8192 exceed. *)
Lemma zsobol_needs_at_most_16_digits_witness :
  makeRenderState 4 1 2 32
    {| imgWidth := 1024; imgHeight := 768; spp := 8191; flags := 0 |} =
  Continues [] "ZSOBOL_SAMPLING"%string 16 12 /\
  makeRenderState 4 1 2 32
    {| imgWidth := 1024; imgHeight := 768; spp := 8192; flags := 0 |} =
  Continues zsobol_warning "UNIFORM_SAMPLING"%string 17 14.
Proof.
  split.
  - apply (zsobol_needs_at_most_16_digits 4 1 2 32
             {| imgWidth := 1024; imgHeight := 768; spp := 8191;
                flags := 0 |}); cbn; (lia || reflexivity).
  - apply (zsobol_needs_at_most_16_digits 4 1 2 32
             {| imgWidth := 1024; imgHeight := 768; spp := 8192;
                flags := 0 |}); cbn; (lia || reflexivity).
Defined.

End SamplingChoice.
